(** * DigitScanner: the feedforward neural network of [src/FNN.hpp]

    A shallow embedding of the class template [FNN<T>] (construction,
    [feedforward], [feedforward_complete], [backpropagation_cross_entropy]
    and [SGD_batch]) together with the statements of its specification, and
    of the code around it: the data sets of [DigitScanner.hpp] and the mouse
    handler of the drawing window. *)

From Stdlib Require Import ZArith List Lia Reals Lra.
From Stdlib Require PrimFloat Uint63.
From stdpp Require Import base list.
Import ListNotations.
Local Open Scope Z_scope.

(** ** Scalars

    [FNN] is a template over the numeric type [T] of the stored values
    ("basically allows float, double, long double").  The embedding keeps
    that parameter: a [Scalar] instance supplies the arithmetic that the
    program uses on [T].  The program's [double] values [eta] and [alpha]
    are taken in the same type. *)

Class Scalar (T : Type) : Type := {
  szero : T;
  sone : T;
  sadd : T → T → T;
  ssub : T → T → T;
  smul : T → T → T;
  sdiv : T → T → T;
  sneg : T → T;
  sexp : T → T;
  ssqrt : T → T;
  of_int : Z → T
}.

(** The laws of exact arithmetic that individual theorems rely on.  They are
    stated one by one so that each theorem names exactly what it uses. *)

Definition smul_commutative `{Scalar T} : Prop := ∀ a b : T, smul a b = smul b a.
Definition sadd_associative `{Scalar T} : Prop :=
  ∀ a b c : T, sadd (sadd a b) c = sadd a (sadd b c).
Definition sadd_right_identity `{Scalar T} : Prop := ∀ a : T, sadd a szero = a.

(** ** Fatal errors and results

    Nothing in [FNN.hpp] throws or returns an error code.  The faults below
    are the places where the C++ program has no defined result: a shape
    mismatch inside a matrix operation, an index outside a [std::vector] or
    array, and a read of a matrix whose storage was released by [free()]. *)

Inductive fault : Type :=
  | ShapeMismatch
  | OutOfRange
  | UseAfterFree.

Inductive result (A : Type) : Type :=
  | Ok (a : A)
  | Fatal (e : fault).
Arguments Ok {A} a.
Arguments Fatal {A} e.

Definition rbind {A B} (c : result A) (k : A → result B) : result B :=
  match c with
  | Ok a => k a
  | Fatal e => Fatal e
  end.

Declare Scope result_scope.
Delimit Scope result_scope with result.
Notation "x <- c ;; k" := (rbind c (fun x => k))
  (at level 100, c at next level, right associativity) : result_scope.

(** The program's [int] values (sizes, counts and indices) are taken in [Z]:
    the only arithmetic on them is [i+1], [nb-1], [nb-2] and [size()-1], on
    values bounded by the length of a vector. *)

(** [v[i]] on a [std::vector] or array, with an [int] index. *)
Definition vec_at {A} (v : list A) (i : Z) : result A :=
  if i <? 0 then Fatal OutOfRange
  else match v !! Z.to_nat i with
       | Some x => Ok x
       | None => Fatal OutOfRange
       end.

(** [v[i] = x]. *)
Definition vec_set {A} (v : list A) (i : Z) (x : A) : result (list A) :=
  if (0 <=? i) && (i <? Z.of_nat (length v))
  then Ok (<[Z.to_nat i := x]> v)
  else Fatal OutOfRange.

(** ** Dense matrices

    [Matrix.hpp] is not among the sources; only its uses in [FNN.hpp] are.
    Every definition of this section is therefore modelled from the spec's
    §3 and §4.1 and from the way [FNN.hpp] calls it.  A [Matrix] is a value:
    [Matrix(B)] and [operator=], the spec's views, give a second handle on the
    same values, [Matrix(B, true)] an owning copy, and [FNN.hpp] never writes
    through one handle and reads through another afterwards, except in
    [random_init_values], where the writes through the views are modelled as
    writes to the layer. *)

Section Matrix.
Context {T : Type} `{Scalar T}.

(** Modelled from the spec: the class [Matrix<T>] of the absent
    [Matrix.hpp], "a rectangular numeric grid with row count I, column count
    J, backing storage of size I×J"; element (i,j) is stored row by row, at
    position [i*J + j]. *)
Record Matrix : Type := mkMatrix {
  get_I : Z;
  get_J : Z;
  matrix : list T
}.

(** Modelled from the spec: the constructor [Matrix(I, J)] of the absent
    [Matrix.hpp], "construction by dimensions (zero-filled)". *)
Definition Matrix_new (I J : Z) : Matrix :=
  mkMatrix I J (replicate (Z.to_nat (I * J)) szero).

(** Modelled from the spec: the default constructor of the absent
    [Matrix.hpp], which [std::vector::resize] calls; a matrix without
    elements. *)
Definition Matrix_default : Matrix := mkMatrix 0 0 [].

(** Modelled from the spec: the constructor [Matrix(B, true)] of the absent
    [Matrix.hpp], the owning copy of [B] (the spec's "copy construction", as
    opposed to a view that shares the storage). *)
Definition Matrix_copy (m : Matrix) : Matrix := m.

(** Modelled from the spec: [fill(c)] of the absent [Matrix.hpp],
    "fill-with-constant", in place. *)
Definition fill (c : T) (m : Matrix) : Matrix :=
  mkMatrix (get_I m) (get_J m) (map (fun _ => c) (matrix m)).

(** Modelled from the spec: the shape test of the binary operations of the
    absent [Matrix.hpp], "addition/subtraction of two same-shape matrices". *)
Definition same_shape (a b : Matrix) : bool :=
  (get_I a =? get_I b) && (get_J a =? get_J b).

(** Modelled from the spec: element [k] of the backing storage of the absent
    [Matrix.hpp]. *)
Definition cell (m : Matrix) (k : nat) : T := nth k (matrix m) szero.

(** Modelled from the spec: the read [m(i, j)] of the absent [Matrix.hpp],
    "element (i,j) addressable for 0≤i<I, 0≤j<J". *)
Definition entry (m : Matrix) (i j : nat) : T :=
  cell m (i * Z.to_nat (get_J m) + j)%nat.

(** Modelled from the spec: the element-wise sum that [operator+=] of the
    absent [Matrix.hpp] stores in its left operand. *)
Definition madd (a b : Matrix) : Matrix :=
  mkMatrix (get_I a) (get_J a) (zip_with sadd (matrix a) (matrix b)).

(** Modelled from the spec: the element-wise difference that [operator-=] of
    the absent [Matrix.hpp] stores in its left operand. *)
Definition msub (a b : Matrix) : Matrix :=
  mkMatrix (get_I a) (get_J a) (zip_with ssub (matrix a) (matrix b)).

(** Modelled from the spec: the "element-wise (Hadamard) product" that
    [element_wise_product] of the absent [Matrix.hpp] stores in its left
    operand. *)
Definition mhadamard (a b : Matrix) : Matrix :=
  mkMatrix (get_I a) (get_J a) (zip_with smul (matrix a) (matrix b)).

(** Modelled from the spec: the "scalar multiplication in place" of the
    absent [Matrix.hpp]. *)
Definition mscale (a : Matrix) (c : T) : Matrix :=
  mkMatrix (get_I a) (get_J a) (map (fun x => smul x c) (matrix a)).

(** Modelled from the spec: element (i,j) of the matrix product of the
    absent [Matrix.hpp], the sum over [k] of [a(i,k) * b(k,j)]. *)
Definition dot (a b : Matrix) (i j : nat) : T :=
  fold_left (fun s k => sadd s (smul (entry a i k) (entry b k j)))
            (seq 0 (Z.to_nat (get_J a))) szero.

(** Modelled from the spec: the "matrix product of compatible shapes,
    producing a new matrix of the outer dimensions" of the absent
    [Matrix.hpp]. *)
Definition mprod (a b : Matrix) : Matrix :=
  mkMatrix (get_I a) (get_J b)
    (flat_map (fun i => map (fun j => dot a b i j) (seq 0 (Z.to_nat (get_J b))))
              (seq 0 (Z.to_nat (get_I a)))).

(** Modelled from the spec: the "transpose" of the absent [Matrix.hpp]. *)
Definition mtranspose (a : Matrix) : Matrix :=
  mkMatrix (get_J a) (get_I a)
    (flat_map (fun j => map (fun i => entry a i j) (seq 0 (Z.to_nat (get_I a))))
              (seq 0 (Z.to_nat (get_J a)))).

(** Modelled from the spec: the function that [sigmoid()] of the absent
    [Matrix.hpp] applies to every element, the glossary's "logistic function
    1/(1+e^-x)". *)
Definition logistic (x : T) : T := sdiv sone (sadd sone (sexp (sneg x))).

(** Modelled from the spec: the "logistic ("sigmoid") activation applied
    element-wise" of the absent [Matrix.hpp]. *)
Definition msigmoid (a : Matrix) : Matrix :=
  mkMatrix (get_I a) (get_J a) (map logistic (matrix a)).

(** Modelled from the spec: [a += b] of the absent [Matrix.hpp]; "shape
    mismatches on any binary operation are a programming error (fail fast —
    fatal, not recoverable)". *)
Definition Matrix_add_assign (a b : Matrix) : result Matrix :=
  if same_shape a b then Ok (madd a b) else Fatal ShapeMismatch.

(** Modelled from the spec: [a -= b] of the absent [Matrix.hpp], with the
    same shape check. *)
Definition Matrix_sub_assign (a b : Matrix) : result Matrix :=
  if same_shape a b then Ok (msub a b) else Fatal ShapeMismatch.

(** Modelled from the spec: [a.element_wise_product(b)] of the absent
    [Matrix.hpp], with the same shape check. *)
Definition element_wise_product (a b : Matrix) : result Matrix :=
  if same_shape a b then Ok (mhadamard a b) else Fatal ShapeMismatch.

(** Modelled from the spec: [a * b] of the absent [Matrix.hpp]; the shapes
    are compatible when [a] has as many columns as [b] has rows. *)
Definition Matrix_mul (a b : Matrix) : result Matrix :=
  if get_J a =? get_I b then Ok (mprod a b) else Fatal ShapeMismatch.

(** Modelled from the spec: [a *= b] of the absent [Matrix.hpp] for a matrix
    [b], which stores the product [a * b] in [a]. *)
Definition Matrix_mul_assign (a b : Matrix) : result Matrix := Matrix_mul a b.

(** Modelled from the spec: [a *= c] of the absent [Matrix.hpp] for a scalar
    [c]. *)
Definition Matrix_scale_assign (a : Matrix) (c : T) : Matrix := mscale a c.

(** Modelled from the spec: [a.self_transpose()] of the absent
    [Matrix.hpp], the transpose "mutating in place". *)
Definition self_transpose (a : Matrix) : Matrix := mtranspose a.

(** Modelled from the spec: [a.sigmoid()] of the absent [Matrix.hpp]. *)
Definition sigmoid (a : Matrix) : Matrix := msigmoid a.

(** Modelled from the spec: the write [m(i, j) = v] through [operator()] of
    the absent [Matrix.hpp]; a position outside the storage is a fault. *)
Definition Matrix_set (m : Matrix) (i j : Z) (v : T) : result Matrix :=
  let k := i * get_J m + j in
  if (0 <=? k) && (k <? Z.of_nat (length (matrix m)))
  then Ok (mkMatrix (get_I m) (get_J m) (<[Z.to_nat k := v]> (matrix m)))
  else Fatal OutOfRange.

(** The column of ones of the height of [a] that the backward pass builds
    as [SP]: [Matrix<T> SP(A->get_I(), 1); SP.fill(1);]. *)
Definition ones_like (a : Matrix) : Matrix := fill sone (Matrix_new (get_I a) 1).

End Matrix.
Arguments Matrix T : clear implicits.

(** ** The pseudo-random source of [random_init_values]

    [std::default_random_engine] and [std::normal_distribution] belong to the
    C++ standard library, not to the program; they are taken as a parameter.
    [default_random_engine] is the state of a default-constructed engine (the
    fixed default seed); a distribution object carries its own state, and a
    draw advances both it and the engine. *)

Class RandomEngine (T : Type) : Type := {
  engine : Type;
  default_random_engine : engine;
  normal_distribution : Type;
  normal_distribution_new : T → T → normal_distribution;
  normal_sample : normal_distribution → engine → T * normal_distribution * engine
}.

(** ** The layer model *)

(** [FNNLayer<T>*], the non-owning pointer to a layer of the network: the
    input layer or the fully connected layer in slot [i]. *)
Inductive layer_ptr : Type :=
  | InputPtr
  | FullyPtr (i : nat).

Record FNNInputLayer : Type := mkInputLayer {
  input_nb_nodes : Z
}.

Record FNNFullyConnectedLayer (T : Type) : Type := mkFullyConnectedLayer {
  nb_nodes : Z;
  previous_layer : layer_ptr;
  W : Matrix T;
  B : Matrix T
}.
Arguments mkFullyConnectedLayer {T} _ _ _ _.
Arguments nb_nodes {T} _.
Arguments previous_layer {T} _.
Arguments W {T} _.
Arguments B {T} _.

(** The base class [FNNLayer]: what both kinds of layer share. *)
Class FNNLayer (L : Type) : Type := get_nb_nodes : L → Z.
#[global] Instance FNNInputLayer_layer : FNNLayer FNNInputLayer := input_nb_nodes.
#[global] Instance FNNFullyConnectedLayer_layer {T} : FNNLayer (FNNFullyConnectedLayer T) :=
  nb_nodes.

Record FNN (T : Type) : Type := mkFNN {
  layers : list Z;
  input : FNNInputLayer;
  nb_fully_connected_layers : Z;
  fully_connected_layers : list (FNNFullyConnectedLayer T)
}.
Arguments mkFNN {T} _ _ _ _.
Arguments layers {T} _.
Arguments input {T} _.
Arguments nb_fully_connected_layers {T} _.
Arguments fully_connected_layers {T} _.

(** ** Construction *)

Section Construction.
Context {T : Type} `{Scalar T} `{RandomEngine T}.
Local Open Scope result_scope.

(** [p->get_nb_nodes()] for a layer pointer [p], among the layers that
    exist so far. *)
Definition deref_nb_nodes (inp : FNNInputLayer) (fcs : list (FNNFullyConnectedLayer T))
    (p : layer_ptr) : result Z :=
  match p with
  | InputPtr => Ok (get_nb_nodes inp)
  | FullyPtr i =>
      match fcs !! i with
      | Some l => Ok (get_nb_nodes l)
      | None => Fatal OutOfRange
      end
  end.

(** The constructor of [FNNFullyConnectedLayer]:
    [W(nb_nodes, previous_layer->get_nb_nodes())], [B(nb_nodes, 1)]. *)
Definition new_FNNFullyConnectedLayer (inp : FNNInputLayer)
    (fcs : list (FNNFullyConnectedLayer T)) (n : Z) (p_previous_layer : layer_ptr)
    : result (FNNFullyConnectedLayer T) :=
  prev <- deref_nb_nodes inp fcs p_previous_layer ;;
  Ok (mkFullyConnectedLayer n p_previous_layer (Matrix_new n prev) (Matrix_new n 1)).

(** [for(int j = 0 ; j<W.get_J() ; j++) W(i, j) = gauss_weights(generator);]
    with [n] iterations left. *)
Fixpoint init_weights_row (n : nat) (i j : Z) (Wv : Matrix T)
    (gauss_weights : normal_distribution) (generator : engine)
    : result (Matrix T * normal_distribution * engine) :=
  match n with
  | O => Ok (Wv, gauss_weights, generator)
  | S n' =>
      let '(v, gauss_weights, generator) := normal_sample gauss_weights generator in
      Wv <- Matrix_set Wv i j v ;;
      init_weights_row n' i (j + 1) Wv gauss_weights generator
  end.

(** The outer loop of [random_init_values] over the rows [i], with [n]
    iterations left. *)
Fixpoint init_rows (n : nat) (i : Z) (Wv Bv : Matrix T)
    (gauss_weights gauss_biases : normal_distribution) (generator : engine)
    : result (Matrix T * Matrix T) :=
  match n with
  | O => Ok (Wv, Bv)
  | S n' =>
      row <- init_weights_row (Z.to_nat (get_J Wv)) i 0 Wv gauss_weights generator ;;
      let '(Wv, gauss_weights, generator) := row in
      let '(v, gauss_biases, generator) := normal_sample gauss_biases generator in
      Bv <- Matrix_set Bv i 0 v ;;
      init_rows n' (i + 1) Wv Bv gauss_weights gauss_biases generator
  end.

(** [random_init_values(l)]: [W] and [B] are views of the layer's own
    matrices, so the writes land in the layer; the generator is a fresh,
    default-constructed engine on every call. *)
Definition random_init_values (inp : FNNInputLayer)
    (fcs : list (FNNFullyConnectedLayer T)) (l : FNNFullyConnectedLayer T)
    : result (FNNFullyConnectedLayer T) :=
  let Wv := W l in
  let Bv := B l in
  let generator := default_random_engine in
  let gauss_biases := normal_distribution_new (of_int 0) (of_int 1) in
  prev <- deref_nb_nodes inp fcs (previous_layer l) ;;
  let gauss_weights :=
    normal_distribution_new (of_int 0) (sdiv sone (ssqrt (of_int prev))) in
  WB <- init_rows (Z.to_nat (get_I Wv)) 0 Wv Bv gauss_weights gauss_biases generator ;;
  let '(Wv, Bv) := WB in
  Ok (mkFullyConnectedLayer (nb_nodes l) (previous_layer l) Wv Bv).

(** The loop of the constructor, with [n] iterations left; [fcs] holds the
    slots [0 .. i-1] of [fully_connected_layers] filled so far, and slot [i]
    receives the layer that [random_init_values] initialises through the
    same pointer. *)
Fixpoint FNN_build (n : nat) (i : Z) (layers : list Z) (inp : FNNInputLayer)
    (fcs : list (FNNFullyConnectedLayer T)) (previous : layer_ptr)
    : result (list (FNNFullyConnectedLayer T)) :=
  match n with
  | O => Ok fcs
  | S n' =>
      size <- vec_at layers (i + 1) ;;
      l <- new_FNNFullyConnectedLayer inp fcs size previous ;;
      l <- random_init_values inp fcs l ;;
      FNN_build n' (i + 1) layers inp (fcs ++ [l]) (FullyPtr (Z.to_nat i))
  end.

(** [FNN<T>::FNN(std::vector<int> p_layers)] *)
Definition FNN_new (p_layers : list Z) : result (FNN T) :=
  let layers := p_layers in
  n0 <- vec_at p_layers 0 ;;
  let input := mkInputLayer n0 in
  let nb_fully_connected_layers := Z.of_nat (length p_layers) - 1 in
  fcs <- FNN_build (Z.to_nat nb_fully_connected_layers) 0 layers input [] InputPtr ;;
  Ok (mkFNN layers input nb_fully_connected_layers fcs).

End Construction.

(** ** Methods of a network

    A method of [FNN] runs on the object [this] and hands it back: it may read
    and write the members, and it may stop on a fault. *)

Definition method (T A : Type) : Type := FNN T → result (A * FNN T).

Definition method_ret {T A} (a : A) : method T A := fun this => Ok (a, this).

Definition method_bind {T A B} (c : method T A) (k : A → method T B) : method T B :=
  fun this =>
    match c this with
    | Ok (a, this') => k a this'
    | Fatal e => Fatal e
    end.

(** A computation that does not touch the object. *)
Definition lift {T A} (r : result A) : method T A :=
  fun this =>
    match r with
    | Ok a => Ok (a, this)
    | Fatal e => Fatal e
    end.

(** Reading a member of [this]. *)
Definition member {T A} (f : FNN T → A) : method T A := fun this => Ok (f this, this).

(** [fully_connected_layers[i]] dereferenced. *)
Definition get_fully_connected_layer {T} (i : Z) : method T (FNNFullyConnectedLayer T) :=
  fun this =>
    match vec_at (fully_connected_layers this) i with
    | Ok l => Ok (l, this)
    | Fatal e => Fatal e
    end.

(** [this] with the layer in slot [i] replaced. *)
Definition store_layer {T} (this : FNN T) (i : nat) (l : FNNFullyConnectedLayer T) : FNN T :=
  mkFNN (layers this) (input this) (nb_fully_connected_layers this)
        (<[i := l]> (fully_connected_layers this)).

(** A write to the weights, resp. the biases, of [fully_connected_layers[i]]
    through [get_weights()], resp. [get_biases()]. *)
Definition set_weights {T} (i : Z) (Wv : Matrix T) : method T unit :=
  fun this =>
    match vec_at (fully_connected_layers this) i with
    | Ok l =>
        Ok (tt, store_layer this (Z.to_nat i)
                  (mkFullyConnectedLayer (nb_nodes l) (previous_layer l) Wv (B l)))
    | Fatal e => Fatal e
    end.

Definition set_biases {T} (i : Z) (Bv : Matrix T) : method T unit :=
  fun this =>
    match vec_at (fully_connected_layers this) i with
    | Ok l =>
        Ok (tt, store_layer this (Z.to_nat i)
                  (mkFullyConnectedLayer (nb_nodes l) (previous_layer l) (W l) Bv))
    | Fatal e => Fatal e
    end.

Declare Scope method_scope.
Delimit Scope method_scope with method.
Notation "x <- c ;; k" := (method_bind c (fun x => k))
  (at level 100, c at next level, right associativity) : method_scope.

(** An entry of a vector of matrices some of which are released with
    [free()] while the vector is still in use. *)
Inductive slot (T : Type) : Type :=
  | Live (m : Matrix T)
  | Freed.
Arguments Live {T} m.
Arguments Freed {T}.

(** A read of [v[i]]. *)
Definition slot_read {T} (v : list (slot T)) (i : Z) : result (Matrix T) :=
  match vec_at v i with
  | Ok (Live m) => Ok m
  | Ok Freed => Fatal UseAfterFree
  | Fatal e => Fatal e
  end.

(** [v[i].free()] *)
Definition slot_free {T} (v : list (slot T)) (i : Z) : result (list (slot T)) :=
  match vec_at v i with
  | Ok (Live _) => vec_set v i Freed
  | Ok Freed => Fatal UseAfterFree
  | Fatal e => Fatal e
  end.

Section Inference.
Context {T : Type} `{Scalar T}.
Local Open Scope method_scope.

(** The loop of [feedforward_complete], with [n] iterations left; no
    activation is released here. *)
Fixpoint feedforward_complete_loop (n : nat) (i : Z) (activations : list (Matrix T))
    : method T (list (Matrix T)) :=
  match n with
  | O => method_ret activations
  | S n' =>
      layer <- get_fully_connected_layer i ;;
      let a := Matrix_copy (W layer) in
      ai <- lift (vec_at activations i) ;;
      a <- lift (Matrix_mul_assign a ai) ;;
      a <- lift (Matrix_add_assign a (B layer)) ;;
      let a := sigmoid a in
      let activations := activations ++ [a] in
      feedforward_complete_loop n' (i + 1) activations
  end.

(** [FNN<T>::feedforward_complete(Matrix<T>* X)] *)
Definition feedforward_complete (X : Matrix T) : method T (list (Matrix T)) :=
  let activations := [X] in
  nb <- member nb_fully_connected_layers ;;
  feedforward_complete_loop (Z.to_nat nb) 0 activations.

(** The loop of [feedforward], with [n] iterations left: as above, and
    [if(i>0) activations[i].free()]. *)
Fixpoint feedforward_loop (n : nat) (i : Z) (activations : list (slot T))
    : method T (list (slot T)) :=
  match n with
  | O => method_ret activations
  | S n' =>
      layer <- get_fully_connected_layer i ;;
      let a := Matrix_copy (W layer) in
      ai <- lift (slot_read activations i) ;;
      a <- lift (Matrix_mul_assign a ai) ;;
      a <- lift (Matrix_add_assign a (B layer)) ;;
      let a := sigmoid a in
      let activations := activations ++ [Live a] in
      activations <- (if 0 <? i then lift (slot_free activations i)
                      else method_ret activations) ;;
      feedforward_loop n' (i + 1) activations
  end.

(** [FNN<T>::feedforward(Matrix<T>* X)] *)
Definition feedforward (X : Matrix T) : method T (Matrix T) :=
  let activations := [Live X] in
  nb <- member nb_fully_connected_layers ;;
  activations <- feedforward_loop (Z.to_nat nb) 0 activations ;;
  lift (slot_read activations nb).

End Inference.

Section Training.
Context {T : Type} `{Scalar T}.
Local Open Scope method_scope.

(** [typedef std::pair<std::vector<Matrix<T>>, std::vector<Matrix<T>>>
    nabla_pair]: the weight gradients and the bias gradients, one of each
    per fully connected layer. *)
Definition nabla_pair : Type := list (Matrix T) * list (Matrix T).

(** The backward loop [for(int i=nb_fully_connected_layers-2 ; i>=0 ; i--)]
    of [backpropagation_cross_entropy]; [n] is [i+1], the number of
    iterations left.  [Wt.free()], [SP.free()] and [At.free()] release
    temporaries that are not used again and have no counterpart here;
    [activations[i+1].free()] releases an entry of a vector that is indexed
    again, and is kept. *)
Fixpoint backward_loop (n : nat) (activations : list (slot T)) (D : Matrix T)
    (nabla_CW nabla_CB : list (Matrix T)) : method T nabla_pair :=
  match n with
  | O => method_ret (nabla_CW, nabla_CB)
  | S n' =>
      let i := Z.of_nat n' in
      layer <- get_fully_connected_layer (i + 1) ;;
      let Wt := self_transpose (Matrix_copy (W layer)) in
      D <- lift (Matrix_mul Wt D) ;;
      A <- lift (slot_read activations (i + 1)) ;;
      let SP := fill sone (Matrix_new (get_I A) 1) in
      SP <- lift (Matrix_sub_assign SP A) ;;
      SP <- lift (element_wise_product SP A) ;;
      D <- lift (element_wise_product D SP) ;;
      Ai <- lift (slot_read activations i) ;;
      let At := self_transpose (Matrix_copy Ai) in
      let NCW := Matrix_copy D in
      NCW <- lift (Matrix_mul_assign NCW At) ;;
      nabla_CW <- lift (vec_set nabla_CW i NCW) ;;
      nabla_CB <- lift (vec_set nabla_CB i D) ;;
      activations <- lift (slot_free activations (i + 1)) ;;
      backward_loop n' activations D nabla_CW nabla_CB
  end.

(** [FNN<T>::backpropagation_cross_entropy(training_input, training_output)] *)
Definition backpropagation_cross_entropy (training_input training_output : Matrix T)
    : method T nabla_pair :=
  trace <- feedforward_complete training_input ;;
  let activations := map Live trace in
  nb <- member nb_fully_connected_layers ;;
  let nabla_CW := replicate (Z.to_nat nb) Matrix_default in
  let nabla_CB := replicate (Z.to_nat nb) Matrix_default in
  aL <- lift (slot_read activations nb) ;;
  let D := Matrix_copy aL in
  aL1 <- lift (slot_read activations (nb - 1)) ;;
  let At := Matrix_copy aL1 in
  D <- lift (Matrix_sub_assign D training_output) ;;
  let At := self_transpose At in
  let NCW := Matrix_copy D in
  NCW <- lift (Matrix_mul_assign NCW At) ;;
  nabla_CW <- lift (vec_set nabla_CW (nb - 1) NCW) ;;
  nabla_CB <- lift (vec_set nabla_CB (nb - 1) D) ;;
  activations <- lift (slot_free activations nb) ;;
  backward_loop (Z.to_nat (nb - 1)) activations D nabla_CW nabla_CB.

(** First loop of [SGD_batch]: one zero-filled matrix per layer and kind. *)
Fixpoint SGD_create_nablas (n : nat) (i : Z) (nabla_CW nabla_CB : list (Matrix T))
    : method T nabla_pair :=
  match n with
  | O => method_ret (nabla_CW, nabla_CB)
  | S n' =>
      sizes <- member layers ;;
      n1 <- lift (vec_at sizes (i + 1)) ;;
      n0 <- lift (vec_at sizes i) ;;
      let nabla_CW := nabla_CW ++ [fill szero (Matrix_new n1 n0)] in
      let nabla_CB := nabla_CB ++ [fill szero (Matrix_new n1 1)] in
      SGD_create_nablas n' (i + 1) nabla_CW nabla_CB
  end.

(** The inner loop over the layers [j] that adds the gradients of one
    example into the sums; the gradients are released right after
    ([delta_nabla.first[j].free()]) and not used again. *)
Fixpoint SGD_add_nablas (n : nat) (j : Z) (delta_nabla : nabla_pair)
    (nabla_CW nabla_CB : list (Matrix T)) : method T nabla_pair :=
  match n with
  | O => method_ret (nabla_CW, nabla_CB)
  | S n' =>
      cw <- lift (vec_at nabla_CW j) ;;
      dw <- lift (vec_at (fst delta_nabla) j) ;;
      cw <- lift (Matrix_add_assign cw dw) ;;
      nabla_CW <- lift (vec_set nabla_CW j cw) ;;
      cb <- lift (vec_at nabla_CB j) ;;
      db <- lift (vec_at (snd delta_nabla) j) ;;
      cb <- lift (Matrix_add_assign cb db) ;;
      nabla_CB <- lift (vec_set nabla_CB j cb) ;;
      SGD_add_nablas n' (j + 1) delta_nabla nabla_CW nabla_CB
  end.

(** Second loop of [SGD_batch]: "feedforward-backpropagation for each data
    in the batch and sum the nablas". *)
Fixpoint SGD_sum_nablas (n : nat) (i : Z) (batch_input batch_output : list (Matrix T))
    (nabla_CW nabla_CB : list (Matrix T)) : method T nabla_pair :=
  match n with
  | O => method_ret (nabla_CW, nabla_CB)
  | S n' =>
      x <- lift (vec_at batch_input i) ;;
      y <- lift (vec_at batch_output i) ;;
      delta_nabla <- backpropagation_cross_entropy x y ;;
      nb <- member nb_fully_connected_layers ;;
      sums <- SGD_add_nablas (Z.to_nat nb) 0 delta_nabla nabla_CW nabla_CB ;;
      SGD_sum_nablas n' (i + 1) batch_input batch_output (fst sums) (snd sums)
  end.

(** Third loop of [SGD_batch]: "update the parameters".  The scaled sums
    [nabla_CW[i]] and [nabla_CB[i]] are used once and released. *)
Fixpoint SGD_update (n : nat) (i : Z) (nabla_CW nabla_CB : list (Matrix T))
    (training_set_len batch_len : Z) (eta alpha : T) : method T unit :=
  match n with
  | O => method_ret tt
  | S n' =>
      cw <- lift (vec_at nabla_CW i) ;;
      let cw := Matrix_scale_assign cw (sdiv eta (of_int batch_len)) in
      cb <- lift (vec_at nabla_CB i) ;;
      let cb := Matrix_scale_assign cb (sdiv eta (of_int batch_len)) in
      layer <- get_fully_connected_layer i ;;
      _ <- set_weights i
             (Matrix_scale_assign (W layer)
                (ssub sone (sdiv (smul alpha eta) (of_int training_set_len)))) ;;
      layer <- get_fully_connected_layer i ;;
      Wv <- lift (Matrix_sub_assign (W layer) cw) ;;
      _ <- set_weights i Wv ;;
      layer <- get_fully_connected_layer i ;;
      Bv <- lift (Matrix_sub_assign (B layer) cb) ;;
      _ <- set_biases i Bv ;;
      SGD_update n' (i + 1) nabla_CW nabla_CB training_set_len batch_len eta alpha
  end.

(** The gradient-accumulation phase of [SGD_batch]: its first two loops. *)
Definition SGD_gradient_sums (batch_input batch_output : list (Matrix T)) (batch_len : Z)
    : method T nabla_pair :=
  nb <- member nb_fully_connected_layers ;;
  zeros <- SGD_create_nablas (Z.to_nat nb) 0 [] [] ;;
  SGD_sum_nablas (Z.to_nat batch_len) 0 batch_input batch_output (fst zeros) (snd zeros).

(** [FNN<T>::SGD_batch(batch_input, batch_output, training_set_len,
    batch_len, eta, alpha)] *)
Definition SGD_batch (batch_input batch_output : list (Matrix T))
    (training_set_len batch_len : Z) (eta alpha : T) : method T unit :=
  sums <- SGD_gradient_sums batch_input batch_output batch_len ;;
  nb <- member nb_fully_connected_layers ;;
  SGD_update (Z.to_nat nb) 0 (fst sums) (snd sums) training_set_len batch_len eta alpha.

End Training.
Arguments nabla_pair T : clear implicits.

(** ** Well-formed networks

    The spec's network invariant: "fully-connected layer k's weight matrix has
    shape (n(k+1) × nk) and bias matrix has shape (n(k+1) × 1)", the node
    counts are those of the size sequence, and there is one fully connected
    layer per size after the first. *)

Section Invariant.
Context {T : Type}.

Definition layer_okb (n_prev n : Z) (l : FNNFullyConnectedLayer T) : bool :=
  (get_nb_nodes l =? n) &&
  (get_I (W l) =? n) && (get_J (W l) =? n_prev) &&
  (get_I (B l) =? n) && (get_J (B l) =? 1).

Fixpoint chain_okb (n_prev : Z) (sizes : list Z) (fcs : list (FNNFullyConnectedLayer T))
    : bool :=
  match sizes, fcs with
  | [], [] => true
  | n :: sizes', l :: fcs' => layer_okb n_prev n l && chain_okb n sizes' fcs'
  | _, _ => false
  end.

Definition network_okb (net : FNN T) : bool :=
  (nb_fully_connected_layers net =? Z.of_nat (length (fully_connected_layers net))) &&
  match layers net with
  | [] => false
  | n0 :: sizes =>
      (get_nb_nodes (input net) =? n0) && chain_okb n0 sizes (fully_connected_layers net)
  end.

(** The node count of the last layer (of the input layer when there is no
    fully connected layer). *)
Definition output_nb_nodes (net : FNN T) : Z :=
  match last (fully_connected_layers net) with
  | Some l => get_nb_nodes l
  | None => get_nb_nodes (input net)
  end.

(** A column vector with [n] rows. *)
Definition is_column (n : Z) (m : Matrix T) : Prop := get_I m = n ∧ get_J m = 1.

End Invariant.

(** ** The quantities of the specification

    The values that the statements below speak about, written with the
    unchecked matrix arithmetic. *)

Section Specification.
Context {T : Type} `{Scalar T}.
Implicit Types (a X y D : Matrix T) (l : FNNFullyConnectedLayer T) (net : FNN T).

(** The activation of a layer from that of its predecessor:
    [sigmoid(W·a + B)]. *)
Definition layer_output l a : Matrix T := msigmoid (madd (mprod (W l) a) (B l)).

(** The activations of the layers [fcs] fed with [a]. *)
Fixpoint activations_from a (fcs : list (FNNFullyConnectedLayer T)) : list (Matrix T) :=
  match fcs with
  | [] => []
  | l :: fcs' => let a' := layer_output l a in a' :: activations_from a' fcs'
  end.

(** The activation of the last of the layers [fcs] fed with [a]. *)
Definition final_activation a (fcs : list (FNNFullyConnectedLayer T)) : Matrix T :=
  fold_left (fun a l => layer_output l a) fcs a.

(** The error of a layer from the error [D'] of its successor [l'], whose
    activation is [a']: the body of the backward loop up to [D], with the
    factors in the order in which the program multiplies them. *)
Definition backward_error (l' : FNNFullyConnectedLayer T) (a' D' : Matrix T) : Matrix T :=
  mhadamard (mprod (mtranspose (W l')) D')
            (mhadamard (msub (ones_like a') a') a').

(** What [backpropagation_cross_entropy] returns for the activations [A] and
    the expected output [y]. *)
Definition gradients_of net (A : list (Matrix T)) y
    (nabla_CW nabla_CB : list (Matrix T)) : Prop :=
  let L := length (fully_connected_layers net) in
  length nabla_CW = L ∧ length nabla_CB = L ∧
  (∃ aL, A !! L = Some aL ∧ nabla_CB !! (L - 1)%nat = Some (msub aL y)) ∧
  (∀ k, (S k < L)%nat → ∃ l' a' D',
      fully_connected_layers net !! S k = Some l' ∧ A !! S k = Some a' ∧
      nabla_CB !! S k = Some D' ∧
      nabla_CB !! k = Some (backward_error l' a' D')) ∧
  (∀ k, (k < L)%nat → ∃ a D,
      A !! k = Some a ∧ nabla_CB !! k = Some D ∧
      nabla_CW !! k = Some (mprod D (mtranspose a))).

(** One matrix per layer and kind, of the shapes of the weights and of the
    biases. *)
Definition gradient_shapes net (nabla_CW nabla_CB : list (Matrix T)) : Prop :=
  let L := length (fully_connected_layers net) in
  length nabla_CW = L ∧ length nabla_CB = L ∧
  ∀ k, (k < L)%nat → ∃ sp s gw gb,
    layers net !! k = Some sp ∧ layers net !! S k = Some s ∧
    nabla_CW !! k = Some gw ∧ nabla_CB !! k = Some gb ∧
    get_I gw = s ∧ get_J gw = sp ∧ get_I gb = s ∧ get_J gb = 1.

(** Gradient sums, layer by layer. *)
Definition add_nablas (sums delta : nabla_pair T) : nabla_pair T :=
  (zip_with madd sums.1 delta.1, zip_with madd sums.2 delta.2).

(** The zero-filled sums that [SGD_batch] starts from. *)
Definition zero_nablas (sizes : list Z) : nabla_pair T :=
  (map (fun k => fill szero (Matrix_new (nth (S k) sizes 0) (nth k sizes 0)))
       (seq 0 (length sizes - 1)),
   map (fun k => fill szero (Matrix_new (nth (S k) sizes 0) 1))
       (seq 0 (length sizes - 1))).

(** The layer [l] after the update with the gradient sums [gw] and [gb]. *)
Definition updated_layer l (gw gb : Matrix T) (training_set_len batch_len : Z)
    (eta alpha : T) : FNNFullyConnectedLayer T :=
  mkFullyConnectedLayer (nb_nodes l) (previous_layer l)
    (msub (mscale (W l) (ssub sone (sdiv (smul alpha eta) (of_int training_set_len))))
          (mscale gw (sdiv eta (of_int batch_len))))
    (msub (B l) (mscale gb (sdiv eta (of_int batch_len)))).

(** A valid training example for [net]. *)
Definition valid_example net (xy : Matrix T * Matrix T) : Prop :=
  is_column (get_nb_nodes (input net)) xy.1 ∧ is_column (output_nb_nodes net) xy.2.

(** The gradients of the examples of a batch, in order. *)
Definition batch_gradients (this : FNN T) (batch : list (Matrix T * Matrix T))
    (grads : list (nabla_pair T)) : Prop :=
  Forall2 (fun xy g => backpropagation_cross_entropy xy.1 xy.2 this = Ok (g, this) ∧
                       gradient_shapes this g.1 g.2) batch grads.

(** [x] has no more stored values than [z]. *)
Definition fits (x z : Matrix T) : Prop := (length (matrix x) ≤ length (matrix z))%nat.

(** The matrices of [Ss], position by position, fit those of [Zs]. *)
Definition below (Ss Zs : list (Matrix T)) : Prop :=
  ∀ k x, Ss !! k = Some x → ∃ z, Zs !! k = Some z ∧ fits x z.

(** All stored values of [z] are zero. *)
Definition is_zero (z : Matrix T) : Prop := Forall (fun v => v = szero) (matrix z).

End Specification.

(** A method that hands the object back as it found it whenever it returns. *)
Definition read_only {T A} (c : method T A) : Prop :=
  ∀ this a this', c this = Ok (a, this') → this' = this.

(** The result of construction, layer by layer. *)

Section ConstructionSpec.
Context {T : Type} `{Scalar T} `{RandomEngine T}.

(** The weights and biases that [random_init_values] gives to a layer of [n]
    nodes whose predecessor has [prev] nodes. *)
Definition initial_parameters (n prev : Z) : result (Matrix T * Matrix T) :=
  init_rows (Z.to_nat n) 0 (Matrix_new n prev) (Matrix_new n 1)
    (normal_distribution_new (of_int 0) (sdiv sone (ssqrt (of_int prev))))
    (normal_distribution_new (of_int 0) (of_int 1))
    default_random_engine.

(** The predecessor of the fully connected layer in slot [k]. *)
Definition layer_ptr_of (k : nat) : layer_ptr :=
  match k with
  | O => InputPtr
  | S k' => FullyPtr k'
  end.

(** The layer that the constructor puts in slot [k] for the sizes [sizes]. *)
Definition built_layer (sizes : list Z) (k : nat) (l : FNNFullyConnectedLayer T) : Prop :=
  ∃ prev n,
    sizes !! k = Some prev ∧ sizes !! S k = Some n ∧
    get_nb_nodes l = n ∧ previous_layer l = layer_ptr_of k ∧
    initial_parameters n prev = Ok (W l, B l).

End ConstructionSpec.

(** ** Real scalars

    The program runs on [float], [double] or [long double].  The theorems
    below are stated for every scalar type [T]; the real numbers serve to run
    them on examples, and no theorem takes them for the program's
    arithmetic. *)

Module RealScalars.

(** The spec's "real number domain": exact real arithmetic. *)
#[export] Instance R_scalar : Scalar R := {|
  szero := 0%R;
  sone := 1%R;
  sadd := Rplus;
  ssub := Rminus;
  smul := Rmult;
  sdiv := Rdiv;
  sneg := Ropp;
  sexp := exp;
  ssqrt := sqrt;
  of_int := IZR
|}.

(** A concrete engine to run the constructor on examples: the recurrence of
    [std::minstd_rand0] from the seed 1, and a distribution that only
    shifts and scales the engine's output (it stands in for the sampling
    algorithm of [std::normal_distribution], which is not modelled). *)
#[export] Instance example_engine : RandomEngine R := {|
  engine := Z;
  default_random_engine := 1;
  normal_distribution := R * R;
  normal_distribution_new := fun mean stddev => (mean, stddev);
  normal_sample := fun d g =>
    let g' := (16807 * g) mod 2147483647 in
    ((d.1 + d.2 * IZR g')%R, d, g')
|}.

(** A network with two inputs and one output node, an input and an expected
    output for it: the example on which the theorems are run. *)
Definition net21 : FNN R :=
  mkFNN [2; 1] (mkInputLayer 2) 1
    [mkFullyConnectedLayer 1 InputPtr (mkMatrix 1 2 [1%R; 2%R]) (mkMatrix 1 1 [0%R])].
Definition x21 : Matrix R := mkMatrix 2 1 [1%R; 0%R].
Definition y21 : Matrix R := mkMatrix 1 1 [1%R].

(** What the constructor returns for the single size [1], and an input for
    it. *)
Definition net1 : FNN R := mkFNN [1] (mkInputLayer 1) 0 [].
Definition x1 : Matrix R := mkMatrix 1 1 [2%R].

(** What the constructor returns for the sizes [2; 2; 2] with the example
    engine. *)
Definition net222 : FNN R :=
  Eval cbv in
    match FNN_new [2; 2; 2] with
    | Ok net => net
    | Fatal _ => net1
    end.

End RealScalars.

(** ** Floating-point scalars

    [FNN<double>]: the binary64 numbers of IEEE 754 with their correctly
    rounded operations (round to nearest, ties to even), which is what
    [double] arithmetic is on the usual targets. *)

Module Binary64.

(** The conversion of an [int] to [double]. *)
Definition float_of_int (z : Z) : PrimFloat.float :=
  match z with
  | Z0 => PrimFloat.of_uint63 (Uint63.of_Z 0)
  | Zpos _ => PrimFloat.of_uint63 (Uint63.of_Z z)
  | Zneg _ => PrimFloat.opp (PrimFloat.of_uint63 (Uint63.of_Z (- z)))
  end.

(** [std::exp] is not among the primitive operations on binary64 numbers.
    [float_exp] approximates it: the Taylor polynomial of degree 20 at
    [x/1024], squared ten times.  It is exact at [+0] and [-0], where the
    exponential is 1; elsewhere its last digits can differ from those of a
    given [std::exp], and no statement below depends on them. *)
Definition float_exp (x : PrimFloat.float) : PrimFloat.float :=
  let t := PrimFloat.div x (float_of_int 1024) in
  let p := fold_right
             (fun k s => PrimFloat.add (float_of_int 1)
                           (PrimFloat.mul (PrimFloat.div t (float_of_int (Z.of_nat k))) s))
             (float_of_int 1) (seq 1 20) in
  Nat.iter 10 (fun s => PrimFloat.mul s s) p.

#[export] Instance float_scalar : Scalar PrimFloat.float := {|
  szero := float_of_int 0;
  sone := float_of_int 1;
  sadd := PrimFloat.add;
  ssub := PrimFloat.sub;
  smul := PrimFloat.mul;
  sdiv := PrimFloat.div;
  sneg := PrimFloat.opp;
  sexp := float_exp;
  ssqrt := PrimFloat.sqrt;
  of_int := float_of_int
|}.

(** A network with one input and one output node whose weight and bias are
    0: its output is [1/(1+exp(-0))], one half, on every input. *)
Definition net11 : FNN PrimFloat.float :=
  mkFNN [1; 1] (mkInputLayer 1) 1
    [mkFullyConnectedLayer 1 InputPtr (mkMatrix 1 1 [float_of_int 0])
                           (mkMatrix 1 1 [float_of_int 0])].

(** An input for [net11], and four expected outputs: the errors
    [1/2 - y] of the four examples are 2^53, 0, 1 and 1. *)
Definition x11 : Matrix PrimFloat.float := mkMatrix 1 1 [float_of_int 0].
Definition one_half : PrimFloat.float := PrimFloat.div (float_of_int 1) (float_of_int 2).
Definition y11a : Matrix PrimFloat.float := mkMatrix 1 1 [float_of_int (- 2 ^ 53)].
Definition y11b : Matrix PrimFloat.float := mkMatrix 1 1 [one_half].
Definition y11c : Matrix PrimFloat.float := mkMatrix 1 1 [PrimFloat.opp one_half].

(** The same network with the bias [b]. *)
Definition net11_bias (b : Z) : FNN PrimFloat.float :=
  mkFNN [1; 1] (mkInputLayer 1) 1
    [mkFullyConnectedLayer 1 InputPtr (mkMatrix 1 1 [float_of_int 0])
                           (mkMatrix 1 1 [float_of_int b])].

End Binary64.

(** ** The data sets of [DigitScanner.hpp]

    [DigitScanner<T>::train] and [DigitScanner<T>::test] read the MNIST files
    through two [std::ifstream]s and turn every image and its label into a
    pair of column matrices.  The network that they drive ([ANN.hpp]) is not
    among the sources; the embedding covers what the two functions do
    themselves, with the network's [feedforward] as a parameter of [test] and
    [train] cut before the call of [ann->SGD]. *)

(** A [std::ifstream] opened in binary mode, as [read] sees it: the bytes
    that have not been extracted yet and whether the stream has failed (it
    has from the start when the file could not be opened).  Bytes are the
    values of [unsigned char], integers from 0 to 255. *)
Record ifstream : Type := mkIfstream {
  pending : list Z;
  failbit : bool
}.

(** [file.read(s, n)], with the array [s] that the pointer designates:
    a failed stream extracts nothing; otherwise the characters are stored in
    successive positions of [s] until [n] are stored or the end of the file
    is met, which sets the failure state.  A store beyond the end of the
    array has no defined result. *)
Definition ifstream_read (file : ifstream) (s : list Z) (n : Z)
    : result (list Z * ifstream) :=
  if failbit file then Ok (s, file)
  else
    let got := take (Z.to_nat n) (pending file) in
    if (length s <? length got)%nat then Fatal OutOfRange
    else Ok (got ++ drop (length got) s,
             mkIfstream (drop (Z.to_nat n) (pending file))
                        (length got <? Z.to_nat n)%nat).

(** [new unsigned char[n]]: an array of [n] bytes of indeterminate value,
    byte [k] being [indeterminate k]. *)
Definition new_unsigned_char (n : Z) (indeterminate : nat → Z) : list Z :=
  map indeterminate (seq 0 (Z.to_nat n)).

(** The two streams and the two buffers that [train] and [test] work on. *)
Record reader : Type := mkReader {
  file_images : ifstream;
  file_labels : ifstream;
  image : list Z;
  label : list Z
}.

Definition image_len : Z := 784.
Definition label_len : Z := 1.

Section Reader.
Local Open Scope result_scope.

(** [file_images.read(image, n)] *)
Definition read_image (rd : reader) (n : Z) : result reader :=
  r <- ifstream_read (file_images rd) (image rd) n ;;
  Ok (mkReader r.2 (file_labels rd) r.1 (label rd)).

(** [file_labels.read(label, n)] *)
Definition read_label (rd : reader) (n : Z) : result reader :=
  r <- ifstream_read (file_labels rd) (label rd) n ;;
  Ok (mkReader (file_images rd) r.2 (image rd) r.1).

(** The opening of [train] and of [test]: the two buffers are allocated and
    the headers of the two files are read into them, 16 bytes of the image
    file and 8 bytes of the label file. *)
Definition read_headers (images labels : ifstream)
    (indeterminate_image indeterminate_label : nat → Z) : result reader :=
  let image := new_unsigned_char image_len indeterminate_image in
  let label := new_unsigned_char label_len indeterminate_label in
  rd <- read_image (mkReader images labels image label) 16 ;;
  read_label rd 8.

(** The loop "offset" of [train] and of [test], with [n] iterations left. *)
Fixpoint skip_images (n : nat) (rd : reader) : result reader :=
  match n with
  | O => Ok rd
  | S n' =>
      rd <- read_image rd image_len ;;
      rd <- read_label rd label_len ;;
      skip_images n' rd
  end.

End Reader.

(** ** The order of the scalars

    [test] compares two outputs of the network with [>]. *)

Class ScalarOrder (T : Type) : Type := sgtb : T → T → bool.

(** The laws of [>] that individual theorems rely on; both hold of the
    floating-point comparison. *)
Definition sgtb_irreflexive `{ScalarOrder T} : Prop := ∀ a : T, sgtb a a = false.
Definition sgtb_transitive `{ScalarOrder T} : Prop :=
  ∀ a b c : T, sgtb a b = true → sgtb b c = true → sgtb a c = true.

Section DigitScanner.
Context {T : Type} `{Scalar T} `{ScalarOrder T}.
Local Open Scope result_scope.

(** Modelled from the spec: the read [m(i, j)] through [operator()] of the
    absent [Matrix.hpp], with the position checked as in [Matrix_set]. *)
Definition Matrix_get (m : Matrix T) (i j : Z) : result T :=
  vec_at (matrix m) (i * get_J m + j).

(** [for(int j=0 ; j<image_len ; j++) input->operator()(j, 0) =
    double(image[j])/256;] with [n] iterations left. *)
Fixpoint fill_input (n : nat) (j : Z) (image : list Z) (input : Matrix T)
    : result (Matrix T) :=
  match n with
  | O => Ok input
  | S n' =>
      b <- vec_at image j ;;
      input <- Matrix_set input j 0 (sdiv (of_int b) (of_int 256)) ;;
      fill_input n' (j + 1) image input
  end.

(** The loop "create the training set" of [train], with [n] iterations
    left. *)
Fixpoint create_training_set (n : nat) (rd : reader)
    (training_input training_output : list (Matrix T))
    : result (list (Matrix T) * list (Matrix T) * reader) :=
  match n with
  | O => Ok (training_input, training_output, rd)
  | S n' =>
      let input := Matrix_new image_len 1 in
      rd <- read_image rd image_len ;;
      input <- fill_input (Z.to_nat image_len) 0 (image rd) input ;;
      let training_input := training_input ++ [input] in
      let output := Matrix_new 10 1 in
      rd <- read_label rd label_len ;;
      l0 <- vec_at (label rd) 0 ;;
      output <- Matrix_set output l0 0 sone ;;
      let training_output := training_output ++ [output] in
      create_training_set n' rd training_input training_output
  end.

(** [v.reserve(n)] for an [int n]: a negative count is converted to a size
    beyond [max_size()], and the call throws [std::length_error], which
    nothing catches. *)
Definition reserve (n : Z) : result unit :=
  if n <? 0 then Fatal OutOfRange else Ok tt.

(** [DigitScanner<T>::train] up to the call of [ann->SGD]: the training
    inputs and the expected outputs that it hands to the network.  The two
    streams stand for the files of [path_data], as opened. *)
Definition train_training_set (images labels : ifstream)
    (indeterminate_image indeterminate_label : nat → Z)
    (nb_images nb_images_to_skip : Z) : result (list (Matrix T) * list (Matrix T)) :=
  rd <- read_headers images labels indeterminate_image indeterminate_label ;;
  rd <- skip_images (Z.to_nat nb_images_to_skip) rd ;;
  _ <- reserve nb_images ;;
  _ <- reserve nb_images ;;
  set <- create_training_set (Z.to_nat nb_images) rd [] [] ;;
  Ok (set.1.1, set.1.2).

(** [int kmax = 0; for(int k=0 ; k<10 ; k++) { if(y(k, 0)>y(kmax, 0)) kmax =
    k; }] with [n] iterations left. *)
Fixpoint test_kmax_loop (n : nat) (k kmax : Z) (y : Matrix T) : result Z :=
  match n with
  | O => Ok kmax
  | S n' =>
      yk <- Matrix_get y k 0 ;;
      ymax <- Matrix_get y kmax 0 ;;
      let kmax := if sgtb yk ymax then k else kmax in
      test_kmax_loop n' (k + 1) kmax y
  end.

Definition test_kmax (y : Matrix T) : result Z := test_kmax_loop 10 0 0 y.

(** The loop "compute the results" of [test], with [n] iterations left;
    [feedforward] is [ann->feedforward]. *)
Fixpoint test_loop (n : nat) (feedforward : Matrix T → result (Matrix T)) (rd : reader)
    (test_input : Matrix T) (right_guesses : Z) : result Z :=
  match n with
  | O => Ok right_guesses
  | S n' =>
      rd <- read_image rd image_len ;;
      test_input <- fill_input (Z.to_nat image_len) 0 (image rd) test_input ;;
      rd <- read_label rd label_len ;;
      y <- feedforward test_input ;;
      kmax <- test_kmax y ;;
      l0 <- vec_at (label rd) 0 ;;
      let right_guesses := if kmax =? l0 then right_guesses + 1 else right_guesses in
      test_loop n' feedforward rd test_input right_guesses
  end.

(** [DigitScanner<T>::test] up to the printing of the score: the number of
    right guesses. *)
Definition test (feedforward : Matrix T → result (Matrix T)) (images labels : ifstream)
    (indeterminate_image indeterminate_label : nat → Z)
    (nb_images nb_images_to_skip : Z) : result Z :=
  rd <- read_headers images labels indeterminate_image indeterminate_label ;;
  rd <- skip_images (Z.to_nat nb_images_to_skip) rd ;;
  let right_guesses := 0 in
  let test_input := Matrix_new image_len 1 in
  test_loop (Z.to_nat nb_images) feedforward rd test_input right_guesses.

(** The column that [train] and [test] make of the bytes of an image. *)
Definition scaled_image (image : list Z) : Matrix T :=
  mkMatrix image_len 1 (map (fun b => sdiv (of_int b) (of_int 256)) image).

(** The expected output that [train] makes of a label: a column of ten
    zeros but for a one in row [l]. *)
Definition one_hot (l : Z) : Matrix T :=
  mkMatrix 10 1 (<[Z.to_nat l := sone]> (replicate 10 szero)).

(** The first [n] outputs are comparable with one another: of two of them
    in the relation [>], any third one is below the greater or above the
    smaller.  It holds of floating-point numbers none of which is a NaN. *)
Definition outputs_comparable (y : Matrix T) (n : nat) : Prop :=
  ∀ i j k, (i < n)%nat → (j < n)%nat → (k < n)%nat →
    sgtb (cell y i) (cell y j) = true →
    sgtb (cell y i) (cell y k) = true ∨ sgtb (cell y k) (cell y j) = true.

(** The invariant of the loop of [test_kmax] among [n] outputs when the rows
    before [k] have been examined: none of their outputs is greater than
    [y(kmax, 0)], and, when the outputs are comparable, the outputs before row
    [kmax] are smaller than [y(kmax, 0)]. *)
Definition kmax_invariant (y : Matrix T) (n k kmax : nat) : Prop :=
  (∀ j, (j < k)%nat → sgtb (cell y j) (cell y kmax) = false) ∧
  (outputs_comparable y n →
   ∀ j, (j < kmax)%nat → sgtb (cell y kmax) (cell y j) = true).

End DigitScanner.

(** A stream from which nothing more can be extracted. *)
Definition exhausted (file : ifstream) : Prop := failbit file = true ∨ pending file = [].

(** ** The drawing window ([Window::motion])

    [motion] turns the position of the mouse into up to three calls of
    [dgs->scan(i, j, value)]; [DigitScanner::scan] is not among the sources,
    and the embedding returns the calls in the order in which they are made.
    The cell indices are exact: [static_cast<int>(y/cell_width)] is the
    quotient of [y] by 10 truncated toward zero, and [coeffy], the quotient of
    the integer [10*i - y + 5] by 5, is negative exactly when that integer is.
    The values passed to [scan] are kept in the scalar type. *)

Record scan_call (T : Type) : Type := mkScan {
  scan_i : Z;
  scan_j : Z;
  scan_value : T
}.
Arguments mkScan {T} _ _ _.
Arguments scan_i {T} _.
Arguments scan_j {T} _.
Arguments scan_value {T} _.

Section Window.
Context {T : Type} `{Scalar T}.

(** [Window::motion(int x, int y)] *)
Definition motion (x y : Z) : list (scan_call T) :=
  let cell_width := of_int 10 in
  let color := 255 in
  let offsety := -1 in
  let offsetx := -1 in
  let i := Z.quot y 10 in
  let j := Z.quot x 10 in
  let coeffy :=
    sdiv (sadd (ssub (smul (of_int i) cell_width) (of_int y)) (sdiv cell_width (of_int 2)))
         (sdiv cell_width (of_int 2)) in
  let coeffx :=
    sdiv (sadd (ssub (smul (of_int j) cell_width) (of_int x)) (sdiv cell_width (of_int 2)))
         (sdiv cell_width (of_int 2)) in
  let '(coeffy, offsety) :=
    if 10 * i - y + 5 <? 0 then (sneg coeffy, 1) else (coeffy, offsety) in
  let '(coeffx, offsetx) :=
    if 10 * j - x + 5 <? 0 then (sneg coeffx, 1) else (coeffx, offsetx) in
  let inside_window := negb ((i <? 0) || (27 <? i) || (j <? 0) || (27 <? j)) in
  if inside_window then
    [mkScan i j (ssub (of_int color) (smul (of_int 20) (sadd coeffy coeffx)))] ++
    (if (0 <? i) && (i <? 27)
     then [mkScan (i + offsety) j (smul (of_int 255) coeffy)] else []) ++
    (if (0 <? j) && (j <? 27)
     then [mkScan i (j + offsetx) (smul (of_int 255) coeffx)] else [])
  else [].

End Window.

(** ** Examples for the data sets and the window *)

Module DataExamples.
Import RealScalars Binary64.

(** The order of the real numbers. *)
#[export] Instance R_order : ScalarOrder R :=
  fun a b => if Rgt_dec a b then true else false.

(** The comparison [>] of binary64 numbers. *)
#[export] Instance float_order : ScalarOrder PrimFloat.float :=
  fun a b => PrimFloat.ltb b a.

(** Ten outputs of a network, the largest in rows 3 and 4. *)
Definition y10 : Matrix R :=
  mkMatrix 10 1 (map IZR [1; 2; 0; 5; 5; 3; 0; 1; 4; 2]).

(** An image of 784 bytes of value [b]. *)
Definition plain_image (b : Z) : list Z := replicate 784 b.

(** A reader past the headers whose files hold two images and their labels,
    7 and 2. *)
Definition two_images : reader :=
  mkReader (mkIfstream (plain_image 3 ++ plain_image 255) false)
           (mkIfstream [7; 2] false)
           (plain_image 0) [0].

(** A reader whose files hold one image and the label 12. *)
Definition bad_label : reader :=
  mkReader (mkIfstream (plain_image 3) false) (mkIfstream [12] false)
           (plain_image 0) [0].

(** A label file as [train] opens it: the eight bytes of the header, then
    the labels 7 and 2. *)
Definition labels_file : ifstream := mkIfstream [0; 0; 8; 1; 0; 0; 0; 2; 7; 2] false.

(** The scaled bytes are exact, and lie in the interval from 0 to 1 without
    1: the test on the byte [b]. *)
Definition scaled_byte_ok (b : Z) : bool :=
  let v := sdiv (of_int b) (of_int 256) in
  PrimFloat.leb (of_int 0) v && PrimFloat.ltb v (of_int 1) &&
  PrimFloat.eqb (PrimFloat.mul v (of_int 256)) (of_int b).

End DataExamples.

(** * Proofs *)

(** ** Basic facts about vectors and the method monad *)

Section VectorFacts.
Context {A : Type}.
Implicit Types (v : list A) (k : nat).

Lemma vec_at_lookup v k x : v !! k = Some x → vec_at v (Z.of_nat k) = Ok x.
Proof.
  intros Hk. unfold vec_at.
  destruct (Z.ltb_spec (Z.of_nat k) 0); [lia|].
  by rewrite Nat2Z.id, Hk.
Qed.

Lemma vec_at_inv v i x : vec_at v i = Ok x → 0 <= i ∧ v !! Z.to_nat i = Some x.
Proof.
  unfold vec_at. destruct (Z.ltb_spec i 0); [done|].
  destruct (v !! Z.to_nat i) eqn:E; [|done]. intros [= ->]. split; [lia|done].
Qed.

Lemma vec_set_lookup v k x :
  (k < length v)%nat → vec_set v (Z.of_nat k) x = Ok (<[k := x]> v).
Proof.
  intros Hk. unfold vec_set.
  destruct (Z.leb_spec 0 (Z.of_nat k)); [|lia].
  destruct (Z.ltb_spec (Z.of_nat k) (Z.of_nat (length v))); [|lia].
  by rewrite Nat2Z.id.
Qed.

Lemma vec_at_app_last v x : vec_at (v ++ [x]) (Z.of_nat (length v)) = Ok x.
Proof. apply vec_at_lookup. by rewrite lookup_app_r, Nat.sub_diag by lia. Qed.

Lemma vec_at_middle v x w : vec_at (v ++ x :: w) (Z.of_nat (length v)) = Ok x.
Proof. apply vec_at_lookup. by rewrite list_lookup_middle. Qed.

End VectorFacts.

Section MethodFacts.
Context {T : Type}.

Lemma bind_lift {A B} (r : result A) (a : A) (k : A → method T B) this :
  r = Ok a → method_bind (lift r) k this = k a this.
Proof. by intros ->. Qed.

Lemma bind_member {A B} (f : FNN T → A) (k : A → method T B) this :
  method_bind (member f) k this = k (f this) this.
Proof. done. Qed.

Lemma bind_ret {A B} (a : A) (k : A → method T B) this :
  method_bind (method_ret a) k this = k a this.
Proof. done. Qed.

Lemma bind_ok {A B} (c : method T A) (a : A) (k : A → method T B) this this' :
  c this = Ok (a, this') → method_bind c k this = k a this'.
Proof. unfold method_bind. by intros ->. Qed.

Lemma bind_get_layer {B} (i : nat) l (k : FNNFullyConnectedLayer T → method T B) this :
  fully_connected_layers this !! i = Some l →
  method_bind (get_fully_connected_layer (Z.of_nat i)) k this = k l this.
Proof.
  intros Hl. unfold method_bind, get_fully_connected_layer.
  by rewrite (vec_at_lookup _ _ _ Hl).
Qed.

End MethodFacts.

Section MatrixFacts.
Context {T : Type} `{Scalar T}.
Implicit Types a b : Matrix T.

Lemma same_shape_true a b :
  get_I a = get_I b → get_J a = get_J b → same_shape a b = true.
Proof. unfold same_shape. intros -> ->. by rewrite !Z.eqb_refl. Qed.

Lemma same_shape_inv a b :
  same_shape a b = true → get_I a = get_I b ∧ get_J a = get_J b.
Proof. unfold same_shape. intros [?%Z.eqb_eq ?%Z.eqb_eq]%andb_true_iff. done. Qed.

Lemma Matrix_mul_ok a b : get_J a = get_I b → Matrix_mul a b = Ok (mprod a b).
Proof. unfold Matrix_mul. intros ->. by rewrite Z.eqb_refl. Qed.

Lemma Matrix_mul_assign_ok a b :
  get_J a = get_I b → Matrix_mul_assign a b = Ok (mprod a b).
Proof. apply Matrix_mul_ok. Qed.

Lemma Matrix_add_assign_ok a b :
  get_I a = get_I b → get_J a = get_J b → Matrix_add_assign a b = Ok (madd a b).
Proof. intros. unfold Matrix_add_assign. by rewrite same_shape_true. Qed.

Lemma Matrix_sub_assign_ok a b :
  get_I a = get_I b → get_J a = get_J b → Matrix_sub_assign a b = Ok (msub a b).
Proof. intros. unfold Matrix_sub_assign. by rewrite same_shape_true. Qed.

Lemma element_wise_product_ok a b :
  get_I a = get_I b → get_J a = get_J b → element_wise_product a b = Ok (mhadamard a b).
Proof. intros. unfold element_wise_product. by rewrite same_shape_true. Qed.

Lemma layer_okb_spec n_prev n (l : FNNFullyConnectedLayer T) :
  layer_okb n_prev n l = true →
  get_nb_nodes l = n ∧ get_I (W l) = n ∧ get_J (W l) = n_prev ∧
  get_I (B l) = n ∧ get_J (B l) = 1.
Proof.
  unfold layer_okb. rewrite !andb_true_iff, !Z.eqb_eq. tauto.
Qed.

End MatrixFacts.

Section InferenceFacts.
Context {T : Type} `{Scalar T}.
Implicit Types (a X : Matrix T) (l : FNNFullyConnectedLayer T) (this net : FNN T).

Lemma layer_output_column n_prev n l a :
  layer_okb n_prev n l = true → is_column n_prev a → is_column n (layer_output l a).
Proof. intros (_ & HI & _)%layer_okb_spec [_ HJ]. by split. Qed.

Lemma activations_from_length a fcs : length (activations_from a fcs) = length fcs.
Proof. revert a. induction fcs; intros; simpl; auto. Qed.

Lemma activations_from_step fcs : ∀ X i l,
  fcs !! i = Some l →
  ∃ a, (X :: activations_from X fcs) !! i = Some a ∧
       (X :: activations_from X fcs) !! S i = Some (layer_output l a).
Proof.
  induction fcs as [|l0 fcs IH]; intros X i l Hl; [done|].
  destruct i as [|i]; simpl in *.
  - injection Hl as ->. by exists X.
  - apply IH. done.
Qed.

Lemma feedforward_complete_loop_spec rest : ∀ done front a n_prev sizes this,
  fully_connected_layers this = done ++ rest →
  length front = length done →
  is_column n_prev a →
  chain_okb n_prev sizes rest = true →
  feedforward_complete_loop (length rest) (Z.of_nat (length done)) (front ++ [a]) this
  = Ok ((front ++ [a]) ++ activations_from a rest, this).
Proof.
  induction rest as [|l rest IH]; intros done front a n_prev sizes this Hfcs Hlen [HaI HaJ] Hchain.
  - simpl. by rewrite app_nil_r.
  - destruct sizes as [|n sizes]; [done|].
    simpl in Hchain. apply andb_true_iff in Hchain as [Hl Hchain].
    pose proof (layer_output_column _ _ _ a Hl (conj HaI HaJ)) as Hcol.
    apply layer_okb_spec in Hl as (_ & HWI & HWJ & HBI & HBJ).
    cbn [length feedforward_complete_loop].
    rewrite (bind_get_layer _ l) by (by rewrite Hfcs, list_lookup_middle).
    rewrite (bind_lift _ a) by (rewrite <- Hlen; apply vec_at_app_last).
    rewrite (bind_lift _ (mprod (W l) a)) by (apply Matrix_mul_assign_ok; simpl; congruence).
    rewrite (bind_lift _ (madd (mprod (W l) a) (B l)))
      by (apply Matrix_add_assign_ok; simpl; congruence).
    replace (Z.of_nat (length done) + 1) with (Z.of_nat (length (done ++ [l])))
      by (rewrite length_app; simpl; lia).
    unfold sigmoid. fold (layer_output l a).
    rewrite (IH (done ++ [l]) (front ++ [a]) (layer_output l a) n sizes); try done.
    + by rewrite <- !app_assoc.
    + by rewrite <- app_assoc.
    + rewrite !length_app. simpl. lia.
Qed.

Lemma network_okb_spec net :
  network_okb net = true →
  nb_fully_connected_layers net = Z.of_nat (length (fully_connected_layers net)) ∧
  ∃ n0 sizes, layers net = n0 :: sizes ∧ get_nb_nodes (input net) = n0 ∧
              chain_okb n0 sizes (fully_connected_layers net) = true.
Proof.
  unfold network_okb. intros [Hnb Hl]%andb_true_iff.
  split; [by apply Z.eqb_eq|].
  destruct (layers net) as [|n0 sizes]; [done|].
  apply andb_true_iff in Hl as [Hn Hc]. exists n0, sizes. by rewrite Z.eqb_eq in Hn.
Qed.

Lemma feedforward_complete_spec net X :
  network_okb net = true →
  is_column (get_nb_nodes (input net)) X →
  feedforward_complete X net
  = Ok (X :: activations_from X (fully_connected_layers net), net).
Proof.
  intros (Hnb & n0 & sizes & Hsz & Hin & Hchain)%network_okb_spec HX.
  unfold feedforward_complete. rewrite bind_member, Hnb, Nat2Z.id.
  apply (feedforward_complete_loop_spec _ [] [] X n0 sizes); try done.
  by rewrite <- Hin.
Qed.

End InferenceFacts.

Section FeedforwardFacts.
Context {T : Type} `{Scalar T}.
Implicit Types (a X : Matrix T) (l : FNNFullyConnectedLayer T) (this net : FNN T).

Lemma final_activation_lookup fcs : ∀ X,
  (X :: activations_from X fcs) !! length fcs = Some (final_activation X fcs).
Proof. induction fcs as [|l fcs IH]; intros X; [done|]. simpl. apply IH. Qed.

Lemma slot_read_app_last (v : list (slot T)) a :
  slot_read (v ++ [Live a]) (Z.of_nat (length v)) = Ok a.
Proof. unfold slot_read. by rewrite vec_at_app_last. Qed.

Lemma slot_free_middle (v w : list (slot T)) a :
  slot_free (v ++ Live a :: w) (Z.of_nat (length v)) = Ok (v ++ Freed :: w).
Proof.
  unfold slot_free. rewrite vec_at_middle.
  rewrite vec_set_lookup by (rewrite length_app; simpl; lia).
  f_equal. replace (length v) with (length v + 0)%nat at 1 by lia.
  by rewrite insert_app_r.
Qed.

Lemma feedforward_loop_spec rest : ∀ done front a n_prev sizes this,
  fully_connected_layers this = done ++ rest →
  length front = length done →
  is_column n_prev a →
  chain_okb n_prev sizes rest = true →
  ∃ front',
    feedforward_loop (length rest) (Z.of_nat (length done)) (front ++ [Live a]) this
    = Ok (front' ++ [Live (final_activation a rest)], this) ∧
    length front' = (length done + length rest)%nat.
Proof.
  induction rest as [|l rest IH]; intros done front a n_prev sizes this Hfcs Hlen [HaI HaJ] Hchain.
  - exists front. split; [done|]. simpl. lia.
  - destruct sizes as [|n sizes]; [done|].
    simpl in Hchain. apply andb_true_iff in Hchain as [Hl Hchain].
    pose proof (layer_output_column _ _ _ a Hl (conj HaI HaJ)) as Hcol.
    apply layer_okb_spec in Hl as (_ & HWI & HWJ & HBI & HBJ).
    cbn [length feedforward_loop].
    rewrite (bind_get_layer _ l) by (by rewrite Hfcs, list_lookup_middle).
    rewrite (bind_lift _ a) by (rewrite <- Hlen; apply slot_read_app_last).
    rewrite (bind_lift _ (mprod (W l) a)) by (apply Matrix_mul_assign_ok; simpl; congruence).
    rewrite (bind_lift _ (madd (mprod (W l) a) (B l)))
      by (apply Matrix_add_assign_ok; simpl; congruence).
    unfold sigmoid. fold (layer_output l a).
    set (front2 := if 0 <? Z.of_nat (length done) then front ++ [Freed]
                   else front ++ [Live a]).
    assert (Hfree : (if 0 <? Z.of_nat (length done)
                     then lift (slot_free ((front ++ [Live a]) ++ [Live (layer_output l a)])
                                          (Z.of_nat (length done)))
                     else method_ret ((front ++ [Live a]) ++ [Live (layer_output l a)])) this
                    = Ok (front2 ++ [Live (layer_output l a)], this)).
    { subst front2. destruct (0 <? Z.of_nat (length done)); [|done].
      rewrite <- Hlen, <- app_assoc. simpl. rewrite slot_free_middle.
      simpl. by rewrite <- app_assoc. }
    rewrite (bind_ok _ _ _ _ _ Hfree).
    replace (Z.of_nat (length done) + 1) with (Z.of_nat (length (done ++ [l])))
      by (rewrite length_app; simpl; lia).
    destruct (IH (done ++ [l]) front2 (layer_output l a) n sizes this) as (front' & Hrun & Hlen');
      try done.
    + by rewrite <- app_assoc.
    + subst front2. destruct (0 <? _); rewrite !length_app; simpl; lia.
    + exists front'. split; [done|]. rewrite length_app in Hlen'. simpl in *. lia.
Qed.

Lemma feedforward_spec net X :
  network_okb net = true →
  is_column (get_nb_nodes (input net)) X →
  feedforward X net = Ok (final_activation X (fully_connected_layers net), net).
Proof.
  intros (Hnb & n0 & sizes & Hsz & Hin & Hchain)%network_okb_spec HX.
  unfold feedforward. rewrite bind_member, Hnb, Nat2Z.id.
  destruct (feedforward_loop_spec (fully_connected_layers net) [] [] X n0 sizes net)
    as (front' & Hrun & Hlen); try done.
  { by rewrite <- Hin. }
  simpl in Hrun, Hlen. rewrite (bind_ok _ _ _ _ _ Hrun).
  rewrite <- Hlen. unfold lift. by rewrite slot_read_app_last.
Qed.

End FeedforwardFacts.

Section BackwardFacts.
Context {T : Type} `{Scalar T}.
Implicit Types (a X D : Matrix T) (l : FNNFullyConnectedLayer T) (this net : FNN T).

Lemma slot_read_lookup (v : list (slot T)) k a :
  v !! k = Some (Live a) → slot_read v (Z.of_nat k) = Ok a.
Proof. intros Hk. unfold slot_read. by rewrite (vec_at_lookup _ _ _ Hk). Qed.

Lemma slot_free_lookup (v : list (slot T)) k a :
  v !! k = Some (Live a) → slot_free v (Z.of_nat k) = Ok (<[k := Freed]> v).
Proof.
  intros Hk. unfold slot_free. rewrite (vec_at_lookup _ _ _ Hk).
  apply vec_set_lookup. by eapply lookup_lt_Some.
Qed.

Section Loop.
Variables (this : FNN T) (sizes : list Z) (A : list (Matrix T)) (L : nat).
Hypothesis HL : length (fully_connected_layers this) = L.
Hypothesis HA : length A = S L.
Hypothesis Hlayers : ∀ j l, fully_connected_layers this !! j = Some l →
  ∃ sp s, sizes !! j = Some sp ∧ sizes !! S j = Some s ∧ layer_okb sp s l = true.
Hypothesis Htrace : ∀ j a, A !! j = Some a → ∃ s, sizes !! j = Some s ∧ is_column s a.

Lemma backward_loop_spec n : ∀ acts D cw cb,
  (n < L)%nat →
  (∀ j, (j ≤ n)%nat → acts !! j = Live <$> A !! j) →
  length cw = L → length cb = L →
  cb !! n = Some D →
  (∃ s, sizes !! S n = Some s ∧ is_column s D) →
  ∃ cw' cb',
    backward_loop n acts D cw cb this = Ok ((cw', cb'), this) ∧
    length cw' = L ∧ length cb' = L ∧
    (∀ j, (n ≤ j)%nat → cw' !! j = cw !! j ∧ cb' !! j = cb !! j) ∧
    (∀ j, (j < n)%nat → ∃ l' a' a D',
        fully_connected_layers this !! S j = Some l' ∧
        A !! S j = Some a' ∧ A !! j = Some a ∧
        cb' !! S j = Some D' ∧
        cb' !! j = Some (backward_error l' a' D') ∧
        cw' !! j = Some (mprod (backward_error l' a' D') (mtranspose a)) ∧
        ∃ s, sizes !! S j = Some s ∧ is_column s (backward_error l' a' D')).
Proof.
  induction n as [|i IH]; intros acts D cw cb Hn Hacts Hcw Hcb HD (s & Hs & HDI & HDJ).
  { exists cw, cb. repeat split; try done. intros j Hj. lia. }
  destruct (lookup_lt_is_Some_2 (fully_connected_layers this) (S i)) as [l' Hl']; [lia|].
  destruct (lookup_lt_is_Some_2 A (S i)) as [a' Ha']; [lia|].
  destruct (lookup_lt_is_Some_2 A i) as [a Ha]; [lia|].
  destruct (Hlayers _ _ Hl') as (sp & s' & Hsp & Hs' & Hok).
  apply layer_okb_spec in Hok as (_ & HWI & HWJ & _ & _).
  destruct (Htrace _ _ Ha') as (sa' & Hsa' & Ha'I & Ha'J).
  destruct (Htrace _ _ Ha) as (sa & Hsa & HaI & HaJ).
  assert (s' = s) as -> by congruence. assert (sa' = sp) as -> by congruence.
  cbn [backward_loop].
  replace (Z.of_nat i + 1) with (Z.of_nat (S i)) by lia.
  rewrite (bind_get_layer _ l') by done.
  rewrite (bind_lift _ (mprod (mtranspose (W l')) D))
    by (apply Matrix_mul_ok; simpl; congruence).
  rewrite (bind_lift _ a')
    by (apply slot_read_lookup; rewrite Hacts, Ha' by lia; done).
  rewrite (bind_lift _ (msub (ones_like a') a'))
    by (apply Matrix_sub_assign_ok; simpl; congruence).
  rewrite (bind_lift _ (mhadamard (msub (ones_like a') a') a'))
    by (apply element_wise_product_ok; simpl; congruence).
  rewrite (bind_lift _ (backward_error l' a' D))
    by (apply element_wise_product_ok; simpl; congruence).
  rewrite (bind_lift _ a)
    by (apply slot_read_lookup; rewrite Hacts, Ha by lia; done).
  rewrite (bind_lift _ (mprod (backward_error l' a' D) (mtranspose a)))
    by (apply Matrix_mul_assign_ok; simpl; congruence).
  rewrite (bind_lift _ (<[i := mprod (backward_error l' a' D) (mtranspose a)]> cw))
    by (apply vec_set_lookup; lia).
  rewrite (bind_lift _ (<[i := backward_error l' a' D]> cb))
    by (apply vec_set_lookup; lia).
  rewrite (bind_lift _ (<[S i := Freed]> acts))
    by (apply (slot_free_lookup _ _ a'); rewrite Hacts, Ha' by lia; done).
  destruct (IH (<[S i := Freed]> acts) (backward_error l' a' D)
               (<[i := mprod (backward_error l' a' D) (mtranspose a)]> cw)
               (<[i := backward_error l' a' D]> cb))
    as (cw' & cb' & Hrun & Hcw' & Hcb' & Hframe & Hpost).
  - lia.
  - intros j Hj. rewrite list_lookup_insert_ne by lia. apply Hacts. lia.
  - by rewrite length_insert.
  - by rewrite length_insert.
  - apply list_lookup_insert_eq. lia.
  - exists sp. split; [done|]. split; simpl; congruence.
  - exists cw', cb'. split; [done|]. split; [done|]. split; [done|]. split.
    + intros j Hj. destruct (Hframe j) as [-> ->]; [lia|].
      by rewrite !list_lookup_insert_ne by lia.
    + intros j Hj. destruct (decide (j = i)) as [->|Hne].
      * exists l', a', a, D. destruct (Hframe i) as [-> ->]; [lia|].
        destruct (Hframe (S i)) as [_ ->]; [lia|].
        rewrite !list_lookup_insert_eq by lia.
        rewrite list_lookup_insert_ne by lia.
        repeat split; try done. exists sp. repeat split; simpl; congruence.
      * apply Hpost. lia.
Qed.
End Loop.



Lemma chain_okb_length (fcs : list (FNNFullyConnectedLayer T)) : ∀ n0 sizes,
  chain_okb n0 sizes fcs = true → length sizes = length fcs.
Proof.
  induction fcs as [|l fcs IH]; intros n0 [|n sizes] Hc; try done.
  simpl in *. apply andb_true_iff in Hc as [_ Hc]. f_equal. eauto.
Qed.

Lemma chain_okb_lookup (fcs : list (FNNFullyConnectedLayer T)) : ∀ n0 sizes j l,
  chain_okb n0 sizes fcs = true → fcs !! j = Some l →
  ∃ sp s, (n0 :: sizes) !! j = Some sp ∧ (n0 :: sizes) !! S j = Some s ∧
          layer_okb sp s l = true.
Proof.
  induction fcs as [|l0 fcs IH]; intros n0 [|n sizes] j l Hc Hl; try done.
  simpl in Hc. apply andb_true_iff in Hc as [Hl0 Hc].
  destruct j as [|j]; simpl in Hl.
  - injection Hl as <-. by exists n0, n.
  - destruct (IH _ _ _ _ Hc Hl) as (sp & s & ? & ? & ?). by exists sp, s.
Qed.

Lemma trace_columns (fcs : list (FNNFullyConnectedLayer T)) : ∀ n0 sizes X j a,
  chain_okb n0 sizes fcs = true → is_column n0 X →
  (X :: activations_from X fcs) !! j = Some a →
  ∃ s, (n0 :: sizes) !! j = Some s ∧ is_column s a.
Proof.
  induction fcs as [|l0 fcs IH]; intros n0 [|n sizes] X j a Hc HX Ha; try done.
  - destruct j as [|[|j]]; try done. injection Ha as <-. by exists n0.
  - simpl in Hc. apply andb_true_iff in Hc as [Hl0 Hc].
    destruct j as [|j].
    + injection Ha as <-. by exists n0.
    + simpl in Ha. eapply (IH n sizes (layer_output l0 X) j a); try done.
      by eapply layer_output_column.
Qed.

Lemma output_nb_nodes_last n0 sizes (fcs : list (FNNFullyConnectedLayer T)) l :
  chain_okb n0 sizes fcs = true → last fcs = Some l →
  (n0 :: sizes) !! length fcs = Some (get_nb_nodes l).
Proof.
  intros Hc [fcs' ->]%last_Some.
  destruct (chain_okb_lookup _ _ _ (length fcs') l Hc) as (sp & s & _ & Hs & Hok).
  { by rewrite list_lookup_middle. }
  apply layer_okb_spec in Hok as (-> & _).
  rewrite length_app. simpl. by rewrite Nat.add_1_r.
Qed.

Lemma backpropagation_cross_entropy_spec net X y :
  network_okb net = true →
  1 <= nb_fully_connected_layers net →
  is_column (get_nb_nodes (input net)) X →
  is_column (output_nb_nodes net) y →
  ∃ nabla_CW nabla_CB,
    backpropagation_cross_entropy X y net = Ok ((nabla_CW, nabla_CB), net) ∧
    gradients_of net (X :: activations_from X (fully_connected_layers net)) y
                 nabla_CW nabla_CB ∧
    gradient_shapes net nabla_CW nabla_CB.
Proof.
  intros Hok HL1 HX Hy.
  pose proof Hok as (Hnb & n0 & sizes & Hsz & Hin & Hchain)%network_okb_spec.
  set (fcs := fully_connected_layers net) in *.
  set (A := X :: activations_from X fcs).
  destruct (length fcs) as [|L'] eqn:HL; [lia|].
  assert (HA : length A = S (S L')).
  { subst A. simpl. by rewrite activations_from_length, HL. }
  rewrite <- Hin in Hchain.
  assert (Htrace : ∀ j a, A !! j = Some a →
            ∃ s, (get_nb_nodes (input net) :: sizes) !! j = Some s ∧ is_column s a).
  { intros j a. by apply trace_columns. }
  assert (Hlayers : ∀ j l, fcs !! j = Some l → ∃ sp s,
            (get_nb_nodes (input net) :: sizes) !! j = Some sp ∧
            (get_nb_nodes (input net) :: sizes) !! S j = Some s ∧ layer_okb sp s l = true).
  { intros j l. by apply chain_okb_lookup. }
  destruct (lookup_lt_is_Some_2 A (S L')) as [aL HaL]; [lia|].
  destruct (lookup_lt_is_Some_2 A L') as [aL1 HaL1]; [lia|].
  destruct (lookup_lt_is_Some_2 fcs L') as [lL HlL]; [lia|].
  destruct (Htrace _ _ HaL) as (sL & HsL & HaLI & HaLJ).
  destruct (Htrace _ _ HaL1) as (sL1 & HsL1 & HaL1I & HaL1J).
  assert (Hlast : last fcs = Some lL).
  { rewrite last_lookup, HL. done. }
  assert (HyI : get_I y = sL ∧ get_J y = 1).
  { destruct Hy as [HyI HyJ]. unfold output_nb_nodes in HyI. fold fcs in HyI.
    rewrite Hlast in HyI. split; [|done].
    pose proof (output_nb_nodes_last _ _ _ _ Hchain Hlast) as Ho.
    rewrite HL in Ho. congruence. }
  destruct HyI as [HyI HyJ].
  unfold backpropagation_cross_entropy.
  rewrite (bind_ok _ _ _ _ _ (feedforward_complete_spec net X Hok HX)).
  fold fcs. fold A. rewrite bind_member, Hnb, Nat2Z.id.
  rewrite (bind_lift _ aL)
    by (apply slot_read_lookup; rewrite list_lookup_fmap, HaL; done).
  replace (Z.of_nat (S L') - 1) with (Z.of_nat L') by lia.
  rewrite (bind_lift _ aL1)
    by (apply slot_read_lookup; rewrite list_lookup_fmap, HaL1; done).
  rewrite (bind_lift _ (msub aL y)) by (apply Matrix_sub_assign_ok; simpl; congruence).
  rewrite (bind_lift _ (mprod (msub aL y) (mtranspose aL1)))
    by (apply Matrix_mul_assign_ok; simpl; congruence).
  rewrite (bind_lift _ (<[L' := mprod (msub aL y) (mtranspose aL1)]>
                          (replicate (S L') Matrix_default)))
    by (apply vec_set_lookup; rewrite length_replicate; lia).
  rewrite (bind_lift _ (<[L' := msub aL y]> (replicate (S L') Matrix_default)))
    by (apply vec_set_lookup; rewrite length_replicate; lia).
  rewrite (bind_lift _ (<[S L' := Freed]> (Live <$> A)))
    by (apply (slot_free_lookup _ _ aL); rewrite list_lookup_fmap, HaL; done).
  rewrite Nat2Z.id.
  destruct (backward_loop_spec net (get_nb_nodes (input net) :: sizes) A (S L')
              HL HA Hlayers Htrace L'
              (<[S L' := Freed]> (Live <$> A)) (msub aL y)
              (<[L' := mprod (msub aL y) (mtranspose aL1)]> (replicate (S L') Matrix_default))
              (<[L' := msub aL y]> (replicate (S L') Matrix_default)))
    as (cw' & cb' & Hrun & Hcw' & Hcb' & Hframe & Hpost).
  - lia.
  - intros j Hj. rewrite list_lookup_insert_ne by lia. by rewrite list_lookup_fmap.
  - by rewrite length_insert, length_replicate.
  - by rewrite length_insert, length_replicate.
  - apply list_lookup_insert_eq. rewrite length_replicate. lia.
  - exists sL. split; [done|]. split; done.
  - exists cw', cb'. split; [done|].
    assert (HcbL : cb' !! L' = Some (msub aL y)).
    { destruct (Hframe L') as [_ ->]; [lia|].
      apply list_lookup_insert_eq. rewrite length_replicate. lia. }
    assert (HcwL : cw' !! L' = Some (mprod (msub aL y) (mtranspose aL1))).
    { destruct (Hframe L') as [-> _]; [lia|].
      apply list_lookup_insert_eq. rewrite length_replicate. lia. }
    split.
    + unfold gradients_of. fold fcs. rewrite HL.
      split; [done|]. split; [done|]. split; [|split].
      * exists aL. split; [done|]. by rewrite Nat.sub_1_r.
      * intros k Hk. destruct (Hpost k) as (l' & a' & a & D' & ? & ? & ? & ? & ? & ? & _); [lia|].
        by exists l', a', D'.
      * intros k Hk. destruct (decide (k = L')) as [->|Hne].
        -- by exists aL1, (msub aL y).
        -- destruct (Hpost k) as (l' & a' & a & D' & ? & ? & ? & ? & ? & ? & _); [lia|].
           by exists a, (backward_error l' a' D').
    + unfold gradient_shapes. fold fcs. rewrite HL.
      split; [done|]. split; [done|].
      intros k Hk. rewrite Hsz, <- Hin.
      destruct (decide (k = L')) as [->|Hne].
      * exists sL1, sL, (mprod (msub aL y) (mtranspose aL1)), (msub aL y).
        repeat split; try done.
      * destruct (Hpost k) as (l' & a' & a & D' & ? & ? & Ha & ? & ? & ? & s & Hs & HsI & HsJ);
          [lia|].
        destruct (Htrace _ _ Ha) as (sa & Hsa & HaI & HaJ).
        exists sa, s, (mprod (backward_error l' a' D') (mtranspose a)), (backward_error l' a' D').
        repeat split; try done.
Qed.

End BackwardFacts.

(** ** Methods that only read *)

Section ReadOnly.
Context {T : Type} `{Scalar T}.

Lemma read_only_ret {A} (a : A) : read_only (T := T) (method_ret a).
Proof. intros this b this' [= _ <-]. done. Qed.

Lemma read_only_lift {A} (r : result A) : read_only (T := T) (lift r).
Proof. intros this b this'. unfold lift. destruct r; [|done]. by intros [= _ <-]. Qed.

Lemma read_only_member {A} (f : FNN T → A) : read_only (member f).
Proof. intros this b this' [= _ <-]. done. Qed.

Lemma read_only_get_layer (i : Z) : read_only (T := T) (get_fully_connected_layer i).
Proof.
intros this b this'. unfold get_fully_connected_layer.
destruct (vec_at _ _); [|done]. by intros [= _ <-].
Qed.

Lemma read_only_bind {A C} (c : method T A) (k : A → method T C) :
read_only c → (∀ a, read_only (k a)) → read_only (method_bind c k).
Proof.
intros Hc Hk this b this'. unfold method_bind.
destruct (c this) as [[a this1]|e] eqn:Hrun; [|done].
intros Hrun'. apply Hc in Hrun as ->. by apply Hk in Hrun'.
Qed.

Ltac read_only_step :=
first [ apply read_only_ret | apply read_only_lift | apply read_only_member
      | apply read_only_get_layer | apply read_only_bind; [|intros ?] ].

Lemma feedforward_complete_read_only (X : Matrix T) : read_only (feedforward_complete X).
Proof.
unfold feedforward_complete. apply read_only_bind; [apply read_only_member|]. intros nb.
generalize 0 [X]. induction (Z.to_nat nb) as [|n IH]; intros i activations; simpl.
- apply read_only_ret.
- repeat read_only_step. apply IH.
Qed.

Lemma feedforward_read_only (X : Matrix T) : read_only (feedforward X).
Proof.
unfold feedforward. apply read_only_bind; [apply read_only_member|]. intros nb.
apply read_only_bind; [|intros ?; apply read_only_lift].
generalize 0 [Live X]. induction (Z.to_nat nb) as [|n IH]; intros i activations; simpl.
- apply read_only_ret.
- repeat read_only_step; [destruct (0 <? i); read_only_step|apply IH].
Qed.

Lemma backpropagation_cross_entropy_read_only (x y : Matrix T) :
read_only (backpropagation_cross_entropy x y).
Proof.
unfold backpropagation_cross_entropy.
apply read_only_bind; [apply feedforward_complete_read_only|]. intros trace.
repeat read_only_step.
match goal with |- read_only (backward_loop ?m ?acts ?D ?cw ?cb) =>
  generalize acts D cw cb; generalize m end.
intros m. induction m as [|m IH]; intros acts D cw cb; simpl.
- apply read_only_ret.
- repeat read_only_step. apply IH.
Qed.

End ReadOnly.

Section SumFacts.
Context {T : Type} `{Scalar T}.
Implicit Types (a X y D : Matrix T) (l : FNNFullyConnectedLayer T) (this net : FNN T).
Implicit Types (cw cb dW dB : list (Matrix T)) (sums delta : nabla_pair T).

Lemma SGD_create_nablas_spec n : ∀ (i : nat) cw cb this,
  (i + n < length (layers this))%nat →
  SGD_create_nablas n (Z.of_nat i) cw cb this
  = Ok ((cw ++ map (fun k => fill szero (Matrix_new (nth (S k) (layers this) 0)
                                                     (nth k (layers this) 0))) (seq i n),
         cb ++ map (fun k => fill szero (Matrix_new (nth (S k) (layers this) 0) 1))
                   (seq i n)), this).
Proof.
  induction n as [|n IH]; intros i cw cb this Hi.
  - simpl. by rewrite !app_nil_r.
  - cbn [SGD_create_nablas]. rewrite bind_member.
    replace (Z.of_nat i + 1) with (Z.of_nat (S i)) by lia.
    rewrite (bind_lift _ (nth (S i) (layers this) 0)).
    2:{ apply vec_at_lookup. destruct (nth_lookup_or_length (layers this) (S i) 0); [done|lia]. }
    rewrite (bind_lift _ (nth i (layers this) 0)).
    2:{ apply vec_at_lookup. destruct (nth_lookup_or_length (layers this) i 0); [done|lia]. }
    rewrite IH by lia. simpl. by rewrite <- !app_assoc.
Qed.

Lemma SGD_add_nablas_loop restW : ∀ restB dW dB doneW doneB pW pB this,
  length doneW = length pW → length doneB = length pB → length doneW = length doneB →
  length restW = length restB →
  Forall2 (fun c d => same_shape c d = true) restW dW →
  Forall2 (fun c d => same_shape c d = true) restB dB →
  SGD_add_nablas (length restW) (Z.of_nat (length doneW)) (pW ++ dW, pB ++ dB)
                 (doneW ++ restW) (doneB ++ restB) this
  = Ok ((doneW ++ zip_with madd restW dW, doneB ++ zip_with madd restB dB), this).
Proof.
  induction restW as [|c restW IH];
    intros restB dW dB doneW doneB pW pB this HlW HlB Hl Hr HW HB.
  - destruct restB; [|done]. inversion HW. inversion HB. subst. simpl.
    by rewrite !app_nil_r.
  - destruct restB as [|c' restB]; [done|].
    inversion HW as [|? d ? dW' Hcd HW']. inversion HB as [|? d' ? dB' Hcd' HB']. subst.
    cbn [length SGD_add_nablas fst snd].
    rewrite (bind_lift _ c) by apply vec_at_middle.
    rewrite (bind_lift _ d) by (rewrite HlW; apply vec_at_middle).
    rewrite (bind_lift _ (madd c d)) by (unfold Matrix_add_assign; by rewrite Hcd).
    rewrite (bind_lift _ (doneW ++ madd c d :: restW)).
    2:{ rewrite vec_set_lookup by (rewrite length_app; simpl; lia).
        f_equal. replace (length doneW) with (length doneW + 0)%nat at 1 by lia.
        by rewrite insert_app_r. }
    rewrite (bind_lift _ c') by (rewrite Hl; apply vec_at_middle).
    rewrite (bind_lift _ d') by (rewrite Hl, HlB; apply vec_at_middle).
    rewrite (bind_lift _ (madd c' d')) by (unfold Matrix_add_assign; by rewrite Hcd').
    rewrite (bind_lift _ (doneB ++ madd c' d' :: restB)).
    2:{ rewrite Hl. rewrite vec_set_lookup by (rewrite length_app; simpl; lia).
        f_equal. replace (length doneB) with (length doneB + 0)%nat at 1 by lia.
        by rewrite insert_app_r. }
    replace (Z.of_nat (length doneW) + 1) with (Z.of_nat (length (doneW ++ [madd c d])))
      by (rewrite length_app; simpl; lia).
    specialize (IH restB dW' dB' (doneW ++ [madd c d]) (doneB ++ [madd c' d'])
                   (pW ++ [d]) (pB ++ [d']) this).
    rewrite <- !app_assoc in IH. simpl in IH. rewrite IH; try done.
    + rewrite !length_app. simpl. lia.
    + rewrite !length_app. simpl. lia.
    + rewrite !length_app. simpl. lia.
    + simpl in Hr. lia.
Qed.

Lemma gradient_shapes_same net cw cb dW dB :
  gradient_shapes net cw cb → gradient_shapes net dW dB →
  Forall2 (fun c d => same_shape c d = true) cw dW ∧
  Forall2 (fun c d => same_shape c d = true) cb dB.
Proof.
  intros (Hcw & Hcb & Hc) (HdW & HdB & Hd).
  split; apply Forall2_same_length_lookup_2; try congruence.
  - intros k c d Hkc Hkd.
    destruct (Hc k) as (sp & s & gw & gb & ? & ? & ? & ? & ? & ? & ? & ?).
    { rewrite <- Hcw. by eapply lookup_lt_Some. }
    destruct (Hd k) as (sp' & s' & gw' & gb' & ? & ? & ? & ? & ? & ? & ? & ?).
    { rewrite <- Hcw. by eapply lookup_lt_Some. }
    apply same_shape_true; congruence.
  - intros k c d Hkc Hkd.
    destruct (Hc k) as (sp & s & gw & gb & ? & ? & ? & ? & ? & ? & ? & ?).
    { rewrite <- Hcb. by eapply lookup_lt_Some. }
    destruct (Hd k) as (sp' & s' & gw' & gb' & ? & ? & ? & ? & ? & ? & ? & ?).
    { rewrite <- Hcb. by eapply lookup_lt_Some. }
    apply same_shape_true; congruence.
Qed.

Lemma gradient_shapes_add net sums delta :
  gradient_shapes net sums.1 sums.2 → gradient_shapes net delta.1 delta.2 →
  gradient_shapes net (add_nablas sums delta).1 (add_nablas sums delta).2.
Proof.
  intros (Hcw & Hcb & Hc) (HdW & HdB & Hd). unfold add_nablas. simpl.
  split; [rewrite length_zip_with; lia|]. split; [rewrite length_zip_with; lia|].
  intros k Hk.
  destruct (Hc k Hk) as (sp & s & gw & gb & ? & ? & Hgw & Hgb & ? & ? & ? & ?).
  destruct (Hd k Hk) as (sp' & s' & gw' & gb' & ? & ? & Hgw' & Hgb' & ? & ? & ? & ?).
  exists sp, s, (madd gw gw'), (madd gb gb').
  rewrite !lookup_zip_with, Hgw, Hgb, Hgw', Hgb'. simpl. done.
Qed.

Lemma SGD_add_nablas_spec this sums delta :
  gradient_shapes this sums.1 sums.2 → gradient_shapes this delta.1 delta.2 →
  SGD_add_nablas (length (fully_connected_layers this)) 0 delta sums.1 sums.2 this
  = Ok (add_nablas sums delta, this).
Proof.
  intros Hs Hd. destruct (gradient_shapes_same _ _ _ _ _ Hs Hd) as [HW HB].
  destruct Hs as (Hcw & Hcb & _). destruct sums as [cw cb], delta as [dW dB]. simpl in *.
  rewrite <- Hcw.
  apply (SGD_add_nablas_loop cw cb dW dB [] [] [] []); try done. congruence.
Qed.

Lemma zero_nablas_shapes net :
  network_okb net = true →
  gradient_shapes net (zero_nablas (layers net)).1 (zero_nablas (layers net)).2.
Proof.
  intros (Hnb & n0 & sizes & Hsz & Hin & Hchain)%network_okb_spec.
  pose proof (chain_okb_length _ _ _ Hchain) as Hlen.
  unfold gradient_shapes, zero_nablas. rewrite Hsz. cbn [fst snd length].
  rewrite Nat.sub_1_r. simpl Nat.pred. rewrite !length_map, !length_seq.
  split; [done|]. split; [done|]. intros k Hk.
  destruct (lookup_lt_is_Some_2 (n0 :: sizes) k) as [sp Hsp]; [simpl; lia|].
  destruct (lookup_lt_is_Some_2 (n0 :: sizes) (S k)) as [s Hs]; [simpl; lia|].
  exists sp, s. eexists. eexists.
  split; [done|]. split; [done|].
  rewrite !list_lookup_fmap, !lookup_seq_lt by lia.
  split; [reflexivity|]. split; [reflexivity|].
  cbn [get_I get_J fill Matrix_new Nat.add].
  rewrite (nth_lookup_Some _ _ _ _ Hsp).
  rewrite (nth_lookup_Some (n0 :: sizes) (S k) 0 s Hs). done.
Qed.

Lemma SGD_sum_nablas_spec this xs : ∀ ys pre_i pre_o sums,
  network_okb this = true →
  1 <= nb_fully_connected_layers this →
  length xs = length ys → length pre_i = length pre_o →
  Forall (valid_example this) (zip xs ys) →
  gradient_shapes this sums.1 sums.2 →
  ∃ grads,
    batch_gradients this (zip xs ys) grads ∧
    SGD_sum_nablas (length xs) (Z.of_nat (length pre_i)) (pre_i ++ xs) (pre_o ++ ys)
                   sums.1 sums.2 this
    = Ok (fold_left add_nablas grads sums, this).
Proof.
  induction xs as [|x xs IH]; intros ys pre_i pre_o sums Hok HL Hlen Hpre Hval Hs.
  - exists []. split; [constructor|]. simpl. by destruct sums.
  - destruct ys as [|y ys]; [done|]. simpl in Hval. inversion Hval as [|? ? [Hx Hy] Hval']. subst.
    destruct (backpropagation_cross_entropy_spec this x y Hok HL Hx Hy)
      as (dW & dB & Hrun & _ & Hshape).
    pose proof (gradient_shapes_add this sums (dW, dB) Hs Hshape) as Hs'.
    destruct (IH ys (pre_i ++ [x]) (pre_o ++ [y]) (add_nablas sums (dW, dB)))
      as (grads & Hgrads & Hloop); try done.
    { simpl in Hlen. lia. }
    { rewrite !length_app. simpl. lia. }
    exists ((dW, dB) :: grads). split.
    { constructor; [|done]. done. }
    cbn [length SGD_sum_nablas].
    rewrite (bind_lift _ x) by apply vec_at_middle.
    rewrite (bind_lift _ y) by (rewrite Hpre; apply vec_at_middle).
    rewrite (bind_ok _ _ _ _ _ Hrun). rewrite bind_member.
    pose proof Hok as (Hnb & _)%network_okb_spec. rewrite Hnb, Nat2Z.id.
    rewrite (bind_ok _ _ _ _ _ (SGD_add_nablas_spec this sums (dW, dB) Hs Hshape)).
    replace (Z.of_nat (length pre_i) + 1) with (Z.of_nat (length (pre_i ++ [x])))
      by (rewrite length_app; simpl; lia).
    rewrite <- !app_assoc in Hloop. cbn [app] in Hloop. rewrite Hloop. done.
Qed.

Lemma SGD_gradient_sums_spec this xs ys :
  network_okb this = true →
  1 <= nb_fully_connected_layers this →
  length xs = length ys →
  Forall (valid_example this) (zip xs ys) →
  ∃ grads,
    batch_gradients this (zip xs ys) grads ∧
    SGD_gradient_sums xs ys (Z.of_nat (length xs)) this
    = Ok (fold_left add_nablas grads (zero_nablas (layers this)), this).
Proof.
  intros Hok HL Hlen Hval.
  pose proof Hok as (Hnb & n0 & sizes & Hsz & Hin & Hchain)%network_okb_spec.
  pose proof (chain_okb_length _ _ _ Hchain) as Hlen'.
  destruct (SGD_sum_nablas_spec this xs ys [] [] (zero_nablas (layers this)))
    as (grads & Hgrads & Hloop); try done.
  { by apply zero_nablas_shapes. }
  exists grads. split; [done|].
  unfold SGD_gradient_sums. rewrite bind_member, Hnb, !Nat2Z.id.
  assert (Hfit : (0 + length (fully_connected_layers this) < length (layers this))%nat)
    by (rewrite Hsz; simpl; lia).
  rewrite (bind_ok _ _ _ _ _ (SGD_create_nablas_spec _ 0 [] [] this Hfit)).
  simpl in Hloop. simpl app.
  replace (length (fully_connected_layers this))
    with (length (layers this) - 1)%nat by (rewrite Hsz; simpl; lia).
  exact Hloop.
Qed.

End SumFacts.

Section UpdateFacts.
Context {T : Type} `{Scalar T}.
Implicit Types (a X y D : Matrix T) (l : FNNFullyConnectedLayer T) (this net : FNN T).
Implicit Types (cw cb dW dB : list (Matrix T)) (sums delta : nabla_pair T).

Lemma bind_set_weights {C} (i : nat) l Wv (k : unit → method T C) this :
  fully_connected_layers this !! i = Some l →
  method_bind (set_weights (Z.of_nat i) Wv) k this
  = k tt (store_layer this i (mkFullyConnectedLayer (nb_nodes l) (previous_layer l) Wv
                                                    (B l))).
Proof.
  intros Hl. unfold method_bind, set_weights.
  by rewrite (vec_at_lookup _ _ _ Hl), Nat2Z.id.
Qed.

Lemma bind_set_biases {C} (i : nat) l Bv (k : unit → method T C) this :
  fully_connected_layers this !! i = Some l →
  method_bind (set_biases (Z.of_nat i) Bv) k this
  = k tt (store_layer this i (mkFullyConnectedLayer (nb_nodes l) (previous_layer l) (W l)
                                                    Bv)).
Proof.
  intros Hl. unfold method_bind, set_biases.
  by rewrite (vec_at_lookup _ _ _ Hl), Nat2Z.id.
Qed.

Lemma SGD_update_spec cw cb training_set_len batch_len eta alpha n : ∀ (i : nat) this,
  (i + n = length (fully_connected_layers this))%nat →
  (∀ k l, (i ≤ k)%nat → fully_connected_layers this !! k = Some l →
     ∃ gw gb, cw !! k = Some gw ∧ cb !! k = Some gb ∧
              same_shape (W l) gw = true ∧ same_shape (B l) gb = true) →
  ∃ this',
    SGD_update n (Z.of_nat i) cw cb training_set_len batch_len eta alpha this
    = Ok (tt, this') ∧
    layers this' = layers this ∧ input this' = input this ∧
    nb_fully_connected_layers this' = nb_fully_connected_layers this ∧
    length (fully_connected_layers this') = length (fully_connected_layers this) ∧
    (∀ k, (k < i)%nat → fully_connected_layers this' !! k = fully_connected_layers this !! k) ∧
    (∀ k l, (i ≤ k)%nat → fully_connected_layers this !! k = Some l →
       ∃ gw gb, cw !! k = Some gw ∧ cb !! k = Some gb ∧
                fully_connected_layers this' !! k
                = Some (updated_layer l gw gb training_set_len batch_len eta alpha)).
Proof.
  induction n as [|n IH]; intros i this Hn Hsh.
  { exists this. repeat split; try done.
    intros k l Hk Hl. apply lookup_lt_Some in Hl. lia. }
  destruct (lookup_lt_is_Some_2 (fully_connected_layers this) i) as [l Hl]; [lia|].
  destruct (Hsh i l) as (gw & gb & Hgw & Hgb & HsW & HsB); [lia|done|].
  apply same_shape_inv in HsW as [HWI HWJ]. apply same_shape_inv in HsB as [HBI HBJ].
  cbn [SGD_update].
  rewrite (bind_lift _ gw) by (by apply vec_at_lookup).
  rewrite (bind_lift _ gb) by (by apply vec_at_lookup).
  rewrite (bind_get_layer _ l) by done.
  rewrite (bind_set_weights _ l) by done.
  set (c1 := ssub sone (sdiv (smul alpha eta) (of_int training_set_len))).
  set (c2 := sdiv eta (of_int batch_len)).
  set (la := mkFullyConnectedLayer (nb_nodes l) (previous_layer l)
               (Matrix_scale_assign (W l) c1) (B l)).
  assert (Hla : fully_connected_layers (store_layer this i la) !! i = Some la).
  { simpl. apply list_lookup_insert_eq. by eapply lookup_lt_Some. }
  rewrite (bind_get_layer _ la) by done.
  rewrite (bind_lift _ (msub (mscale (W l) c1) (mscale gw c2)))
    by (apply Matrix_sub_assign_ok; simpl; congruence).
  rewrite (bind_set_weights _ la) by done.
  set (lb := mkFullyConnectedLayer (nb_nodes la) (previous_layer la)
               (msub (mscale (W l) c1) (mscale gw c2)) (B la)).
  assert (Hlb : fully_connected_layers (store_layer (store_layer this i la) i lb) !! i
                = Some lb).
  { simpl. apply list_lookup_insert_eq. rewrite length_insert. by eapply lookup_lt_Some. }
  rewrite (bind_get_layer _ lb) by done.
  rewrite (bind_lift _ (msub (B l) (mscale gb c2)))
    by (apply Matrix_sub_assign_ok; simpl; congruence).
  rewrite (bind_set_biases _ lb) by done.
  change (mkFullyConnectedLayer (nb_nodes lb) (previous_layer lb) (W lb)
            (msub (B l) (mscale gb c2)))
    with (updated_layer l gw gb training_set_len batch_len eta alpha).
  set (u := updated_layer l gw gb training_set_len batch_len eta alpha).
  set (this3 := store_layer (store_layer (store_layer this i la) i lb) i u).
  assert (Hlen3 : length (fully_connected_layers this3) = length (fully_connected_layers this)).
  { subst this3. simpl. by rewrite !length_insert. }
  assert (Hne3 : ∀ k, k ≠ i →
            fully_connected_layers this3 !! k = fully_connected_layers this !! k).
  { intros k Hk. subst this3. simpl. by rewrite !list_lookup_insert_ne. }
  assert (Heq3 : fully_connected_layers this3 !! i = Some u).
  { subst this3. simpl. apply list_lookup_insert_eq. rewrite !length_insert.
    by eapply lookup_lt_Some. }
  replace (Z.of_nat i + 1) with (Z.of_nat (S i)) by lia.
  destruct (IH (S i) this3) as (this' & Hrun & Hlay & Hinp & Hnb & Hlen' & Hlow & Hup).
  - lia.
  - intros k l' Hk Hl'. rewrite Hne3 in Hl' by lia. apply Hsh; [lia|done].
  - exists this'. split; [done|]. split; [done|]. split; [done|]. split; [done|].
    split; [lia|]. split.
    + intros k Hk. rewrite Hlow by lia. apply Hne3. lia.
    + intros k l' Hk Hl'. destruct (decide (k = i)) as [->|Hne].
      * assert (l' = l) as -> by congruence.
        exists gw, gb. split; [done|]. split; [done|]. rewrite Hlow by lia. done.
      * apply Hup; [lia|]. rewrite Hne3 by done. done.
Qed.

Lemma batch_gradients_shapes this batch grads sums :
  batch_gradients this batch grads →
  gradient_shapes this sums.1 sums.2 →
  gradient_shapes this (fold_left add_nablas grads sums).1
                       (fold_left add_nablas grads sums).2.
Proof.
  intros Hg. revert sums. induction Hg as [|xy g batch grads [_ Hs] _ IH]; intros sums Hsums.
  - done.
  - simpl. apply IH. by apply gradient_shapes_add.
Qed.

Lemma SGD_batch_spec this xs ys training_set_len eta alpha :
  network_okb this = true →
  1 <= nb_fully_connected_layers this →
  length xs = length ys →
  Forall (valid_example this) (zip xs ys) →
  ∃ grads this',
    batch_gradients this (zip xs ys) grads ∧
    SGD_batch xs ys training_set_len (Z.of_nat (length xs)) eta alpha this = Ok (tt, this') ∧
    layers this' = layers this ∧ input this' = input this ∧
    nb_fully_connected_layers this' = nb_fully_connected_layers this ∧
    length (fully_connected_layers this') = length (fully_connected_layers this) ∧
    ∀ k l, fully_connected_layers this !! k = Some l →
      ∃ gw gb,
        (fold_left add_nablas grads (zero_nablas (layers this))).1 !! k = Some gw ∧
        (fold_left add_nablas grads (zero_nablas (layers this))).2 !! k = Some gb ∧
        fully_connected_layers this' !! k
        = Some (updated_layer l gw gb training_set_len (Z.of_nat (length xs)) eta alpha).
Proof.
  intros Hok HL Hlen Hval.
  destruct (SGD_gradient_sums_spec this xs ys Hok HL Hlen Hval) as (grads & Hgrads & Hsums).
  pose proof (batch_gradients_shapes _ _ _ _ Hgrads (zero_nablas_shapes _ Hok))
    as (HlW & HlB & Hshape).
  pose proof Hok as (Hnb & n0 & sizes & Hsz & Hin & Hchain)%network_okb_spec.
  set (sums := fold_left add_nablas grads (zero_nablas (layers this))) in *.
  destruct (SGD_update_spec sums.1 sums.2 training_set_len (Z.of_nat (length xs)) eta alpha
              (length (fully_connected_layers this)) 0 this)
    as (this' & Hrun & Hlay & Hinp & Hnb' & Hlen' & _ & Hup).
  - done.
  - intros k l _ Hl.
    destruct (Hshape k) as (sp & s & gw & gb & Hsp & Hs & Hgw & Hgb & ? & ? & ? & ?).
    { by eapply lookup_lt_Some. }
    destruct (chain_okb_lookup _ _ _ _ _ Hchain Hl) as (sp' & s' & Hsp' & Hs' & Hlok).
    apply layer_okb_spec in Hlok as (_ & ? & ? & ? & ?).
    rewrite Hsz in Hsp, Hs.
    exists gw, gb. split; [done|]. split; [done|].
    split; apply same_shape_true; congruence.
  - exists grads, this'. split; [done|].
    split.
    { unfold SGD_batch. rewrite (bind_ok _ _ _ _ _ Hsums), bind_member, Hnb, Nat2Z.id.
      exact Hrun. }
    repeat (split; [done|]).
    intros k l Hl. apply Hup; [lia|done].
Qed.

End UpdateFacts.

Section SumAlgebra.
Context {T : Type} `{Scalar T}.
Implicit Types (a b c x z : Matrix T) (this net : FNN T).
Implicit Types (sums delta : nabla_pair T).

Lemma below_refl (Ss : list (Matrix T)) : below Ss Ss.
Proof. intros k x Hx. exists x. split; [done|]. unfold fits. lia. Qed.

Lemma below_add (Ss G Zs : list (Matrix T)) : below Ss Zs → below (zip_with madd Ss G) Zs.
Proof.
  intros HS k x Hx. apply lookup_zip_with_Some in Hx as (s & g & -> & Hs & Hg).
  destruct (HS k s Hs) as (z & Hz & Hfit). exists z. split; [done|].
  unfold fits in *. simpl. rewrite length_zip_with. lia.
Qed.

Lemma below_fold grads : ∀ sums Zs,
  below sums.1 Zs.1 → below sums.2 Zs.2 →
  below (fold_left add_nablas grads sums).1 Zs.1 ∧
  below (fold_left add_nablas grads sums).2 Zs.2.
Proof.
  induction grads as [|g grads IH]; intros sums Zs H1 H2; [done|].
  simpl. apply IH; simpl; by apply below_add.
Qed.

Lemma zero_nablas_zero (sizes : list Z) :
  Forall is_zero (zero_nablas sizes).1 ∧ Forall is_zero (zero_nablas sizes).2.
Proof.
  unfold zero_nablas. simpl. split; apply Forall_fmap, Forall_forall; intros k _;
    unfold is_zero; simpl; apply Forall_fmap, Forall_forall; done.
Qed.

Section Laws.
Hypothesis Hassoc : sadd_associative.
Hypothesis Hid : sadd_right_identity.

Lemma zip_with_sadd_assoc (u v w : list T) :
  zip_with sadd (zip_with sadd u v) w = zip_with sadd u (zip_with sadd v w).
Proof.
  revert v w. induction u as [|p u IH]; intros [|q v] [|r w]; simpl; try done.
  by rewrite Hassoc, IH.
Qed.

Lemma madd_assoc a b c : madd (madd a b) c = madd a (madd b c).
Proof. unfold madd. simpl. by rewrite zip_with_sadd_assoc. Qed.

Lemma add_nablas_assoc sums delta e :
  add_nablas (add_nablas sums delta) e = add_nablas sums (add_nablas delta e).
Proof.
  assert (Hl : ∀ u v w : list (Matrix T),
             zip_with madd (zip_with madd u v) w = zip_with madd u (zip_with madd v w)).
  { induction u as [|p u IH]; intros [|q v] [|r w]; simpl; try done.
    by rewrite madd_assoc, IH. }
  unfold add_nablas. simpl. by rewrite !Hl.
Qed.

Lemma fold_add_nablas grads : ∀ sums delta,
  fold_left add_nablas grads (add_nablas sums delta)
  = add_nablas sums (fold_left add_nablas grads delta).
Proof.
  induction grads as [|g grads IH]; intros sums delta; [done|].
  simpl. by rewrite add_nablas_assoc, IH.
Qed.

Lemma zip_with_sadd_zero (u v : list T) :
  (length u ≤ length v)%nat → Forall (fun t => t = szero) v → zip_with sadd u v = u.
Proof.
  revert v. induction u as [|p u IH]; intros [|q v] Hlen Hv; simpl in *; try done; [lia|].
  inversion Hv; subst. rewrite Hid, IH; [done|lia|done].
Qed.

Lemma madd_zero_r x z : fits x z → is_zero z → madd x z = x.
Proof.
  intros Hfit Hz. destruct x as [I J d]. unfold madd. simpl.
  f_equal. by apply zip_with_sadd_zero.
Qed.

Lemma zip_with_madd_zero (Ss Zs : list (Matrix T)) :
  below Ss Zs → Forall is_zero Zs → zip_with madd Ss Zs = Ss.
Proof.
  revert Zs. induction Ss as [|x Ss IH]; intros Zs Hb Hz; [done|].
  destruct (Hb 0%nat x) as (z & Hz0 & Hfit); [done|].
  destruct Zs as [|z' Zs]; [done|]. injection Hz0 as ->.
  inversion Hz; subst. simpl. rewrite madd_zero_r by done. f_equal.
  apply IH; [|done]. intros k y Hy. apply (Hb (S k) y Hy).
Qed.

Lemma fold_add_nablas_split grads1 grads2 (sizes : list Z) :
  fold_left add_nablas (grads1 ++ grads2) (zero_nablas sizes)
  = add_nablas (fold_left add_nablas grads1 (zero_nablas sizes))
               (fold_left add_nablas grads2 (zero_nablas sizes)).
Proof.
  rewrite fold_left_app.
  set (s1 := fold_left add_nablas grads1 (zero_nablas sizes)).
  rewrite <- fold_add_nablas. f_equal.
  destruct (below_fold grads1 (zero_nablas sizes) (zero_nablas sizes)) as [Hb1 Hb2];
    [apply below_refl|apply below_refl|].
  destruct (zero_nablas_zero sizes) as [Hz1 Hz2].
  unfold add_nablas. fold s1 in Hb1, Hb2.
  rewrite !zip_with_madd_zero by done. by destruct s1.
Qed.
End Laws.

Lemma batch_gradients_unique this batch grads grads' :
  batch_gradients this batch grads → batch_gradients this batch grads' → grads = grads'.
Proof.
  intros Hg. revert grads'.
  induction Hg as [|xy g batch grads [Hrun _] _ IH]; intros grads' Hg'.
  - by inversion Hg'.
  - inversion Hg' as [|? g' ? grads'' [Hrun' _] Hrest]. subst.
    rewrite Hrun in Hrun'. injection Hrun' as <-. f_equal. by apply IH.
Qed.

End SumAlgebra.

Section ConstructionFacts.
Context {T : Type} `{Scalar T} `{RandomEngine T}.
Implicit Types (l : FNNFullyConnectedLayer T) (Wv Bv m : Matrix T).

Lemma Matrix_set_ok m i j v :
  0 <= i * get_J m + j < Z.of_nat (length (matrix m)) →
  ∃ m', Matrix_set m i j v = Ok m' ∧ get_I m' = get_I m ∧ get_J m' = get_J m ∧
        length (matrix m') = length (matrix m).
Proof.
  intros [Hlo Hhi]. unfold Matrix_set. cbv zeta.
  destruct (Z.leb_spec 0 (i * get_J m + j)); [|lia].
  destruct (Z.ltb_spec (i * get_J m + j) (Z.of_nat (length (matrix m)))); [|lia].
  eexists. split; [reflexivity|]. simpl. by rewrite length_insert.
Qed.

Lemma init_weights_row_ok i n : ∀ j Wv gw g,
  0 <= i * get_J Wv + j →
  i * get_J Wv + j + Z.of_nat n <= Z.of_nat (length (matrix Wv)) →
  ∃ Wv' gw' g',
    init_weights_row n i j Wv gw g = Ok (Wv', gw', g') ∧
    get_I Wv' = get_I Wv ∧ get_J Wv' = get_J Wv ∧
    length (matrix Wv') = length (matrix Wv).
Proof.
  induction n as [|n IH]; intros j Wv gw g Hlo Hhi.
  - by exists Wv, gw, g.
  - cbn [init_weights_row]. destruct (normal_sample gw g) as [[v gw1] g1].
    destruct (Matrix_set_ok Wv i j v) as (Wv1 & -> & HI & HJ & Hlen); [lia|].
    cbn [rbind].
    destruct (IH (j + 1) Wv1 gw1 g1) as (Wv' & gw' & g' & -> & HI' & HJ' & Hlen');
      [rewrite HJ; lia|rewrite HJ, Hlen; lia|].
    exists Wv', gw', g'. split; [done|]. split; [congruence|]. split; congruence.
Qed.

Lemma init_rows_ok n : ∀ i Wv Bv gw gb g,
  0 <= i → 0 < get_J Wv → get_J Bv = 1 →
  Z.of_nat (length (matrix Wv)) = get_I Wv * get_J Wv →
  Z.of_nat (length (matrix Bv)) = get_I Bv →
  i + Z.of_nat n <= get_I Wv → i + Z.of_nat n <= get_I Bv →
  ∃ Wv' Bv',
    init_rows n i Wv Bv gw gb g = Ok (Wv', Bv') ∧
    get_I Wv' = get_I Wv ∧ get_J Wv' = get_J Wv ∧
    get_I Bv' = get_I Bv ∧ get_J Bv' = get_J Bv.
Proof.
  induction n as [|n IH]; intros i Wv Bv gw gb g Hi HJ HBJ HWlen HBlen HWI HBI.
  - by exists Wv, Bv.
  - cbn [init_rows].
    destruct (init_weights_row_ok i (Z.to_nat (get_J Wv)) 0 Wv gw g)
      as (Wv1 & gw1 & g1 & -> & HI1 & HJ1 & Hlen1); [nia|nia|].
    cbn [rbind]. destruct (normal_sample gb g1) as [[v gb1] g2].
    destruct (Matrix_set_ok Bv i 0 v) as (Bv1 & -> & HBI1 & HBJ1 & HBlen1); [lia|].
    cbn [rbind].
    destruct (IH (i + 1) Wv1 Bv1 gw1 gb1 g2) as (Wv' & Bv' & -> & ? & ? & ? & ?);
      try lia; try congruence.
    exists Wv', Bv'. split; [done|]. repeat split; congruence.
Qed.

Lemma initial_parameters_ok n prev :
  0 < n → 0 < prev →
  ∃ Wv Bv, initial_parameters n prev = Ok (Wv, Bv) ∧
           get_I Wv = n ∧ get_J Wv = prev ∧ get_I Bv = n ∧ get_J Bv = 1.
Proof.
  intros Hn Hp. unfold initial_parameters.
  destruct (init_rows_ok (Z.to_nat n) 0 (Matrix_new n prev) (Matrix_new n 1)
              (normal_distribution_new (of_int 0) (sdiv sone (ssqrt (of_int prev))))
              (normal_distribution_new (of_int 0) (of_int 1)) default_random_engine)
    as (Wv & Bv & -> & ? & ? & ? & ?); simpl; try lia.
  - rewrite length_replicate. nia.
  - rewrite length_replicate. lia.
  - by exists Wv, Bv.
Qed.

Lemma deref_layer_ptr_of sizes inp (fcs : list (FNNFullyConnectedLayer T)) i prev :
  (∀ k l, fcs !! k = Some l → built_layer sizes k l) →
  length fcs = i →
  sizes !! 0%nat = Some (get_nb_nodes inp) →
  sizes !! i = Some prev →
  deref_nb_nodes inp fcs (layer_ptr_of i) = Ok prev.
Proof.
  intros Hbuilt Hlen Hin0 Hi. destruct i as [|i]; simpl.
  - congruence.
  - destruct (lookup_lt_is_Some_2 fcs i) as [l Hl]; [lia|]. rewrite Hl.
    destruct (Hbuilt _ _ Hl) as (p & n & _ & Hn & Hnb & _). congruence.
Qed.

Lemma FNN_build_step {R} sizes inp (fcs : list (FNNFullyConnectedLayer T)) i prev n
    (k : FNNFullyConnectedLayer T → result R) :
  (∀ k l, fcs !! k = Some l → built_layer sizes k l) →
  length fcs = i →
  sizes !! 0%nat = Some (get_nb_nodes inp) →
  sizes !! i = Some prev →
  rbind (new_FNNFullyConnectedLayer inp fcs n (layer_ptr_of i))
        (fun l => rbind (random_init_values inp fcs l) k)
  = rbind (initial_parameters n prev)
          (fun WB => k (mkFullyConnectedLayer n (layer_ptr_of i) WB.1 WB.2)).
Proof.
  intros Hbuilt Hlen Hin0 Hi.
  unfold new_FNNFullyConnectedLayer, random_init_values.
  rewrite (deref_layer_ptr_of sizes inp fcs i prev) by done.
  cbn [rbind previous_layer W B nb_nodes].
  rewrite (deref_layer_ptr_of sizes inp fcs i prev) by done.
  cbn [rbind get_I Matrix_new]. unfold initial_parameters.
  destruct (init_rows _ _ _ _ _ _ _) as [[Wv Bv]|e]; done.
Qed.

Lemma built_layer_snoc sizes (fcs : list (FNNFullyConnectedLayer T)) prev n Wv Bv :
  (∀ k l, fcs !! k = Some l → built_layer sizes k l) →
  sizes !! length fcs = Some prev → sizes !! S (length fcs) = Some n →
  initial_parameters n prev = Ok (Wv, Bv) →
  ∀ k l, (fcs ++ [mkFullyConnectedLayer n (layer_ptr_of (length fcs)) Wv Bv]) !! k = Some l →
         built_layer sizes k l.
Proof.
  intros Hbuilt Hp Hn Hinit k l Hl.
  apply lookup_app_Some in Hl as [Hl|[Hk Hl]]; [by apply Hbuilt|].
  apply list_lookup_singleton_Some in Hl as [Hk0 <-].
  assert (k = length fcs) as -> by lia.
  by exists prev, n.
Qed.

Lemma FNN_build_inv sizes inp n : ∀ i fcs fcs',
  sizes !! 0%nat = Some (get_nb_nodes inp) →
  length fcs = i →
  (∀ k l, fcs !! k = Some l → built_layer sizes k l) →
  FNN_build n (Z.of_nat i) sizes inp fcs (layer_ptr_of i) = Ok fcs' →
  length fcs' = (i + n)%nat ∧ ∀ k l, fcs' !! k = Some l → built_layer sizes k l.
Proof.
  induction n as [|n IH]; intros i fcs fcs' Hin0 Hlen Hbuilt Hrun.
  - simpl in Hrun. injection Hrun as <-. split; [lia|done].
  - cbn [FNN_build] in Hrun.
    destruct (vec_at sizes (Z.of_nat i + 1)) as [size|e] eqn:Hsize; [|done].
    apply vec_at_inv in Hsize as [_ Hsize].
    replace (Z.to_nat (Z.of_nat i + 1)) with (S i) in Hsize by lia.
    destruct (lookup_lt_is_Some_2 sizes i) as [prev Hprev].
    { apply lookup_lt_Some in Hsize. lia. }
    cbn [rbind] in Hrun. rewrite (FNN_build_step sizes inp fcs i prev) in Hrun by done.
    destruct (initial_parameters size prev) as [[Wv Bv]|e] eqn:Hinit; [|done].
    cbn [rbind fst snd] in Hrun. rewrite Nat2Z.id in Hrun.
    replace (Z.of_nat i + 1) with (Z.of_nat (S i)) in Hrun by lia.
    change (FullyPtr i) with (layer_ptr_of (S i)) in Hrun.
    apply IH in Hrun as [Hlen' Hbuilt']; try done.
    + split; [lia|done].
    + rewrite length_app. simpl. lia.
    + subst i. by apply (built_layer_snoc sizes fcs prev size).
Qed.

Lemma FNN_build_total sizes inp n : ∀ i fcs,
  Forall (fun s => 0 < s) sizes →
  sizes !! 0%nat = Some (get_nb_nodes inp) →
  length fcs = i →
  (∀ k l, fcs !! k = Some l → built_layer sizes k l) →
  (i + n < length sizes)%nat →
  ∃ fcs', FNN_build n (Z.of_nat i) sizes inp fcs (layer_ptr_of i) = Ok fcs'.
Proof.
  induction n as [|n IH]; intros i fcs Hpos Hin0 Hlen Hbuilt Hfit.
  - by exists fcs.
  - cbn [FNN_build].
    destruct (lookup_lt_is_Some_2 sizes i) as [prev Hprev]; [lia|].
    destruct (lookup_lt_is_Some_2 sizes (S i)) as [size Hsize]; [lia|].
    replace (Z.of_nat i + 1) with (Z.of_nat (S i)) by lia.
    rewrite (vec_at_lookup _ _ _ Hsize). cbn [rbind].
    rewrite (FNN_build_step sizes inp fcs i prev) by done.
    destruct (initial_parameters_ok size prev) as (Wv & Bv & Hinit & _).
    { by apply (Forall_lookup_1 _ _ _ _ Hpos Hsize). }
    { by apply (Forall_lookup_1 _ _ _ _ Hpos Hprev). }
    rewrite Hinit. cbn [rbind fst snd]. rewrite Nat2Z.id.
    change (FullyPtr i) with (layer_ptr_of (S i)).
    apply IH; try done.
    + rewrite length_app. simpl. lia.
    + subst i. by apply (built_layer_snoc sizes fcs prev size).
    + lia.
Qed.

Lemma FNN_new_inv (p_layers : list Z) (net : FNN T) :
  FNN_new p_layers = Ok net →
  layers net = p_layers ∧
  p_layers !! 0%nat = Some (get_nb_nodes (input net)) ∧
  nb_fully_connected_layers net = Z.of_nat (length p_layers) - 1 ∧
  length (fully_connected_layers net) = (length p_layers - 1)%nat ∧
  ∀ k l, fully_connected_layers net !! k = Some l → built_layer p_layers k l.
Proof.
  unfold FNN_new. intros Hrun.
  destruct (vec_at p_layers 0) as [n0|e] eqn:Hn0; [|done].
  apply vec_at_inv in Hn0 as [_ Hn0]. simpl in Hn0.
  cbn [rbind] in Hrun.
  destruct (FNN_build _ 0 _ _ _ _) as [fcs|e] eqn:Hbuild; [|done].
  cbn [rbind] in Hrun. injection Hrun as <-. simpl.
  apply (FNN_build_inv p_layers (mkInputLayer n0) _ 0%nat [] fcs) in Hbuild as [Hlen Hbuilt];
    try done.
  repeat split; try done. rewrite Hlen. lia.
Qed.

Lemma FNN_new_total (p_layers : list Z) :
  (1 ≤ length p_layers)%nat → Forall (fun s => 0 < s) p_layers →
  ∃ net, FNN_new p_layers = Ok net.
Proof.
  intros Hlen Hpos. unfold FNN_new.
  destruct p_layers as [|n0 sizes]; [simpl in Hlen; lia|].
  cbv zeta. change (vec_at (n0 :: sizes) 0) with (Ok n0). cbn [rbind].
  destruct (FNN_build_total (n0 :: sizes) (mkInputLayer n0)
              (Z.to_nat (Z.of_nat (length (n0 :: sizes)) - 1)) 0%nat [])
    as [fcs Hfcs]; try done.
  { simpl. lia. }
  change (layer_ptr_of 0) with InputPtr in Hfcs. change (Z.of_nat 0) with 0 in Hfcs.
  rewrite Hfcs. cbn [rbind]. eauto.
Qed.

Lemma built_layer_shapes sizes k l :
  Forall (fun s => 0 < s) sizes → built_layer sizes k l →
  ∃ prev n, sizes !! k = Some prev ∧ sizes !! S k = Some n ∧
            layer_okb prev n l = true ∧ previous_layer l = layer_ptr_of k.
Proof.
  intros Hpos (prev & n & Hprev & Hn & Hnb & Hptr & Hinit).
  exists prev, n. split; [done|]. split; [done|]. split; [|done].
  destruct (initial_parameters_ok n prev) as (Wv & Bv & Hinit' & ? & ? & ? & ?).
  { by apply (Forall_lookup_1 _ _ _ _ Hpos Hn). }
  { by apply (Forall_lookup_1 _ _ _ _ Hpos Hprev). }
  rewrite Hinit in Hinit'. injection Hinit' as <- <-.
  unfold layer_okb. rewrite !andb_true_iff, !Z.eqb_eq. done.
Qed.

End ConstructionFacts.

(** ** The invariant holds of the networks that the program builds *)

Section InvariantFacts.
Context {T : Type} `{Scalar T} `{RandomEngine T}.

Lemma chain_okb_intro (fcs : list (FNNFullyConnectedLayer T)) : ∀ n0 sizes,
  length sizes = length fcs →
  (∀ k l, fcs !! k = Some l →
     ∃ prev n, (n0 :: sizes) !! k = Some prev ∧ (n0 :: sizes) !! S k = Some n ∧
               layer_okb prev n l = true) →
  chain_okb n0 sizes fcs = true.
Proof.
  induction fcs as [|l0 fcs IH]; intros n0 [|n sizes] Hlen Hl; try done.
  destruct (Hl 0%nat l0 eq_refl) as (prev & n' & Hp & Hn & Hok).
  simpl in Hp, Hn. injection Hp as <-. injection Hn as <-.
  simpl. rewrite Hok. simpl. apply IH; [simpl in Hlen; lia|].
  intros k l Hk. apply (Hl (S k) l Hk).
Qed.

(** A network built from positive sizes is well formed. *)
Lemma FNN_new_network_ok (sizes : list Z) (net : FNN T) :
  Forall (fun n => 0 < n) sizes → FNN_new sizes = Ok net → network_okb net = true.
Proof.
  intros Hpos (Hlay & Hin0 & Hnb & Hlen & Hbuilt)%FNN_new_inv.
  unfold network_okb. rewrite Hlay.
  destruct sizes as [|n0 sizes]; [done|].
  simpl in Hin0, Hlen. injection Hin0 as Hin0. rewrite Nat.sub_0_r in Hlen.
  apply andb_true_iff. split; [apply Z.eqb_eq; simpl length in Hnb; lia|].
  apply andb_true_iff. split; [by apply Z.eqb_eq|].
  apply chain_okb_intro; [done|]. intros k l Hl.
  destruct (built_layer_shapes _ _ _ Hpos (Hbuilt _ _ Hl)) as (prev & n & ? & ? & ? & _).
  by exists prev, n.
Qed.

(** [SGD_batch] keeps a well-formed network well formed. *)
Lemma SGD_batch_network_ok (net net' : FNN T) xs ys training_set_len eta alpha :
  network_okb net = true →
  1 <= nb_fully_connected_layers net →
  length xs = length ys →
  Forall (valid_example net) (zip xs ys) →
  SGD_batch xs ys training_set_len (Z.of_nat (length xs)) eta alpha net = Ok (tt, net') →
  network_okb net' = true.
Proof.
  intros Hok HL Hlen Hval Hrun.
  destruct (SGD_batch_spec net xs ys training_set_len eta alpha Hok HL Hlen Hval)
    as (grads & net'' & _ & Hrun' & Hlay & Hinp & Hnb & Hlen' & Hup).
  rewrite Hrun in Hrun'. injection Hrun' as <-.
  pose proof Hok as (Hnb0 & n0 & sizes & Hsz & Hin & Hchain)%network_okb_spec.
  unfold network_okb. rewrite Hlay, Hsz, Hinp, Hnb, Hlen'.
  apply andb_true_iff. split; [by apply Z.eqb_eq|].
  apply andb_true_iff. split; [by apply Z.eqb_eq|].
  apply chain_okb_intro; [rewrite Hlen'; by eapply chain_okb_length|].
  intros k l' Hl'.
  destruct (lookup_lt_is_Some_2 (fully_connected_layers net) k) as [l Hl].
  { rewrite <- Hlen'. by eapply lookup_lt_Some. }
  destruct (Hup k l Hl) as (gw & gb & _ & _ & Hupd).
  destruct (chain_okb_lookup _ _ _ _ _ Hchain Hl) as (prev & n & Hp & Hn & Hokl).
  exists prev, n. split; [done|]. split; [done|].
  assert (l' = updated_layer l gw gb training_set_len (Z.of_nat (length xs)) eta alpha)
    as -> by congruence.
  apply layer_okb_spec in Hokl as (? & ? & ? & ? & ?).
  unfold layer_okb. rewrite !andb_true_iff, !Z.eqb_eq. simpl. done.
Qed.

End InvariantFacts.

(** ** Inference *)

Section InferenceTheorems.
Context {T : Type} `{Scalar T}.
Implicit Types (net : FNN T) (X : Matrix T).

(** C3. On a network with [L] fully connected layers and an input of shape
    (input-layer-node-count × 1), [feedforward_complete] returns exactly
    [L+1] activations: entry 0 is the input itself, and entry [i+1] is
    [sigmoid(W[i] · entry_i + B[i])] for every layer [i]. *)
Theorem feedforward_complete_trace net X :
  network_okb net = true →
  is_column (get_nb_nodes (input net)) X →
  ∃ activations,
    feedforward_complete X net = Ok (activations, net) ∧
    length activations = S (length (fully_connected_layers net)) ∧
    activations !! 0%nat = Some X ∧
    ∀ i layer, fully_connected_layers net !! i = Some layer →
      ∃ a, activations !! i = Some a ∧
           activations !! S i = Some (msigmoid (madd (mprod (W layer) a) (B layer))).
Proof.
  intros Hok HX. eexists. split; [by apply feedforward_complete_spec|].
  split; [simpl; by rewrite activations_from_length|]. split; [done|].
  intros i layer Hl. by apply activations_from_step.
Qed.

(** C4. [feedforward] returns the entry of index [L] (the last one) of what
    [feedforward_complete] returns on the same input. *)
Theorem feedforward_last_of_complete net X :
  network_okb net = true →
  is_column (get_nb_nodes (input net)) X →
  ∃ out activations,
    feedforward X net = Ok (out, net) ∧
    feedforward_complete X net = Ok (activations, net) ∧
    vec_at activations (nb_fully_connected_layers net) = Ok out ∧
    last activations = Some out.
Proof.
  intros Hok HX. eexists. eexists.
  split; [by apply feedforward_spec|]. split; [by apply feedforward_complete_spec|].
  pose proof Hok as (Hnb & _)%network_okb_spec.
  pose proof (final_activation_lookup (fully_connected_layers net) X) as Hlast.
  split; [rewrite Hnb; by apply vec_at_lookup|].
  rewrite last_lookup. simpl length. simpl Nat.pred.
  by rewrite activations_from_length.
Qed.

(** C9. [feedforward] and [feedforward_complete] hand the network back as
    they found it: the object after the call is [net] itself, with every
    weight and bias matrix unchanged. *)
Theorem feedforward_preserves_parameters net X :
  network_okb net = true →
  is_column (get_nb_nodes (input net)) X →
  ∃ out activations net1 net2,
    feedforward X net = Ok (out, net1) ∧
    feedforward_complete X net = Ok (activations, net2) ∧
    net1 = net ∧ net2 = net ∧
    ∀ k l, fully_connected_layers net !! k = Some l →
      (∃ l1, fully_connected_layers net1 !! k = Some l1 ∧ W l1 = W l ∧ B l1 = B l) ∧
      (∃ l2, fully_connected_layers net2 !! k = Some l2 ∧ W l2 = W l ∧ B l2 = B l).
Proof.
  intros Hok HX. eexists. eexists. exists net, net.
  split; [by apply feedforward_spec|]. split; [by apply feedforward_complete_spec|].
  split; [done|]. split; [done|]. intros k l Hl. split; by exists l.
Qed.

End InferenceTheorems.

(** ** Backpropagation *)

Section BackpropagationTheorems.
Context {T : Type} `{Scalar T}.
Implicit Types (net : FNN T) (x y a : Matrix T).

Lemma zip_with_smul_comm (u v : list T) :
  smul_commutative → zip_with smul u v = zip_with smul v u.
Proof.
  intros Hc. revert v. induction u as [|p u IH]; intros [|q v]; simpl; try done.
  by rewrite Hc, IH.
Qed.

Lemma sigmoid_prime_comm n a :
  smul_commutative → is_column n a →
  mhadamard (msub (ones_like a) a) a = mhadamard a (msub (ones_like a) a).
Proof.
  intros Hc [HI HJ]. unfold mhadamard. simpl.
  rewrite (zip_with_smul_comm _ _ Hc). destruct a; simpl in *. by subst.
Qed.

(** C1. On a network with [L >= 1] fully connected layers, for an input of
    shape (input-layer-node-count × 1) and an expected output of shape
    (final-layer-node-count × 1), [backpropagation_cross_entropy] returns
    one weight gradient and one bias gradient per layer, in layer order.
    With [A] the activations of [feedforward_complete] and [D[k]] the bias
    gradient of layer [k]:
    [D[L-1] = A[L] − y];
    [D[k] = (transpose(W[k+1]) · D[k+1]) ° (A[k+1] ° (1 − A[k+1]))] for
    [k] from [L-2] down to [0];
    and [NablaW[k] = D[k] · transpose(A[k])] for every [k]. *)
Theorem backpropagation_cross_entropy_gradients net x y :
  smul_commutative →
  network_okb net = true →
  1 <= nb_fully_connected_layers net →
  is_column (get_nb_nodes (input net)) x →
  is_column (output_nb_nodes net) y →
  ∃ A NablaW NablaB,
    feedforward_complete x net = Ok (A, net) ∧
    backpropagation_cross_entropy x y net = Ok ((NablaW, NablaB), net) ∧
    length NablaW = length (fully_connected_layers net) ∧
    length NablaB = length (fully_connected_layers net) ∧
    (∃ aL, A !! length (fully_connected_layers net) = Some aL ∧
           NablaB !! (length (fully_connected_layers net) - 1)%nat = Some (msub aL y)) ∧
    (∀ k, (S k < length (fully_connected_layers net))%nat →
       ∃ layer' a' D',
         fully_connected_layers net !! S k = Some layer' ∧
         A !! S k = Some a' ∧ NablaB !! S k = Some D' ∧
         NablaB !! k = Some (mhadamard (mprod (mtranspose (W layer')) D')
                                       (mhadamard a' (msub (ones_like a') a')))) ∧
    (∀ k, (k < length (fully_connected_layers net))%nat →
       ∃ a D, A !! k = Some a ∧ NablaB !! k = Some D ∧
              NablaW !! k = Some (mprod D (mtranspose a))).
Proof.
  intros Hc Hok HL Hx Hy.
  destruct (backpropagation_cross_entropy_spec net x y Hok HL Hx Hy)
    as (cw & cb & Hrun & (Hcw & Hcb & Hlast & Hback & Hgrad) & _).
  exists (x :: activations_from x (fully_connected_layers net)), cw, cb.
  split; [by apply feedforward_complete_spec|].
  repeat (split; [done|]). split; [|done].
  intros k Hk. destruct (Hback k Hk) as (l' & a' & D' & Hl' & Ha' & HD' & HDk).
  exists l', a', D'. repeat (split; [done|]).
  pose proof Hok as (_ & n0 & sizes & _ & Hin & Hchain)%network_okb_spec.
  rewrite <- Hin in Hchain.
  destruct (trace_columns _ _ _ _ _ _ Hchain Hx Ha') as (s & _ & Hcol).
  rewrite HDk. unfold backward_error. by rewrite (sigmoid_prime_comm s a' Hc Hcol).
Qed.

End BackpropagationTheorems.

(** ** Batched gradient descent *)

Section SGDTheorems.
Context {T : Type} `{Scalar T}.
Implicit Types (net : FNN T) (batch_input batch_output : list (Matrix T)).

(** C2. [SGD_batch] on a batch of [batch_len] valid examples: the sums
    start from zero-filled matrices, the gradients [grads] that
    [backpropagation_cross_entropy] returns for the examples are added to
    them in order, and every layer's [W] becomes
    [W·(1 − alpha·eta/training_set_len) − (eta/batch_len)·sumW] and its [B]
    becomes [B − (eta/batch_len)·sumB]; nothing else of the network
    changes. *)
Theorem SGD_batch_update net batch_input batch_output training_set_len batch_len eta alpha :
  network_okb net = true →
  1 <= nb_fully_connected_layers net →
  Z.of_nat (length batch_input) = batch_len →
  Z.of_nat (length batch_output) = batch_len →
  Forall (is_column (get_nb_nodes (input net))) batch_input →
  Forall (is_column (output_nb_nodes net)) batch_output →
  ∃ grads sums net',
    Forall2 (fun xy g => backpropagation_cross_entropy xy.1 xy.2 net = Ok (g, net))
            (zip batch_input batch_output) grads ∧
    sums = fold_left add_nablas grads (zero_nablas (layers net)) ∧
    SGD_batch batch_input batch_output training_set_len batch_len eta alpha net
    = Ok (tt, net') ∧
    layers net' = layers net ∧ input net' = input net ∧
    nb_fully_connected_layers net' = nb_fully_connected_layers net ∧
    length (fully_connected_layers net') = length (fully_connected_layers net) ∧
    ∀ k layer, fully_connected_layers net !! k = Some layer →
      ∃ sumW sumB layer',
        sums.1 !! k = Some sumW ∧ sums.2 !! k = Some sumB ∧
        fully_connected_layers net' !! k = Some layer' ∧
        get_nb_nodes layer' = get_nb_nodes layer ∧
        previous_layer layer' = previous_layer layer ∧
        W layer' = msub (mscale (W layer)
                                (ssub sone (sdiv (smul alpha eta) (of_int training_set_len))))
                        (mscale sumW (sdiv eta (of_int batch_len))) ∧
        B layer' = msub (B layer) (mscale sumB (sdiv eta (of_int batch_len))).
Proof.
  intros Hok HL Hli Hlo Hin Hout. subst batch_len.
  assert (Hlen : length batch_input = length batch_output) by lia.
  assert (Hval : Forall (valid_example net) (zip batch_input batch_output)).
  { apply Forall_forall. intros [x y] Hxy.
    apply elem_of_zip_l in Hxy as Hx. apply elem_of_zip_r in Hxy as Hy.
    rewrite Forall_forall in Hin, Hout. split; simpl; auto. }
  destruct (SGD_batch_spec net batch_input batch_output training_set_len eta alpha
              Hok HL Hlen Hval)
    as (grads & net' & Hgrads & Hrun & Hlay & Hinp & Hnb & Hlen' & Hup).
  exists grads, (fold_left add_nablas grads (zero_nablas (layers net))), net'.
  split. { eapply Forall2_impl; [exact Hgrads|]. by intros xy g [? _]. }
  repeat (split; [done|]).
  intros k layer Hl. destruct (Hup k layer Hl) as (gw & gb & Hgw & Hgb & Hl').
  exists gw, gb, (updated_layer layer gw gb training_set_len
                                (Z.of_nat (length batch_input)) eta alpha).
  repeat (split; [done|]). done.
Qed.

(** C6, as the program has it.  For fixed weights and biases and a batch
    split in two, the raw gradient sums of the whole batch are those obtained
    by adding the gradients [grads2] of the second sub-batch, in order, onto
    the sums of the first sub-batch; the sums of the second sub-batch are
    [grads2] added onto zero-filled matrices.  This holds for every scalar
    type, floating point included.  The two sub-batch sums add up, layer by
    layer, to the sums of the whole batch when the scalar addition is
    associative with [0] as right identity, which it is in exact arithmetic
    and is not in floating point. *)
Theorem gradient_sums_split net batch_input1 batch_output1 batch_input2 batch_output2 :
  network_okb net = true →
  1 <= nb_fully_connected_layers net →
  length batch_input1 = length batch_output1 →
  length batch_input2 = length batch_output2 →
  Forall (is_column (get_nb_nodes (input net))) (batch_input1 ++ batch_input2) →
  Forall (is_column (output_nb_nodes net)) (batch_output1 ++ batch_output2) →
  ∃ grads2 sums1 sums2 sums,
    Forall2 (fun xy g => backpropagation_cross_entropy xy.1 xy.2 net = Ok (g, net))
            (zip batch_input2 batch_output2) grads2 ∧
    SGD_gradient_sums batch_input1 batch_output1 (Z.of_nat (length batch_input1)) net
    = Ok (sums1, net) ∧
    SGD_gradient_sums batch_input2 batch_output2 (Z.of_nat (length batch_input2)) net
    = Ok (sums2, net) ∧
    SGD_gradient_sums (batch_input1 ++ batch_input2) (batch_output1 ++ batch_output2)
                      (Z.of_nat (length (batch_input1 ++ batch_input2))) net
    = Ok (sums, net) ∧
    sums2 = fold_left add_nablas grads2 (zero_nablas (layers net)) ∧
    sums = fold_left add_nablas grads2 sums1 ∧
    (sadd_associative (T := T) → sadd_right_identity (T := T) →
     sums.1 = zip_with madd sums1.1 sums2.1 ∧
     sums.2 = zip_with madd sums1.2 sums2.2).
Proof.
  intros Hok HL Hlen1 Hlen2 Hin Hout.
  apply Forall_app in Hin as [Hin1 Hin2]. apply Forall_app in Hout as [Hout1 Hout2].
  assert (Hval : ∀ xs ys, Forall (is_column (get_nb_nodes (input net))) xs →
                          Forall (is_column (output_nb_nodes net)) ys →
                          Forall (valid_example net) (zip xs ys)).
  { intros xs ys Hxs Hys. apply Forall_forall. intros [x y] Hxy.
    apply elem_of_zip_l in Hxy as Hx. apply elem_of_zip_r in Hxy as Hy.
    rewrite Forall_forall in Hxs, Hys. split; simpl; auto. }
  destruct (SGD_gradient_sums_spec net batch_input1 batch_output1 Hok HL Hlen1
              (Hval _ _ Hin1 Hout1)) as (grads1 & Hg1 & Hrun1).
  destruct (SGD_gradient_sums_spec net batch_input2 batch_output2 Hok HL Hlen2
              (Hval _ _ Hin2 Hout2)) as (grads2 & Hg2 & Hrun2).
  destruct (SGD_gradient_sums_spec net (batch_input1 ++ batch_input2)
              (batch_output1 ++ batch_output2) Hok HL)
    as (grads & Hg & Hrun).
  { rewrite !length_app. lia. }
  { apply Hval; by apply Forall_app. }
  assert (grads = grads1 ++ grads2) as ->.
  { apply (batch_gradients_unique net _ _ _ Hg).
    rewrite zip_with_app by done. by apply Forall2_app. }
  exists grads2. eexists. eexists. eexists.
  split; [eapply Forall2_impl; [exact Hg2|]; by intros xy g [Hxy _]|].
  split; [exact Hrun1|]. split; [exact Hrun2|]. split; [exact Hrun|].
  split; [reflexivity|]. split; [apply fold_left_app|].
  intros Hassoc Hid. by rewrite (fold_add_nablas_split Hassoc Hid).
Qed.

End SGDTheorems.

(** ** Construction *)

Section ConstructionTheorems.
Context {T : Type} `{Scalar T} `{RandomEngine T}.

Lemma deref_previous_layer sizes inp (fcs : list (FNNFullyConnectedLayer T)) k l :
  (∀ k l, fcs !! k = Some l → built_layer sizes k l) →
  sizes !! 0%nat = Some (get_nb_nodes inp) →
  fcs !! k = Some l →
  ∃ prev, sizes !! k = Some prev ∧ deref_nb_nodes inp fcs (previous_layer l) = Ok prev.
Proof.
  intros Hbuilt Hin0 Hl.
  destruct (Hbuilt _ _ Hl) as (prev & n & Hprev & _ & _ & -> & _).
  exists prev. split; [done|]. destruct k as [|k]; simpl.
  - congruence.
  - destruct (lookup_lt_is_Some_2 fcs k) as [l' Hl'].
    { apply lookup_lt_Some in Hl. lia. }
    rewrite Hl'. destruct (Hbuilt _ _ Hl') as (p' & n' & _ & Hn' & Hnb' & _). congruence.
Qed.

(** C5. For sizes [n0..nL] (at least two, all positive) the constructor
    returns a network whose fully connected layer [k] has weights of shape
    (n(k+1) × nk), biases of shape (n(k+1) × 1), and as predecessor the
    layer [k-1], the input layer when [k = 0]. *)
Theorem FNN_new_shapes (sizes : list Z) :
  (2 ≤ length sizes)%nat →
  Forall (fun n => 0 < n) sizes →
  ∃ net : FNN T,
    FNN_new sizes = Ok net ∧
    length (fully_connected_layers net) = (length sizes - 1)%nat ∧
    ∀ k, (k < length sizes - 1)%nat →
      ∃ layer nk nk1,
        fully_connected_layers net !! k = Some layer ∧
        sizes !! k = Some nk ∧ sizes !! S k = Some nk1 ∧
        get_I (W layer) = nk1 ∧ get_J (W layer) = nk ∧
        get_I (B layer) = nk1 ∧ get_J (B layer) = 1 ∧
        previous_layer layer = match k with
                               | O => InputPtr
                               | S k' => FullyPtr k'
                               end.
Proof.
  intros Hlen Hpos. destruct (FNN_new_total sizes) as [net Hnet]; [lia|done|].
  exists net. split; [done|].
  apply FNN_new_inv in Hnet as (_ & _ & _ & Hl & Hbuilt). split; [done|].
  intros k Hk.
  destruct (lookup_lt_is_Some_2 (fully_connected_layers net) k) as [l Hlk]; [lia|].
  destruct (built_layer_shapes sizes k l Hpos (Hbuilt _ _ Hlk))
    as (prev & n & Hprev & Hn & Hokb & Hptr).
  apply layer_okb_spec in Hokb as (_ & ? & ? & ? & ?).
  exists l, prev, n. repeat (split; [done|]). by destruct k.
Qed.

(** C7, as the program has it.  The constructor checks nothing and has no
    InvalidTopology error: every sequence of at least one positive size is
    accepted, and yields one fully connected layer per size after the first
    (none for a single size).  In particular construction succeeds for every
    sequence of at least two positive sizes. *)
Theorem FNN_new_accepts_positive_sizes (sizes : list Z) :
  (1 ≤ length sizes)%nat →
  Forall (fun n => 0 < n) sizes →
  ∃ net : FNN T,
    FNN_new sizes = Ok net ∧
    layers net = sizes ∧
    nb_fully_connected_layers net = Z.of_nat (length sizes) - 1 ∧
    length (fully_connected_layers net) = (length sizes - 1)%nat.
Proof.
  intros Hlen Hpos. destruct (FNN_new_total sizes Hlen Hpos) as [net Hnet].
  exists net. split; [done|].
  by apply FNN_new_inv in Hnet as (? & _ & ? & ? & _).
Qed.

(** C10. Construction is a function of the size sequence alone: the same
    sequence gives the same network, weights and biases included, and two
    layers (of one network or of two) with equal node counts and equal
    predecessor node counts receive identical weights and biases, because
    every call of [random_init_values] starts from the default-constructed
    engine. *)
Theorem FNN_new_deterministic (sizes1 sizes2 : list Z) (net1 net2 : FNN T) :
  FNN_new sizes1 = Ok net1 →
  FNN_new sizes2 = Ok net2 →
  (sizes1 = sizes2 → net1 = net2) ∧
  ∀ k1 k2 layer1 layer2,
    fully_connected_layers net1 !! k1 = Some layer1 →
    fully_connected_layers net2 !! k2 = Some layer2 →
    get_nb_nodes layer1 = get_nb_nodes layer2 →
    deref_nb_nodes (input net1) (fully_connected_layers net1) (previous_layer layer1)
    = deref_nb_nodes (input net2) (fully_connected_layers net2) (previous_layer layer2) →
    W layer1 = W layer2 ∧ B layer1 = B layer2.
Proof.
  intros Hnet1 Hnet2. split; [intros ->; congruence|].
  apply FNN_new_inv in Hnet1 as (_ & Hin1 & _ & _ & Hb1).
  apply FNN_new_inv in Hnet2 as (_ & Hin2 & _ & _ & Hb2).
  intros k1 k2 layer1 layer2 Hl1 Hl2 Hnodes Hprev.
  destruct (deref_previous_layer _ _ _ _ _ Hb1 Hin1 Hl1) as (p1 & Hp1 & Hd1).
  destruct (deref_previous_layer _ _ _ _ _ Hb2 Hin2 Hl2) as (p2 & Hp2 & Hd2).
  destruct (Hb1 _ _ Hl1) as (p1' & n1 & Hp1' & _ & Hn1 & _ & Hi1).
  destruct (Hb2 _ _ Hl2) as (p2' & n2 & Hp2' & _ & Hn2 & _ & Hi2).
  assert (Heq : Ok (W layer1, B layer1) = Ok (W layer2, B layer2)).
  { rewrite <- Hi1, <- Hi2. f_equal; congruence. }
  by injection Heq.
Qed.

End ConstructionTheorems.

(** ** The range of the output *)

Section RangeTheorems.
Context {T : Type} `{Scalar T}.


End RangeTheorems.

(** ** The theorems on concrete networks *)

Section Examples.
Import RealScalars Binary64.

(** The laws of exact arithmetic hold of the real numbers. *)
Lemma R_smul_commutative : smul_commutative (T := R).
Proof. intros a b. apply Rmult_comm. Defined.
Lemma R_sadd_associative : sadd_associative (T := R).
Proof. intros a b c. apply Rplus_assoc. Defined.
Lemma R_sadd_right_identity : sadd_right_identity (T := R).
Proof. intros a. apply Rplus_0_r. Defined.

(** [x21] and [y21] have the shapes that [net21] expects. *)
Lemma net21_input : is_column (get_nb_nodes (input net21)) x21.
Proof. split; reflexivity. Defined.
Lemma net21_output : is_column (output_nb_nodes net21) y21.
Proof. split; reflexivity. Defined.

(** C3 on [net21]. *)
Lemma feedforward_complete_trace_witness :
  network_okb net21 = true ∧ is_column (get_nb_nodes (input net21)) x21 ∧
  ∃ activations,
    feedforward_complete x21 net21 = Ok (activations, net21) ∧ length activations = 2%nat.
Proof.
  split; [reflexivity|]. split; [exact net21_input|].
  destruct (feedforward_complete_trace net21 x21 eq_refl net21_input)
    as (activations & Hrun & Hlen & _).
  by exists activations.
Defined.

(** C4 on [net21]. *)
Lemma feedforward_last_of_complete_witness :
  network_okb net21 = true ∧ is_column (get_nb_nodes (input net21)) x21 ∧
  ∃ out activations,
    feedforward x21 net21 = Ok (out, net21) ∧
    feedforward_complete x21 net21 = Ok (activations, net21) ∧
    last activations = Some out.
Proof.
  split; [reflexivity|]. split; [exact net21_input|].
  destruct (feedforward_last_of_complete net21 x21 eq_refl net21_input)
    as (out & activations & Hff & Hffc & _ & Hlast).
  by exists out, activations.
Defined.

(** C9 on [net21]. *)
Lemma feedforward_preserves_parameters_witness :
  network_okb net21 = true ∧ is_column (get_nb_nodes (input net21)) x21 ∧
  ∃ out activations,
    feedforward x21 net21 = Ok (out, net21) ∧
    feedforward_complete x21 net21 = Ok (activations, net21).
Proof.
  split; [reflexivity|]. split; [exact net21_input|].
  destruct (feedforward_preserves_parameters net21 x21 eq_refl net21_input)
    as (out & activations & net1 & net2 & Hff & Hffc & -> & -> & _).
  by exists out, activations.
Defined.

(** C1 on [net21] and the example ([x21], [y21]). *)
Lemma backpropagation_cross_entropy_gradients_witness :
  network_okb net21 = true ∧ 1 <= nb_fully_connected_layers net21 ∧
  is_column (get_nb_nodes (input net21)) x21 ∧ is_column (output_nb_nodes net21) y21 ∧
  ∃ NablaW NablaB,
    backpropagation_cross_entropy x21 y21 net21 = Ok ((NablaW, NablaB), net21) ∧
    length NablaW = 1%nat ∧ length NablaB = 1%nat.
Proof.
  split; [reflexivity|]. split; [simpl; lia|].
  split; [exact net21_input|]. split; [exact net21_output|].
  destruct (backpropagation_cross_entropy_gradients net21 x21 y21 R_smul_commutative
              eq_refl ltac:(simpl; lia) net21_input net21_output)
    as (A & NablaW & NablaB & _ & Hrun & HlW & HlB & _).
  by exists NablaW, NablaB.
Defined.

(** C2 on [net21] and a batch of one example. *)
Lemma SGD_batch_update_witness :
  network_okb net21 = true ∧ 1 <= nb_fully_connected_layers net21 ∧
  Forall (is_column (get_nb_nodes (input net21))) [x21] ∧
  Forall (is_column (output_nb_nodes net21)) [y21] ∧
  ∃ net', SGD_batch [x21] [y21] 1 1 1%R 0%R net21 = Ok (tt, net') ∧
          layers net' = layers net21.
Proof.
  assert (Hin : Forall (is_column (get_nb_nodes (input net21))) [x21])
    by (repeat constructor).
  assert (Hout : Forall (is_column (output_nb_nodes net21)) [y21])
    by (repeat constructor).
  split; [reflexivity|]. split; [simpl; lia|]. split; [exact Hin|]. split; [exact Hout|].
  destruct (SGD_batch_update net21 [x21] [y21] 1 1 1%R 0%R eq_refl ltac:(simpl; lia)
              eq_refl eq_refl Hin Hout)
    as (grads & sums & net' & _ & _ & Hrun & Hlay & _).
  by exists net'.
Defined.

(** C6, as the program has it, on [net21] and a batch of two examples split
    in two. *)
Lemma gradient_sums_split_witness :
  network_okb net21 = true ∧ 1 <= nb_fully_connected_layers net21 ∧
  Forall (is_column (get_nb_nodes (input net21))) ([x21] ++ [x21]) ∧
  Forall (is_column (output_nb_nodes net21)) ([y21] ++ [y21]) ∧
  ∃ grads2 sums1 sums,
    SGD_gradient_sums [x21] [y21] 1 net21 = Ok (sums1, net21) ∧
    SGD_gradient_sums [x21; x21] [y21; y21] 2 net21 = Ok (sums, net21) ∧
    sums = fold_left add_nablas grads2 sums1.
Proof.
  assert (Hin : Forall (is_column (get_nb_nodes (input net21))) ([x21] ++ [x21]))
    by (repeat constructor).
  assert (Hout : Forall (is_column (output_nb_nodes net21)) ([y21] ++ [y21]))
    by (repeat constructor).
  split; [reflexivity|]. split; [simpl; lia|]. split; [exact Hin|]. split; [exact Hout|].
  destruct (gradient_sums_split net21 [x21] [y21] [x21] [y21] eq_refl ltac:(simpl; lia)
              eq_refl eq_refl Hin Hout)
    as (grads2 & sums1 & sums2 & sums & _ & Hrun1 & _ & Hrun & _ & Hsums & _).
  exists grads2, sums1, sums. split; [exact Hrun1|]. split; [exact Hrun|exact Hsums].
Defined.

(** C6: the claim, as stated, fails in the program's arithmetic.  On the
    binary64 network [net11] the gradients of the four examples are 2^53, 0,
    1 and 1 for the bias.  Accumulated in one batch they give 2^53 (each
    addition of 1 to 2^53 is rounded back to 2^53); the sums of the two
    halves, 2^53 and 2, add up to 2^53 + 2. *)
Lemma gradient_sums_split_inexact :
  network_okb Binary64.net11 = true ∧
  1 <= nb_fully_connected_layers Binary64.net11 ∧
  is_column (get_nb_nodes (input Binary64.net11)) Binary64.x11 ∧
  Forall (is_column (output_nb_nodes Binary64.net11))
         [Binary64.y11a; Binary64.y11b; Binary64.y11c] ∧
  ∃ sums1 sums2 sums,
    SGD_gradient_sums [Binary64.x11; Binary64.x11] [Binary64.y11a; Binary64.y11b] 2
                      Binary64.net11
    = Ok (sums1, Binary64.net11) ∧
    SGD_gradient_sums [Binary64.x11; Binary64.x11] [Binary64.y11c; Binary64.y11c] 2
                      Binary64.net11
    = Ok (sums2, Binary64.net11) ∧
    SGD_gradient_sums ([Binary64.x11; Binary64.x11] ++ [Binary64.x11; Binary64.x11])
                      ([Binary64.y11a; Binary64.y11b] ++ [Binary64.y11c; Binary64.y11c]) 4
                      Binary64.net11
    = Ok (sums, Binary64.net11) ∧
    sums.2 = [mkMatrix 1 1 [Binary64.float_of_int (2 ^ 53)]] ∧
    zip_with madd sums1.2 sums2.2 = [mkMatrix 1 1 [Binary64.float_of_int (2 ^ 53 + 2)]] ∧
    sums.2 ≠ zip_with madd sums1.2 sums2.2.
Proof.
  split; [reflexivity|]. split; [simpl; lia|]. split; [by split|].
  split; [repeat constructor|].
  eexists. eexists. eexists.
  split; [vm_compute; reflexivity|]. split; [vm_compute; reflexivity|].
  split; [vm_compute; reflexivity|].
  split; [vm_compute; reflexivity|]. split; [vm_compute; reflexivity|].
  intros Heq.
  apply (f_equal (fun ms => match ms with
                            | [m] => match matrix m with
                                     | [v] => PrimFloat.ltb v
                                                (Binary64.float_of_int (2 ^ 53 + 2))
                                     | _ => false
                                     end
                            | _ => false
                            end)) in Heq.
  vm_compute in Heq. discriminate Heq.
Qed.

(** C5 on the sizes [2; 1]. *)
Lemma FNN_new_shapes_witness :
  (2 ≤ length [2; 1])%nat ∧ Forall (fun n => 0 < n) [2; 1] ∧
  ∃ net : FNN R, FNN_new [2; 1] = Ok net ∧ length (fully_connected_layers net) = 1%nat.
Proof.
  assert (Hpos : Forall (fun n => 0 < n) [2; 1]) by (repeat constructor; lia).
  split; [simpl; lia|]. split; [exact Hpos|].
  destruct (FNN_new_shapes (T := R) [2; 1] ltac:(simpl; lia) Hpos) as (net & Hnet & Hlen & _).
  by exists net.
Defined.

(** C7, as the program has it, on the single size [5]. *)
Lemma FNN_new_accepts_positive_sizes_witness :
  (1 ≤ length [5])%nat ∧ Forall (fun n => 0 < n) [5] ∧
  ∃ net : FNN R, FNN_new [5] = Ok net ∧ nb_fully_connected_layers net = 0.
Proof.
  assert (Hpos : Forall (fun n => 0 < n) [5]) by (repeat constructor; lia).
  split; [simpl; lia|]. split; [exact Hpos|].
  destruct (FNN_new_accepts_positive_sizes (T := R) [5] ltac:(simpl; lia) Hpos)
    as (net & Hnet & _ & Hnb & _).
  by exists net.
Defined.

(** C7: the claim, as stated, fails.  The sequence [5] has fewer than two
    entries, and the constructor returns a network for it: the input layer
    and no fully connected layer. *)
Lemma FNN_new_single_size_accepted :
  (length [5] < 2)%nat ∧
  FNN_new (T := R) [5] = Ok (mkFNN [5] (mkInputLayer 5) 0 []).
Proof. split; [simpl; lia|reflexivity]. Qed.



(** In binary64 the logistic function reaches 1 and 0.  With the bias 40
    the output of the network is [1/(1+exp(-40))], and [feedforward] returns
    exactly 1, the exponential being below half the distance from 1 to the
    next number; with the bias -800 the exponential overflows and
    [feedforward] returns exactly 0. *)
Lemma feedforward_saturates :
  network_okb (Binary64.net11_bias 40) = true ∧
  1 <= nb_fully_connected_layers (Binary64.net11_bias 40) ∧
  is_column (get_nb_nodes (input (Binary64.net11_bias 40))) Binary64.x11 ∧
  feedforward Binary64.x11 (Binary64.net11_bias 40)
  = Ok (mkMatrix 1 1 [Binary64.float_of_int 1], Binary64.net11_bias 40) ∧
  feedforward Binary64.x11 (Binary64.net11_bias (-800))
  = Ok (mkMatrix 1 1 [Binary64.float_of_int 0], Binary64.net11_bias (-800)).
Proof.
  split; [reflexivity|]. split; [simpl; lia|]. split; [by split|].
  split; vm_compute; reflexivity.
Qed.


(** C10 on the sizes [2; 2; 2]: the two fully connected layers have two
    nodes each and a predecessor of two nodes, and the same parameters. *)
Lemma FNN_new_deterministic_witness :
  FNN_new [2; 2; 2] = Ok net222 ∧
  ∃ layer1 layer2,
    fully_connected_layers net222 !! 0%nat = Some layer1 ∧
    fully_connected_layers net222 !! 1%nat = Some layer2 ∧
    W layer1 = W layer2 ∧ B layer1 = B layer2.
Proof.
  assert (Hnew : FNN_new (T := R) [2; 2; 2] = Ok net222) by reflexivity.
  split; [exact Hnew|]. eexists. eexists.
  split; [reflexivity|]. split; [reflexivity|].
  apply (proj2 (FNN_new_deterministic [2; 2; 2] [2; 2; 2] net222 net222 Hnew Hnew)
               0%nat 1%nat); reflexivity.
Defined.

End Examples.

(** * Further properties of the program *)

(** ** Shapes along inference and backpropagation *)

Section ShapeTheorems.
Context {T : Type} `{Scalar T}.
Implicit Types (net : FNN T) (X x y : Matrix T).

Lemma output_nb_nodes_lookup net n0 sizes :
  layers net = n0 :: sizes → get_nb_nodes (input net) = n0 →
  chain_okb n0 sizes (fully_connected_layers net) = true →
  (n0 :: sizes) !! length (fully_connected_layers net) = Some (output_nb_nodes net).
Proof.
  intros Hsz Hin Hchain. unfold output_nb_nodes.
  destruct (last (fully_connected_layers net)) as [l|] eqn:Hlast.
  - by apply output_nb_nodes_last.
  - apply last_None in Hlast. rewrite Hlast. simpl. by rewrite Hin.
Qed.

(** X1. On a well-formed network (with any number of fully connected layers)
    and an input column of the height of the input layer, every activation
    that [feedforward_complete] returns is a column with as many rows as its
    layer has nodes, and [feedforward] returns a column with as many rows as
    the last layer has nodes. *)
Theorem activations_are_columns net X :
  network_okb net = true →
  is_column (get_nb_nodes (input net)) X →
  ∃ activations out,
    feedforward_complete X net = Ok (activations, net) ∧
    feedforward X net = Ok (out, net) ∧
    is_column (output_nb_nodes net) out ∧
    ∀ k a, activations !! k = Some a →
      ∃ n, layers net !! k = Some n ∧ is_column n a.
Proof.
  intros Hok HX.
  pose proof Hok as (Hnb & n0 & sizes & Hsz & Hin & Hchain)%network_okb_spec.
  exists (X :: activations_from X (fully_connected_layers net)),
         (final_activation X (fully_connected_layers net)).
  split; [by apply feedforward_complete_spec|].
  split; [by apply feedforward_spec|].
  assert (Hcols : ∀ k a,
            (X :: activations_from X (fully_connected_layers net)) !! k = Some a →
            ∃ n, layers net !! k = Some n ∧ is_column n a).
  { intros k a Hk. rewrite Hsz. eapply trace_columns; [done| |done]. by rewrite <- Hin. }
  split; [|done].
  destruct (Hcols _ _ (final_activation_lookup (fully_connected_layers net) X))
    as (n & Hn & Hcol).
  rewrite Hsz, (output_nb_nodes_lookup net n0 sizes Hsz Hin Hchain) in Hn.
  by injection Hn as <-.
Qed.

(** X2. Each gradient that [backpropagation_cross_entropy] returns has the
    shape of the parameter that it is the gradient of: the weight gradient of
    layer [k] has the shape of [W[k]], its bias gradient the shape of
    [B[k]]. *)
Theorem gradients_have_parameter_shapes net x y :
  network_okb net = true →
  1 <= nb_fully_connected_layers net →
  is_column (get_nb_nodes (input net)) x →
  is_column (output_nb_nodes net) y →
  ∃ NablaW NablaB,
    backpropagation_cross_entropy x y net = Ok ((NablaW, NablaB), net) ∧
    ∀ k layer, fully_connected_layers net !! k = Some layer →
      ∃ gw gb, NablaW !! k = Some gw ∧ NablaB !! k = Some gb ∧
               get_I gw = get_I (W layer) ∧ get_J gw = get_J (W layer) ∧
               get_I gb = get_I (B layer) ∧ get_J gb = get_J (B layer).
Proof.
  intros Hok HL Hx Hy.
  destruct (backpropagation_cross_entropy_spec net x y Hok HL Hx Hy)
    as (cw & cb & Hrun & _ & _ & _ & Hshapes).
  pose proof Hok as (Hnb & n0 & sizes & Hsz & Hin & Hchain)%network_okb_spec.
  exists cw, cb. split; [done|].
  intros k layer Hk.
  destruct (Hshapes k) as (sp & s & gw & gb & Hsp & Hs & Hgw & Hgb & ? & ? & ? & ?).
  { by eapply lookup_lt_Some. }
  destruct (chain_okb_lookup _ _ _ _ _ Hchain Hk) as (sp' & s' & Hsp' & Hs' & Hl).
  apply layer_okb_spec in Hl as (_ & ? & ? & ? & ?).
  rewrite Hsz in Hsp, Hs.
  exists gw, gb. repeat split; congruence.
Qed.

(** X3. [feedforward] does not check its input: on a well-formed network
    with at least one fully connected layer, an input whose number of rows is
    not the node count of the input layer reaches the first matrix product,
    and the call stops there with a shape mismatch; so do
    [feedforward_complete] and [backpropagation_cross_entropy]. *)
Theorem wrong_input_height_is_fatal net X y :
  network_okb net = true →
  1 <= nb_fully_connected_layers net →
  get_I X ≠ get_nb_nodes (input net) →
  feedforward X net = Fatal ShapeMismatch ∧
  feedforward_complete X net = Fatal ShapeMismatch ∧
  backpropagation_cross_entropy X y net = Fatal ShapeMismatch.
Proof.
  intros Hok HL HX.
  pose proof Hok as (Hnb & n0 & sizes & Hsz & Hin & Hchain)%network_okb_spec.
  destruct (fully_connected_layers net) as [|l fcs] eqn:Hfcs; [simpl in Hnb; lia|].
  destruct sizes as [|n1 sizes]; [done|].
  simpl in Hchain. apply andb_prop in Hchain as [Hl _].
  apply layer_okb_spec in Hl as (_ & _ & HJ & _ & _).
  assert (Hn : Z.to_nat (nb_fully_connected_layers net) = S (length fcs)).
  { rewrite Hnb. simpl length. lia. }
  assert (Hmul : Matrix_mul_assign (Matrix_copy (W l)) X = Fatal ShapeMismatch).
  { unfold Matrix_mul_assign, Matrix_mul, Matrix_copy.
    destruct (Z.eqb_spec (get_J (W l)) (get_I X)); [congruence|done]. }
  assert (Hcomplete : feedforward_complete X net = Fatal ShapeMismatch).
  { unfold feedforward_complete. rewrite bind_member, Hn.
    cbn [feedforward_complete_loop].
    rewrite (bind_get_layer 0 l) by (by rewrite Hfcs).
    rewrite (bind_lift _ X) by done.
    unfold method_bind at 1. unfold lift at 1. by rewrite Hmul. }
  split; [|split; [done|]].
  - unfold feedforward. rewrite bind_member, Hn.
    unfold method_bind at 1. cbn [feedforward_loop].
    rewrite (bind_get_layer 0 l) by (by rewrite Hfcs).
    rewrite (bind_lift _ X) by done.
    unfold method_bind at 1. unfold lift at 1. by rewrite Hmul.
  - unfold backpropagation_cross_entropy. unfold method_bind at 1.
    by rewrite Hcomplete.
Qed.

(** X4. [backpropagation_cross_entropy] does not check the expected output
    either: when its shape is not that of the last layer's activation, the
    forward pass runs to its end and the call stops at the first subtraction
    with a shape mismatch. *)
Theorem wrong_output_shape_is_fatal net x y :
  network_okb net = true →
  1 <= nb_fully_connected_layers net →
  is_column (get_nb_nodes (input net)) x →
  ¬ is_column (output_nb_nodes net) y →
  (∃ activations, feedforward_complete x net = Ok (activations, net)) ∧
  backpropagation_cross_entropy x y net = Fatal ShapeMismatch.
Proof.
  intros Hok HL Hx Hy.
  pose proof Hok as (Hnb & n0 & sizes & Hsz & Hin & Hchain)%network_okb_spec.
  split; [eexists; by apply feedforward_complete_spec|].
  set (fcs := fully_connected_layers net) in *.
  set (A := x :: activations_from x fcs).
  assert (HA : length A = S (length fcs)).
  { subst A. simpl. by rewrite activations_from_length. }
  destruct (lookup_lt_is_Some_2 A (length fcs)) as [aL HaL]; [lia|].
  destruct (lookup_lt_is_Some_2 A (length fcs - 1)) as [aL1 HaL1]; [lia|].
  assert (HaLcol : is_column (output_nb_nodes net) aL).
  { rewrite <- Hin in Hchain.
    destruct (trace_columns fcs _ sizes x _ _ Hchain Hx HaL) as (s & Hs & Hcol).
    rewrite Hin in Hs, Hchain.
    pose proof (output_nb_nodes_lookup net n0 sizes Hsz Hin Hchain) as Ho.
    fold fcs in Ho. rewrite Ho in Hs. by injection Hs as <-. }
  unfold backpropagation_cross_entropy.
  rewrite (bind_ok _ _ _ _ _ (feedforward_complete_spec net x Hok Hx)).
  fold fcs. fold A. rewrite bind_member, Hnb.
  rewrite (bind_lift _ aL)
    by (apply slot_read_lookup; rewrite list_lookup_fmap, HaL; done).
  replace (Z.of_nat (length fcs) - 1) with (Z.of_nat (length fcs - 1)) by lia.
  rewrite (bind_lift _ aL1)
    by (apply slot_read_lookup; rewrite list_lookup_fmap, HaL1; done).
  unfold method_bind at 1. unfold lift at 1.
  unfold Matrix_sub_assign, Matrix_copy.
  destruct (same_shape aL y) eqn:Hsame; [|done].
  apply same_shape_inv in Hsame as [HI HJ].
  destruct HaLcol as [HaI HaJ]. destruct Hy. split; congruence.
Qed.

End ShapeTheorems.

(** ** A network without fully connected layers *)

Lemma vec_at_fault {A} (v : list A) i e : vec_at v i = Fatal e → e = OutOfRange.
Proof.
  unfold vec_at. destruct (i <? 0); [congruence|].
  destruct (v !! Z.to_nat i); congruence.
Qed.

Section ZeroLayers.
Context {T : Type} `{Scalar T}.
Implicit Types (net : FNN T) (X x y : Matrix T).

(** X5. When [nb_fully_connected_layers] is 0 (the network that the
    constructor builds for a single size), [feedforward] returns its input,
    whatever its shape, and [feedforward_complete] the input alone;
    [backpropagation_cross_entropy] reads [activations[-1]] and has no
    defined result, and so has [SGD_batch] for every batch length of 1 or
    more, while for a batch length of 0 or less it returns with the network
    unchanged. *)
Theorem zero_layer_network net X y batch_input batch_output training_set_len batch_len
    eta alpha :
  nb_fully_connected_layers net = 0 →
  feedforward X net = Ok (X, net) ∧
  feedforward_complete X net = Ok ([X], net) ∧
  backpropagation_cross_entropy X y net = Fatal OutOfRange ∧
  SGD_batch batch_input batch_output training_set_len batch_len eta alpha net
  = if 1 <=? batch_len then Fatal OutOfRange else Ok (tt, net).
Proof.
  intros Hnb.
  assert (Hff : feedforward_complete X net = Ok ([X], net)).
  { unfold feedforward_complete. by rewrite bind_member, Hnb. }
  assert (Hbp : ∀ x' y', backpropagation_cross_entropy x' y' net = Fatal OutOfRange).
  { intros x' y'. unfold backpropagation_cross_entropy.
    assert (Hff' : feedforward_complete x' net = Ok ([x'], net)).
    { unfold feedforward_complete. by rewrite bind_member, Hnb. }
    rewrite (bind_ok _ _ _ _ _ Hff').
    rewrite bind_member, Hnb.
    rewrite (bind_lift _ x') by reflexivity. reflexivity. }
  split; [|split; [done|split; [done|]]].
  - unfold feedforward. rewrite bind_member, Hnb. done.
  - unfold SGD_batch, SGD_gradient_sums.
    unfold method_bind at 1. rewrite bind_member, Hnb.
    change (Z.to_nat 0) with 0%nat. cbn [SGD_create_nablas]. rewrite bind_ret.
    cbn [fst snd].
    destruct (Z.leb_spec 1 batch_len) as [Hb|Hb].
    + destruct (Z.to_nat batch_len) as [|n] eqn:Hn; [lia|].
      cbn [SGD_sum_nablas].
      destruct (vec_at batch_input 0) as [x'|e] eqn:Hx.
      2:{ apply vec_at_fault in Hx as ->. done. }
      rewrite (bind_lift _ x') by done.
      destruct (vec_at batch_output 0) as [y'|e] eqn:Hy.
      2:{ apply vec_at_fault in Hy as ->. done. }
      rewrite (bind_lift _ y') by done.
      unfold method_bind at 1. by rewrite Hbp.
    + replace (Z.to_nat batch_len) with 0%nat by lia.
      cbn [SGD_sum_nablas]. unfold method_ret at 1. cbn [fst snd].
      by rewrite bind_member, Hnb.
Qed.

End ZeroLayers.

(** ** Training steps *)

Section TrainingSteps.
Context {T : Type} `{Scalar T}.
Implicit Types (net this : FNN T) (X x y : Matrix T) (xs ys : list (Matrix T)).

Lemma method_bind_ext {A C} (c : method T A) (k k' : A → method T C) this :
  (∀ a this', k a this' = k' a this') → method_bind c k this = method_bind c k' this.
Proof.
  intros Hk. unfold method_bind. destruct (c this) as [[a this']|e]; [apply Hk|done].
Qed.

Lemma bind_fatal {A C} (c : method T A) (k : A → method T C) this e :
  c this = Fatal e → method_bind c k this = Fatal e.
Proof. intros Hc. unfold method_bind. by rewrite Hc. Qed.

Lemma final_activation_column net X :
  network_okb net = true →
  is_column (get_nb_nodes (input net)) X →
  is_column (output_nb_nodes net) (final_activation X (fully_connected_layers net)).
Proof.
  intros Hok HX.
  pose proof Hok as (Hnb & n0 & sizes & Hsz & Hin & Hchain)%network_okb_spec.
  pose proof (final_activation_lookup (fully_connected_layers net) X) as Hlast.
  rewrite <- Hin in Hchain.
  destruct (trace_columns _ _ _ _ _ _ Hchain HX Hlast) as (n & Hn & Hcol).
  rewrite Hin in Hn, Hchain.
  rewrite (output_nb_nodes_lookup net n0 sizes Hsz Hin Hchain) in Hn.
  by injection Hn as <-.
Qed.

(** What [SGD_batch] keeps of a network. *)
Lemma SGD_batch_invariant net xs ys training_set_len eta alpha :
  network_okb net = true →
  1 <= nb_fully_connected_layers net →
  length xs = length ys →
  Forall (valid_example net) (zip xs ys) →
  ∃ net',
    SGD_batch xs ys training_set_len (Z.of_nat (length xs)) eta alpha net = Ok (tt, net') ∧
    network_okb net' = true ∧
    layers net' = layers net ∧
    nb_fully_connected_layers net' = nb_fully_connected_layers net ∧
    get_nb_nodes (input net') = get_nb_nodes (input net) ∧
    output_nb_nodes net' = output_nb_nodes net.
Proof.
  intros Hok HL Hlen Hval.
  destruct (SGD_batch_spec net xs ys training_set_len eta alpha Hok HL Hlen Hval)
    as (grads & net' & _ & Hrun & Hlay & Hinp & Hnb & Hlen' & Hup).
  exists net'. split; [done|].
  split; [by eapply SGD_batch_network_ok|].
  split; [done|]. split; [done|]. split; [by rewrite Hinp|].
  unfold output_nb_nodes. rewrite !last_lookup, Hlen', Hinp.
  destruct (fully_connected_layers net !! Nat.pred (length (fully_connected_layers net)))
    as [l|] eqn:Hl.
  - destruct (Hup _ _ Hl) as (gw & gb & _ & _ & ->). done.
  - apply lookup_ge_None in Hl.
    rewrite (lookup_ge_None_2 (fully_connected_layers net')) by lia. done.
Qed.

(** X6. One call of [SGD_batch] on a batch of valid examples keeps the
    network well formed, with the same size sequence, the same number of
    layers and the same input and output heights: what was a valid example
    before the update is one after it. *)
Theorem SGD_batch_keeps_network_well_formed net xs ys training_set_len eta alpha :
  network_okb net = true →
  1 <= nb_fully_connected_layers net →
  length xs = length ys →
  Forall (valid_example net) (zip xs ys) →
  ∃ net',
    SGD_batch xs ys training_set_len (Z.of_nat (length xs)) eta alpha net = Ok (tt, net') ∧
    network_okb net' = true ∧
    layers net' = layers net ∧
    nb_fully_connected_layers net' = nb_fully_connected_layers net ∧
    (∀ xy, valid_example net' xy ↔ valid_example net xy).
Proof.
  intros Hok HL Hlen Hval.
  destruct (SGD_batch_invariant net xs ys training_set_len eta alpha Hok HL Hlen Hval)
    as (net' & Hrun & Hok' & Hlay & Hnb & Hin & Hout).
  exists net'. repeat (split; [done|]).
  intros xy. unfold valid_example. by rewrite Hin, Hout.
Qed.

(** X7. Training steps compose, and inference follows them: after a call of
    [SGD_batch] on one batch of valid examples, a second call on another
    batch of examples valid for the original network runs to its end, and
    [feedforward] on the network so trained returns a column with as many
    rows as the last layer has nodes. *)
Theorem SGD_batch_twice_then_feedforward net xs1 ys1 xs2 ys2 X
    training_set_len eta alpha :
  network_okb net = true →
  1 <= nb_fully_connected_layers net →
  length xs1 = length ys1 →
  length xs2 = length ys2 →
  Forall (valid_example net) (zip xs1 ys1) →
  Forall (valid_example net) (zip xs2 ys2) →
  is_column (get_nb_nodes (input net)) X →
  ∃ net1 net2 out,
    SGD_batch xs1 ys1 training_set_len (Z.of_nat (length xs1)) eta alpha net
    = Ok (tt, net1) ∧
    SGD_batch xs2 ys2 training_set_len (Z.of_nat (length xs2)) eta alpha net1
    = Ok (tt, net2) ∧
    feedforward X net2 = Ok (out, net2) ∧
    is_column (output_nb_nodes net) out.
Proof.
  intros Hok HL Hlen1 Hlen2 Hval1 Hval2 HX.
  destruct (SGD_batch_invariant net xs1 ys1 training_set_len eta alpha Hok HL Hlen1 Hval1)
    as (net1 & Hrun1 & Hok1 & Hlay1 & Hnb1 & Hin1 & Hout1).
  assert (Hval2' : Forall (valid_example net1) (zip xs2 ys2)).
  { eapply Forall_impl; [exact Hval2|]. intros xy. unfold valid_example.
    by rewrite Hin1, Hout1. }
  destruct (SGD_batch_invariant net1 xs2 ys2 training_set_len eta alpha Hok1
              ltac:(by rewrite Hnb1) Hlen2 Hval2')
    as (net2 & Hrun2 & Hok2 & Hlay2 & Hnb2 & Hin2 & Hout2).
  assert (HX2 : is_column (get_nb_nodes (input net2)) X) by (by rewrite Hin2, Hin1).
  exists net1, net2, (final_activation X (fully_connected_layers net2)).
  split; [done|]. split; [done|].
  split; [by apply feedforward_spec|].
  rewrite <- Hout1, <- Hout2. by apply final_activation_column.
Qed.

(** *** The examples that a batch consists of *)

Lemma vec_at_ext {A} (v w : list A) (i : nat) :
  v !! i = w !! i → vec_at v (Z.of_nat i) = vec_at w (Z.of_nat i).
Proof. intros Hvw. unfold vec_at. by rewrite Nat2Z.id, Hvw. Qed.

Lemma SGD_sum_nablas_agree n : ∀ (i : nat) xs ys xs' ys' cw cb this,
  (∀ k, (k < n)%nat → xs !! (i + k)%nat = xs' !! (i + k)%nat ∧
                      ys !! (i + k)%nat = ys' !! (i + k)%nat) →
  SGD_sum_nablas n (Z.of_nat i) xs ys cw cb this
  = SGD_sum_nablas n (Z.of_nat i) xs' ys' cw cb this.
Proof.
  induction n as [|n IH]; intros i xs ys xs' ys' cw cb this Hagree; [done|].
  cbn [SGD_sum_nablas].
  destruct (Hagree 0%nat) as [Hx Hy]; [lia|]. rewrite Nat.add_0_r in Hx, Hy.
  rewrite (vec_at_ext xs xs' i Hx), (vec_at_ext ys ys' i Hy).
  apply method_bind_ext. intros x this1.
  apply method_bind_ext. intros y this2.
  apply method_bind_ext. intros delta this3.
  apply method_bind_ext. intros nb this4.
  apply method_bind_ext. intros sums this5.
  replace (Z.of_nat i + 1) with (Z.of_nat (S i)) by lia.
  apply IH. intros k Hk. replace (S i + k)%nat with (i + S k)%nat by lia.
  apply Hagree. lia.
Qed.

(** X8. [SGD_batch] reads the examples [0 .. batch_len-1] of its two vectors
    and nothing else of them: whatever the network and the arguments, the
    call has the result that it has on the vectors cut after [batch_len]
    entries. *)
Theorem SGD_batch_reads_batch_len_examples net xs ys training_set_len batch_len eta alpha :
  SGD_batch xs ys training_set_len batch_len eta alpha net
  = SGD_batch (take (Z.to_nat batch_len) xs) (take (Z.to_nat batch_len) ys)
              training_set_len batch_len eta alpha net.
Proof.
  unfold SGD_batch, SGD_gradient_sums. unfold method_bind at 1 4.
  rewrite !bind_member.
  assert (Hsums : ∀ c this,
    method_bind c (fun zeros => SGD_sum_nablas (Z.to_nat batch_len) 0 xs ys
                                  zeros.1 zeros.2) this
    = method_bind c (fun zeros => SGD_sum_nablas (Z.to_nat batch_len) 0
                                    (take (Z.to_nat batch_len) xs)
                                    (take (Z.to_nat batch_len) ys)
                                    zeros.1 zeros.2) this).
  { intros c this. apply method_bind_ext. intros zeros this'.
    apply (SGD_sum_nablas_agree _ 0). intros k Hk.
    by rewrite !lookup_take_lt by (simpl; lia). }
  by rewrite Hsums.
Qed.

Lemma SGD_sum_nablas_past_end this xs : ∀ ys pre_i pre_o sums m,
  network_okb this = true →
  1 <= nb_fully_connected_layers this →
  length xs = length ys → length pre_i = length pre_o →
  Forall (valid_example this) (zip xs ys) →
  gradient_shapes this sums.1 sums.2 →
  SGD_sum_nablas (length xs + S m) (Z.of_nat (length pre_i)) (pre_i ++ xs) (pre_o ++ ys)
                 sums.1 sums.2 this
  = Fatal OutOfRange.
Proof.
  induction xs as [|x xs IH]; intros ys pre_i pre_o sums m Hok HL Hlen Hpre Hval Hs.
  - cbn [length Nat.add SGD_sum_nablas]. apply bind_fatal.
    unfold lift, vec_at. rewrite Nat2Z.id, app_nil_r.
    destruct (Z.ltb_spec (Z.of_nat (length pre_i)) 0); [done|].
    by rewrite lookup_ge_None_2.
  - destruct ys as [|y ys]; [done|]. simpl in Hval.
    inversion Hval as [|? ? [Hx Hy] Hval']. subst.
    destruct (backpropagation_cross_entropy_spec this x y Hok HL Hx Hy)
      as (dW & dB & Hrun & _ & Hshape).
    pose proof (gradient_shapes_add this sums (dW, dB) Hs Hshape) as Hs'.
    pose proof (IH ys (pre_i ++ [x]) (pre_o ++ [y]) (add_nablas sums (dW, dB)) m) as Hloop.
    cbn [length Nat.add SGD_sum_nablas].
    rewrite (bind_lift _ x) by apply vec_at_middle.
    rewrite (bind_lift _ y) by (rewrite Hpre; apply vec_at_middle).
    rewrite (bind_ok _ _ _ _ _ Hrun). rewrite bind_member.
    pose proof Hok as (Hnb & _)%network_okb_spec. rewrite Hnb, Nat2Z.id.
    rewrite (bind_ok _ _ _ _ _ (SGD_add_nablas_spec this sums (dW, dB) Hs Hshape)).
    replace (Z.of_nat (length pre_i) + 1) with (Z.of_nat (length (pre_i ++ [x])))
      by (rewrite length_app; simpl; lia).
    rewrite <- !app_assoc in Hloop. cbn [app] in Hloop. apply Hloop; try done.
    + simpl in Hlen. lia.
    + rewrite !length_app. simpl. lia.
Qed.

(** X9. [SGD_batch] does not compare [batch_len] with the size of its
    vectors: when [batch_len] exceeds the number of examples passed (all of
    them valid), the examples present are processed and the call then reads
    [batch_input] past its end, with no defined result; the parameters have
    not been updated at that point. *)
Theorem SGD_batch_short_batch_is_fatal net xs ys training_set_len batch_len eta alpha :
  network_okb net = true →
  1 <= nb_fully_connected_layers net →
  length xs = length ys →
  Forall (valid_example net) (zip xs ys) →
  Z.of_nat (length xs) < batch_len →
  SGD_gradient_sums xs ys batch_len net = Fatal OutOfRange ∧
  SGD_batch xs ys training_set_len batch_len eta alpha net = Fatal OutOfRange.
Proof.
  intros Hok HL Hlen Hval Hshort.
  pose proof Hok as (Hnb & n0 & sizes & Hsz & Hin & Hchain)%network_okb_spec.
  pose proof (chain_okb_length _ _ _ Hchain) as Hlen'.
  assert (Hsums : SGD_gradient_sums xs ys batch_len net = Fatal OutOfRange).
  { unfold SGD_gradient_sums. rewrite bind_member, Hnb, !Nat2Z.id.
    assert (Hfit : (0 + length (fully_connected_layers net) < length (layers net))%nat)
      by (rewrite Hsz; simpl; lia).
    rewrite (bind_ok _ _ _ _ _ (SGD_create_nablas_spec _ 0 [] [] net Hfit)).
    replace (Z.to_nat batch_len)
      with (length xs + S (Z.to_nat batch_len - length xs - 1))%nat by lia.
    simpl app.
    replace (length (fully_connected_layers net))
      with (length (layers net) - 1)%nat by (rewrite Hsz; simpl; lia).
    apply (SGD_sum_nablas_past_end net xs ys [] [] (zero_nablas (layers net))); try done.
    by apply zero_nablas_shapes. }
  split; [done|]. unfold SGD_batch. by apply bind_fatal.
Qed.

End TrainingSteps.

(** ** From construction to inference *)

Section Pipeline.
Context {T : Type} `{Scalar T} `{RandomEngine T}.

(** X10. The constructor establishes what the methods rely on: for a
    sequence of positive sizes it returns a well-formed network whose input
    layer has the first size and whose last layer has the last size, and
    [feedforward] on a column of the first size's height returns a column of
    the last size's height, leaving the network as constructed. *)
Theorem FNN_new_then_feedforward (sizes : list Z) (n0 nL : Z) :
  Forall (fun n => 0 < n) sizes →
  head sizes = Some n0 →
  last sizes = Some nL →
  ∃ net : FNN T,
    FNN_new sizes = Ok net ∧
    network_okb net = true ∧
    get_nb_nodes (input net) = n0 ∧
    output_nb_nodes net = nL ∧
    ∀ X, is_column n0 X →
      ∃ out, feedforward X net = Ok (out, net) ∧ is_column nL out.
Proof.
  intros Hpos Hhead Hlast.
  destruct (FNN_new_total sizes) as [net Hnew]; [|done|].
  { destruct sizes; [done|simpl; lia]. }
  pose proof (FNN_new_network_ok sizes net Hpos Hnew) as Hok.
  pose proof Hnew as (Hlay & Hin0 & Hnb & Hlen & _)%FNN_new_inv.
  pose proof Hok as (_ & m0 & rest & Hsz & Hin & Hchain)%network_okb_spec.
  assert (Hn0 : get_nb_nodes (input net) = n0).
  { destruct sizes; [done|]. simpl in Hhead, Hin0. congruence. }
  assert (HnL : output_nb_nodes net = nL).
  { pose proof (output_nb_nodes_lookup net m0 rest Hsz Hin Hchain) as Ho.
    rewrite <- Hsz, Hlay, Hlen in Ho. rewrite last_lookup in Hlast.
    replace (Nat.pred (length sizes)) with (length sizes - 1)%nat in Hlast by lia.
    congruence. }
  exists net. repeat (split; [done|]).
  intros X HX. exists (final_activation X (fully_connected_layers net)).
  rewrite <- Hn0 in HX.
  split; [by apply feedforward_spec|].
  rewrite <- HnL. by apply final_activation_column.
Qed.

End Pipeline.

(** ** Reading the data sets *)

Section StreamFacts.
Implicit Types (file : ifstream) (s chunk rest : list Z) (rd : reader).

Lemma ifstream_read_exact file s chunk rest n :
  failbit file = false →
  pending file = chunk ++ rest →
  length chunk = Z.to_nat n →
  length s = length chunk →
  ifstream_read file s n = Ok (chunk, mkIfstream rest false).
Proof.
  intros Hgood Hpending Hn Hs. unfold ifstream_read.
  rewrite Hgood, Hpending, take_app_length', drop_app_length' by done.
  rewrite (drop_ge s) by lia. rewrite app_nil_r.
  destruct (Nat.ltb_spec (length s) (length chunk)); [lia|].
  by rewrite Hn, Nat.ltb_irrefl.
Qed.

Lemma ifstream_read_exhausted file s n :
  exhausted file →
  ∃ file', ifstream_read file s n = Ok (s, file') ∧ exhausted file'.
Proof.
  intros Hex. unfold ifstream_read.
  destruct (failbit file) eqn:Hfail.
  - exists file. split; [done|]. by left.
  - destruct Hex as [Hex|Hex]; [congruence|]. rewrite Hex, take_nil, drop_nil. simpl.
    eexists. split; [done|]. by right.
Qed.

Lemma read_image_exact rd chunk rest :
  failbit (file_images rd) = false →
  pending (file_images rd) = chunk ++ rest →
  length chunk = Z.to_nat image_len →
  length (image rd) = Z.to_nat image_len →
  read_image rd image_len
  = Ok (mkReader (mkIfstream rest false) (file_labels rd) chunk (label rd)).
Proof.
  intros Hgood Hpending Hn Hs. unfold read_image.
  by rewrite (ifstream_read_exact _ _ chunk rest) by (done || congruence).
Qed.

Lemma read_label_exact rd l rest :
  failbit (file_labels rd) = false →
  pending (file_labels rd) = l :: rest →
  length (label rd) = 1%nat →
  read_label rd label_len
  = Ok (mkReader (file_images rd) (mkIfstream rest false) (image rd) [l]).
Proof.
  intros Hgood Hpending Hs. unfold read_label.
  by rewrite (ifstream_read_exact _ _ [l] rest) by done.
Qed.

Lemma read_image_exhausted rd n :
  exhausted (file_images rd) →
  ∃ file', read_image rd n = Ok (mkReader file' (file_labels rd) (image rd) (label rd)) ∧
           exhausted file'.
Proof.
  intros Hex. destruct (ifstream_read_exhausted _ (image rd) n Hex) as (file' & Hread & Hex').
  exists file'. split; [|done]. unfold read_image. by rewrite Hread.
Qed.

Lemma read_label_exhausted rd n :
  exhausted (file_labels rd) →
  ∃ file', read_label rd n = Ok (mkReader (file_images rd) file' (image rd) (label rd)) ∧
           exhausted file'.
Proof.
  intros Hex. destruct (ifstream_read_exhausted _ (label rd) n Hex) as (file' & Hread & Hex').
  exists file'. split; [|done]. unfold read_label. by rewrite Hread.
Qed.

(** The header of the label file does not fit the buffer that receives
    it. *)
Lemma read_headers_overrun (images labels : ifstream)
    (indeterminate_image indeterminate_label : nat → Z) :
  failbit labels = false →
  (2 ≤ length (pending labels))%nat →
  read_headers images labels indeterminate_image indeterminate_label = Fatal OutOfRange.
Proof.
  intros Hgood Hlen. unfold read_headers, read_image, read_label.
  cbv zeta. cbn [file_images file_labels image label].
  assert (Himage : ∃ r, ifstream_read images
                          (new_unsigned_char image_len indeterminate_image) 16
                        = Ok r).
  { unfold ifstream_read. destruct (failbit images); [by eexists|].
    destruct (Nat.ltb_spec (length (new_unsigned_char image_len indeterminate_image))
                (length (take (Z.to_nat 16) (pending images)))) as [Hlt|_]; [|by eexists].
    unfold new_unsigned_char in Hlt.
    rewrite length_map, length_seq, length_take in Hlt.
    change (Z.to_nat image_len) with 784%nat in Hlt.
    change (Z.to_nat 16) with 16%nat in Hlt. lia. }
  destruct Himage as [r ->]. cbn [rbind file_labels label].
  unfold ifstream_read. rewrite Hgood.
  destruct (Nat.ltb_spec (length (new_unsigned_char label_len indeterminate_label))
              (length (take (Z.to_nat 8) (pending labels)))) as [_|Hge]; [done|].
  unfold new_unsigned_char in Hge. rewrite length_map, length_seq, length_take in Hge.
  change (Z.to_nat label_len) with 1%nat in Hge.
  change (Z.to_nat 8) with 8%nat in Hge. lia.
Qed.

End StreamFacts.

Section DataSetTheorems.
Context {T : Type} `{Scalar T} `{ScalarOrder T}.
Implicit Types (rd : reader) (input y : Matrix T).

(** X11. [train] and [test] allocate one byte for [label] and read the eight
    bytes of the label file's header into it: whenever the label file can be
    opened and holds two bytes or more (the header alone has eight), the read
    stores beyond the buffer, and neither function has a defined result,
    whatever the image file and the other arguments. *)
Theorem label_header_overruns_buffer (feedforward : Matrix T → result (Matrix T))
    (images labels : ifstream) (indeterminate_image indeterminate_label : nat → Z)
    (nb_images nb_images_to_skip : Z) :
  failbit labels = false →
  (2 ≤ length (pending labels))%nat →
  train_training_set (T := T) images labels indeterminate_image indeterminate_label
                     nb_images nb_images_to_skip
  = Fatal OutOfRange ∧
  test feedforward images labels indeterminate_image indeterminate_label
       nb_images nb_images_to_skip
  = Fatal OutOfRange.
Proof.
  intros Hgood Hlen. unfold train_training_set, test.
  by rewrite (read_headers_overrun images labels indeterminate_image indeterminate_label
                Hgood Hlen).
Qed.

(** *** The examples made of the images and labels *)

Lemma fill_input_loop (post : list Z) : ∀ (pre : list Z) (front old : list T) (I : Z),
  length front = length pre → length old = length post →
  fill_input (length post) (Z.of_nat (length pre)) (pre ++ post) (mkMatrix I 1 (front ++ old))
  = Ok (mkMatrix I 1 (front ++ map (fun b => sdiv (of_int b) (of_int 256)) post)).
Proof.
  induction post as [|b post IH]; intros pre front old I Hfront Hold.
  - destruct old; [done|]. done.
  - destruct old as [|o old]; [done|]. cbn [length fill_input].
    rewrite vec_at_middle. cbn [rbind].
    unfold Matrix_set. cbn [get_I get_J matrix].
    replace (Z.of_nat (length pre) * 1 + 0) with (Z.of_nat (length pre)) by lia.
    rewrite length_app. cbn [length].
    destruct (Z.leb_spec 0 (Z.of_nat (length pre))); [|lia].
    destruct (Z.ltb_spec (Z.of_nat (length pre))
                (Z.of_nat (length front + S (length old)))); [|lia].
    cbn [andb rbind]. rewrite Nat2Z.id, <- Hfront.
    rewrite (insert_app_r_alt front) by lia. rewrite Nat.sub_diag. cbn [insert list_insert].
    replace (Z.of_nat (length front) + 1) with (Z.of_nat (length (pre ++ [b])))
      by (rewrite length_app; simpl; lia).
    pose proof (IH (pre ++ [b]) (front ++ [sdiv (of_int b) (of_int 256)]) old I) as Hloop.
    rewrite <- !app_assoc in Hloop. cbn [app] in Hloop. rewrite Hloop.
    + done.
    + rewrite !length_app. simpl. lia.
    + simpl in Hold. lia.
Qed.

Lemma fill_input_spec (bytes : list Z) input :
  length bytes = Z.to_nat image_len →
  length (matrix input) = Z.to_nat image_len →
  get_J input = 1 →
  fill_input (Z.to_nat image_len) 0 bytes input
  = Ok (mkMatrix (get_I input) 1 (map (fun b => sdiv (of_int b) (of_int 256)) bytes)).
Proof.
  intros Hbytes Hlen HJ. destruct input as [I J old].
  cbn [matrix get_I get_J] in *. subst J.
  rewrite <- Hbytes.
  apply (fill_input_loop bytes [] [] old I); [done|congruence].
Qed.

Lemma fill_input_new (bytes : list Z) :
  length bytes = Z.to_nat image_len →
  fill_input (Z.to_nat image_len) 0 bytes (Matrix_new image_len 1) = Ok (scaled_image bytes).
Proof.
  intros Hbytes. rewrite fill_input_spec; [done|done| |done].
  unfold Matrix_new. cbn [matrix]. by rewrite length_replicate.
Qed.

Lemma one_hot_set (l : Z) :
  0 <= l < 10 → Matrix_set (Matrix_new 10 1) l 0 sone = Ok (one_hot l).
Proof.
  intros Hl. unfold Matrix_set, Matrix_new, one_hot. cbn [get_I get_J matrix].
  rewrite length_replicate. change (Z.of_nat (Z.to_nat (10 * 1))) with 10.
  replace (l * 1 + 0) with l by lia.
  destruct (Z.leb_spec 0 l); [|lia]. destruct (Z.ltb_spec l 10); [|lia]. done.
Qed.

Lemma one_hot_out_of_range (l : Z) :
  10 <= l → Matrix_set (T := T) (Matrix_new 10 1) l 0 sone = Fatal OutOfRange.
Proof.
  intros Hl. unfold Matrix_set, Matrix_new. cbn [get_I get_J matrix].
  rewrite length_replicate. change (Z.of_nat (Z.to_nat (10 * 1))) with 10.
  replace (l * 1 + 0) with l by lia.
  destruct (Z.ltb_spec l 10); [lia|]. by rewrite andb_false_r.
Qed.

(** One iteration of the loop on an image and a label that the files
    hold. *)
Lemma create_training_set_step n rd bytes l rest_i rest_l
    (training_input training_output : list (Matrix T)) :
  failbit (file_images rd) = false → failbit (file_labels rd) = false →
  pending (file_images rd) = bytes ++ rest_i →
  pending (file_labels rd) = l :: rest_l →
  length bytes = Z.to_nat image_len →
  length (image rd) = Z.to_nat image_len → length (label rd) = 1%nat →
  create_training_set (S n) rd training_input training_output
  = rbind (Matrix_set (Matrix_new 10 1) l 0 sone)
      (fun output =>
         create_training_set n
           (mkReader (mkIfstream rest_i false) (mkIfstream rest_l false) bytes [l])
           (training_input ++ [scaled_image bytes]) (training_output ++ [output])).
Proof.
  intros Hgi Hgl Hpi Hpl Hbytes Himage Hlabel. cbn [create_training_set].
  rewrite (read_image_exact rd bytes rest_i) by done. cbn [rbind image].
  rewrite fill_input_new by done. cbn [rbind].
  rewrite (read_label_exact _ l rest_l) by done. cbn [rbind label file_images image].
  done.
Qed.

Lemma create_training_set_data (images : list (list Z)) :
  ∀ (labels : list Z) rd rest_i rest_l m (training_input training_output : list (Matrix T)),
  length images = length labels →
  Forall (fun bytes => length bytes = Z.to_nat image_len) images →
  Forall (fun l => 0 <= l < 10) labels →
  failbit (file_images rd) = false → failbit (file_labels rd) = false →
  pending (file_images rd) = concat images ++ rest_i →
  pending (file_labels rd) = labels ++ rest_l →
  length (image rd) = Z.to_nat image_len → length (label rd) = 1%nat →
  ∃ rd',
    create_training_set (length images + m) rd training_input training_output
    = create_training_set m rd' (training_input ++ map scaled_image images)
                                (training_output ++ map one_hot labels) ∧
    file_images rd' = mkIfstream rest_i false ∧
    file_labels rd' = mkIfstream rest_l false ∧
    length (image rd') = Z.to_nat image_len ∧
    (∀ bytes l, last images = Some bytes → last labels = Some l →
                image rd' = bytes ∧ label rd' = [l]) ∧
    (images = [] → rd' = rd).
Proof.
  induction images as [|bytes images IH];
    intros labels rd rest_i rest_l m tin tout Hlen Hbytes Hlabels Hgi Hgl Hpi Hpl Himage Hlabel.
  - destruct labels; [|done]. exists rd. simpl in *. rewrite !app_nil_r.
    split; [done|]. destruct rd as [[pi fi] [pl fl] im la]. simpl in *. subst.
    repeat split; try done.
  - destruct labels as [|l labels]; [done|].
    inversion Hbytes as [|? ? Hb Hbytes']. inversion Hlabels as [|? ? Hl Hlabels']. subst.
    cbn [length Nat.add concat] in *. rewrite <- app_assoc in Hpi.
    rewrite (create_training_set_step _ rd bytes l (concat images ++ rest_i)
               (labels ++ rest_l)) by done.
    rewrite (one_hot_set l Hl). cbn [rbind].
    destruct (IH labels
                (mkReader (mkIfstream (concat images ++ rest_i) false)
                          (mkIfstream (labels ++ rest_l) false) bytes [l])
                rest_i rest_l m (tin ++ [scaled_image bytes]) (tout ++ [one_hot l]))
      as (rd' & Hrun & Hfi & Hfl & Hlen' & Hlast & Hnil); try done.
    { lia. }
    exists rd'. rewrite Hrun, <- !app_assoc. cbn [app map].
    split; [done|]. repeat (split; [done|]). split; [|done].
    intros bytes' l' Hlb Hll.
    destruct images as [|bytes2 images].
    + destruct labels; [|done]. rewrite (Hnil eq_refl). simpl in *. split; congruence.
    + destruct labels as [|l2 labels]; [done|]. apply Hlast; done.
Qed.

(** Once both files are exhausted the loop goes on with the buffers as they
    are. *)
Lemma create_training_set_stale m : ∀ rd l (training_input training_output : list (Matrix T)),
  exhausted (file_images rd) → exhausted (file_labels rd) →
  length (image rd) = Z.to_nat image_len → label rd = [l] → 0 <= l < 10 →
  ∃ rd',
    create_training_set m rd training_input training_output
    = Ok (training_input ++ replicate m (scaled_image (image rd)),
          training_output ++ replicate m (one_hot l), rd').
Proof.
  induction m as [|m IH]; intros rd l tin tout Hei Hel Himage Hlabel Hl.
  - exists rd. simpl. by rewrite !app_nil_r.
  - cbn [create_training_set].
    destruct (read_image_exhausted rd image_len Hei) as (fi & -> & Hfi). cbn [rbind image].
    rewrite fill_input_new by done. cbn [rbind].
    destruct (read_label_exhausted
                (mkReader fi (file_labels rd) (image rd) (label rd)) label_len Hel)
      as (fl & -> & Hfl).
    cbn [rbind label file_images image]. rewrite Hlabel.
    change (vec_at [l] 0) with (Ok l). cbn [rbind].
    rewrite (one_hot_set l Hl). cbn [rbind].
    destruct (IH (mkReader fi fl (image rd) [l]) l
                (tin ++ [scaled_image (image rd)]) (tout ++ [one_hot l]))
      as (rd' & Hrun); try done.
    exists rd'. rewrite Hrun, <- !app_assoc. done.
Qed.

(** X12. The loop "create the training set" of [train], started on files
    that hold [nb_images] images of 784 bytes and as many labels below 10
    (and possibly more data after them), returns [nb_images] examples in the
    order of the files: input [i] is the 784×1 column of the bytes of image
    [i], each divided by 256, and output [i] is the 10×1 column that is 1 in
    the row of label [i] and 0 elsewhere; the streams are left on the data
    that follows. *)
Theorem create_training_set_examples (images : list (list Z)) (labels : list Z) rd
    (rest_i rest_l : list Z) :
  length images = length labels →
  Forall (fun bytes => length bytes = Z.to_nat image_len) images →
  Forall (fun l => 0 <= l < 10) labels →
  failbit (file_images rd) = false → failbit (file_labels rd) = false →
  pending (file_images rd) = concat images ++ rest_i →
  pending (file_labels rd) = labels ++ rest_l →
  length (image rd) = Z.to_nat image_len → length (label rd) = 1%nat →
  ∃ rd',
    create_training_set (T := T) (length images) rd [] []
    = Ok (map scaled_image images, map one_hot labels, rd') ∧
    file_images rd' = mkIfstream rest_i false ∧
    file_labels rd' = mkIfstream rest_l false.
Proof.
  intros Hlen Hbytes Hlabels Hgi Hgl Hpi Hpl Himage Hlabel.
  destruct (create_training_set_data images labels rd rest_i rest_l 0 [] []
              Hlen Hbytes Hlabels Hgi Hgl Hpi Hpl Himage Hlabel)
    as (rd' & Hrun & Hfi & Hfl & _).
  exists rd'. rewrite Nat.add_0_r in Hrun. by rewrite Hrun.
Qed.

(** X13. [train] never tests the state of its streams.  When the files hold
    [k >= 1] images and labels and nothing more, and [nb_images] is [k + m],
    the loop raises no error: it returns the [k] examples of the files
    followed by [m] copies of the last one, made of the bytes that stay in
    the buffers. *)
Theorem create_training_set_past_end_of_file (images : list (list Z)) (labels : list Z) rd
    (bytes : list Z) (l : Z) (m : nat) :
  length images = length labels →
  Forall (fun bytes => length bytes = Z.to_nat image_len) images →
  Forall (fun l => 0 <= l < 10) labels →
  failbit (file_images rd) = false → failbit (file_labels rd) = false →
  pending (file_images rd) = concat images →
  pending (file_labels rd) = labels →
  length (image rd) = Z.to_nat image_len → length (label rd) = 1%nat →
  last images = Some bytes → last labels = Some l →
  ∃ rd',
    create_training_set (T := T) (length images + m) rd [] []
    = Ok (map scaled_image images ++ replicate m (scaled_image bytes),
          map one_hot labels ++ replicate m (one_hot l), rd').
Proof.
  intros Hlen Hbytes Hlabels Hgi Hgl Hpi Hpl Himage Hlabel Hlb Hll.
  destruct (create_training_set_data images labels rd [] [] m [] []
              Hlen Hbytes Hlabels Hgi Hgl) as (rd1 & Hrun & Hfi & Hfl & Hlen1 & Hlast & _);
    try done.
  { by rewrite app_nil_r. }
  { by rewrite app_nil_r. }
  destruct (Hlast bytes l Hlb Hll) as [Him Hla].
  destruct (create_training_set_stale m rd1 l (map scaled_image images) (map one_hot labels))
    as (rd' & Hstale); try done.
  { right. by rewrite Hfi. }
  { right. by rewrite Hfl. }
  { eapply Forall_forall in Hlabels; [done|]. apply list_elem_of_lookup.
    rewrite last_lookup in Hll. eauto. }
  exists rd'. cbn [app] in Hrun. rewrite Hrun, Hstale, Him. done.
Qed.

(** X14. [train] does not check the label byte that it uses as a row index:
    on an image followed by a label of 10 or more, the write into the 10×1
    expected output is out of range and the loop has no defined result. *)
Theorem create_training_set_label_out_of_range n rd (bytes : list Z) (l : Z)
    (rest_i rest_l : list Z) (training_input training_output : list (Matrix T)) :
  failbit (file_images rd) = false → failbit (file_labels rd) = false →
  pending (file_images rd) = bytes ++ rest_i →
  pending (file_labels rd) = l :: rest_l →
  length bytes = Z.to_nat image_len →
  length (image rd) = Z.to_nat image_len → length (label rd) = 1%nat →
  10 <= l →
  create_training_set (S n) rd training_input training_output = Fatal OutOfRange.
Proof.
  intros Hgi Hgl Hpi Hpl Hbytes Himage Hlabel Hl.
  rewrite (create_training_set_step n rd bytes l rest_i rest_l) by done.
  by rewrite (one_hot_out_of_range l Hl).
Qed.

(** *** The guess of [test] *)

Lemma Matrix_get_column y (k : nat) :
  get_J y = 1 → (k < length (matrix y))%nat → Matrix_get y (Z.of_nat k) 0 = Ok (cell y k).
Proof.
  intros HJ Hk. unfold Matrix_get. rewrite HJ.
  replace (Z.of_nat k * 1 + 0) with (Z.of_nat k) by lia.
  apply vec_at_lookup. unfold cell.
  destruct (lookup_lt_is_Some_2 (matrix y) k Hk) as [v Hv].
  by rewrite (nth_lookup_Some _ _ _ _ Hv).
Qed.

Lemma test_kmax_loop_spec y N n : ∀ (k kmax : nat),
  sgtb_irreflexive (T := T) → sgtb_transitive (T := T) →
  get_J y = 1 → (k + n ≤ N)%nat → (N ≤ length (matrix y))%nat →
  (kmax < k ∨ (k = 0 ∧ kmax = 0))%nat →
  kmax_invariant y N k kmax →
  ∃ kmax' : nat,
    test_kmax_loop n (Z.of_nat k) (Z.of_nat kmax) y = Ok (Z.of_nat kmax') ∧
    (kmax' < k + n ∨ (k + n = 0 ∧ kmax' = 0))%nat ∧
    kmax_invariant y N (k + n) kmax'.
Proof.
  induction n as [|n IH]; intros k kmax Hirr Htrans HJ HN Hlen Hkmax [Hmax Hfirst].
  - exists kmax. rewrite Nat.add_0_r. done.
  - cbn [test_kmax_loop].
    rewrite (Matrix_get_column y k HJ) by lia. cbn [rbind].
    rewrite (Matrix_get_column y kmax HJ) by lia. cbn [rbind].
    replace (Z.of_nat k + 1) with (Z.of_nat (S k)) by lia.
    replace (k + S n)%nat with (S k + n)%nat by lia.
    destruct (sgtb (cell y k) (cell y kmax)) eqn:Hgt.
    + apply IH; try done; [lia|lia|]. split.
      * intros j Hj. destruct (decide (j = k)) as [->|Hne]; [apply Hirr|].
        destruct (sgtb (cell y j) (cell y k)) eqn:Hjk; [|done].
        rewrite <- (Hmax j) by lia. symmetry. by eapply Htrans.
      * intros Hcmp j Hj.
        destruct (Hcmp k kmax j) as [Hkj|Hjm]; [lia|lia|lia|done|done|].
        destruct (decide (j < kmax)%nat) as [Hlt|Hge].
        -- eapply Htrans; [exact Hgt|]. by apply Hfirst.
        -- rewrite Hmax in Hjm by lia. done.
    + apply IH; try done; [lia|lia|]. split; [|done].
      intros j Hj. destruct (decide (j = k)) as [->|Hne]; [done|]. apply Hmax. lia.
Qed.

Lemma test_kmax_spec y :
  sgtb_irreflexive (T := T) → sgtb_transitive (T := T) →
  get_J y = 1 → (10 ≤ length (matrix y))%nat →
  ∃ kmax : nat,
    test_kmax y = Ok (Z.of_nat kmax) ∧ (kmax < 10)%nat ∧ kmax_invariant y 10 10 kmax.
Proof.
  intros Hirr Htrans HJ Hlen.
  destruct (test_kmax_loop_spec y 10 10 0 0 Hirr Htrans HJ) as (kmax & Hrun & Hk & Hinv).
  - simpl. lia.
  - done.
  - by right.
  - split; intros; lia.
  - exists kmax. split; [done|]. split; [lia|done].
Qed.

(** X15. The guess of [test] is a row of a greatest output: for a column
    [y] of at least ten outputs, the loop returns a row [kmax] below 10 such
    that none of the ten outputs is greater than [y(kmax, 0)].  Only
    irreflexivity and transitivity of [>] are used, which hold of
    floating-point numbers, NaN included. *)
Theorem test_kmax_is_maximal y :
  sgtb_irreflexive (T := T) → sgtb_transitive (T := T) →
  get_J y = 1 → (10 ≤ length (matrix y))%nat →
  ∃ kmax : nat,
    test_kmax y = Ok (Z.of_nat kmax) ∧ (kmax < 10)%nat ∧
    ∀ k, (k < 10)%nat → sgtb (cell y k) (cell y kmax) = false.
Proof.
  intros Hirr Htrans HJ Hlen.
  destruct (test_kmax_spec y Hirr Htrans HJ Hlen) as (kmax & Hrun & Hk & Hmax & _).
  by exists kmax.
Qed.

(** X16. Ties go to the lowest digit: when the ten outputs are comparable
    with one another (none of them is a NaN), every output in a row before
    the guess is smaller than the guessed output, so that the guess is the
    first row that holds the maximum. *)
Theorem test_kmax_is_first_maximum y :
  sgtb_irreflexive (T := T) → sgtb_transitive (T := T) →
  outputs_comparable y 10 →
  get_J y = 1 → (10 ≤ length (matrix y))%nat →
  ∃ kmax : nat,
    test_kmax y = Ok (Z.of_nat kmax) ∧ (kmax < 10)%nat ∧
    ∀ k, (k < kmax)%nat → sgtb (cell y kmax) (cell y k) = true.
Proof.
  intros Hirr Htrans Hcmp HJ Hlen.
  destruct (test_kmax_spec y Hirr Htrans HJ Hlen) as (kmax & Hrun & Hk & _ & Hfirst).
  exists kmax. split; [done|]. split; [done|]. by apply Hfirst.
Qed.

Lemma test_kmax_loop_short y n : ∀ (k kmax : nat),
  get_J y = 1 → (k ≤ length (matrix y) < k + n)%nat → (kmax ≤ k)%nat →
  test_kmax_loop n (Z.of_nat k) (Z.of_nat kmax) y = Fatal OutOfRange.
Proof.
  induction n as [|n IH]; intros k kmax HJ Hlen Hkmax; [lia|].
  cbn [test_kmax_loop].
  destruct (decide (k = length (matrix y))) as [->|Hne].
  - unfold Matrix_get at 1. rewrite HJ. unfold vec_at.
    replace (Z.of_nat (length (matrix y)) * 1 + 0) with (Z.of_nat (length (matrix y)))
      by lia.
    destruct (Z.ltb_spec (Z.of_nat (length (matrix y))) 0); [done|].
    by rewrite Nat2Z.id, lookup_ge_None_2.
  - rewrite (Matrix_get_column y k HJ) by lia. cbn [rbind].
    rewrite (Matrix_get_column y kmax HJ) by lia. cbn [rbind].
    replace (Z.of_nat k + 1) with (Z.of_nat (S k)) by lia.
    destruct (sgtb (cell y k) (cell y kmax)); apply IH; try done; lia.
Qed.

(** X17. [test] takes the network to have ten outputs and does not check
    it: on an output column of fewer than ten rows the loop reads [y] past
    its end and has no defined result. *)
Theorem test_kmax_needs_ten_outputs y :
  get_J y = 1 → (length (matrix y) < 10)%nat → test_kmax y = Fatal OutOfRange.
Proof.
  intros HJ Hlen. apply (test_kmax_loop_short y 10 0 0); [done|lia|lia].
Qed.

End DataSetTheorems.

(** ** The drawing window *)

Section WindowTheorems.
Context {T : Type} `{Scalar T}.
Implicit Types (x y : Z) (c : scan_call T).

(** The quotient by 10 truncated toward zero. *)
Lemma quot10_cases (y : Z) :
  (0 <= y ∧ 10 * Z.quot y 10 <= y < 10 * Z.quot y 10 + 10) ∨
  (y <= 0 ∧ 10 * Z.quot y 10 - 10 < y <= 10 * Z.quot y 10).
Proof.
  pose proof (Z.quot_rem' y 10) as Hqr.
  destruct (Z.le_ge_cases 0 y) as [Hy|Hy]; [left|right].
  - pose proof (Z.rem_bound_pos_pos y 10 ltac:(lia) Hy). lia.
  - pose proof (Z.rem_bound_pos_neg y 10 ltac:(lia) Hy). lia.
Qed.

(** The cells that [motion] scans, without the values. *)
Lemma motion_cells x y c :
  c ∈ motion x y →
  0 <= Z.quot y 10 <= 27 ∧ 0 <= Z.quot x 10 <= 27 ∧
  ((scan_i c = Z.quot y 10 ∧ scan_j c = Z.quot x 10) ∨
   (0 < Z.quot y 10 < 27 ∧ scan_j c = Z.quot x 10 ∧
    scan_i c = Z.quot y 10 + (if 10 * Z.quot y 10 - y + 5 <? 0 then 1 else -1)) ∨
   (0 < Z.quot x 10 < 27 ∧ scan_i c = Z.quot y 10 ∧
    scan_j c = Z.quot x 10 + (if 10 * Z.quot x 10 - x + 5 <? 0 then 1 else -1))).
Proof.
  unfold motion. cbv zeta.
  destruct (10 * Z.quot y 10 - y + 5 <? 0); destruct (10 * Z.quot x 10 - x + 5 <? 0);
    destruct (Z.ltb_spec (Z.quot y 10) 0); destruct (Z.ltb_spec 27 (Z.quot y 10));
    destruct (Z.ltb_spec (Z.quot x 10) 0); destruct (Z.ltb_spec 27 (Z.quot x 10));
    cbn [orb negb]; try (by intros ?%elem_of_nil);
    destruct (Z.ltb_spec 0 (Z.quot y 10)); destruct (Z.ltb_spec (Z.quot y 10) 27);
    destruct (Z.ltb_spec 0 (Z.quot x 10)); destruct (Z.ltb_spec (Z.quot x 10) 27);
    cbn [andb app];
    rewrite ?elem_of_cons, ?elem_of_nil;
    intros Hc; (split; [lia|]); (split; [lia|]);
    repeat (destruct Hc as [->|Hc]; [cbn [scan_i scan_j]; auto 6 with lia|]);
    done.
Qed.

(** X18. Every call of [scan] that [motion] makes addresses a cell of the
    28×28 grid, whatever the position of the mouse: both indices lie between
    0 and 27. *)
Theorem motion_scans_inside_grid x y c :
  c ∈ motion x y → 0 <= scan_i c <= 27 ∧ 0 <= scan_j c <= 27.
Proof.
  intros (Hi & Hj & Hc)%motion_cells.
  destruct Hc as [[-> ->]|[(Hy & -> & ->)|(Hx & -> & ->)]]; [lia| |].
  - destruct (10 * Z.quot y 10 - y + 5 <? 0); lia.
  - destruct (10 * Z.quot x 10 - x + 5 <? 0); lia.
Qed.

(** X19. [motion] draws exactly when both coordinates lie strictly between
    -10 and 280: the division by the cell width truncates toward zero, so
    that the positions -9 .. -1, outside the window, count as row or column
    0; the first call is then for the cell under the mouse. *)
Theorem motion_draws_iff x y :
  (motion (T := T) x y ≠ [] ↔ -10 < x < 280 ∧ -10 < y < 280) ∧
  (∀ c : scan_call T, head (motion x y) = Some c →
     scan_i c = Z.quot y 10 ∧ scan_j c = Z.quot x 10).
Proof.
  pose proof (quot10_cases x) as Hqx. pose proof (quot10_cases y) as Hqy.
  unfold motion. cbv zeta.
  destruct (10 * Z.quot y 10 - y + 5 <? 0); destruct (10 * Z.quot x 10 - x + 5 <? 0);
    destruct (Z.ltb_spec (Z.quot y 10) 0); destruct (Z.ltb_spec 27 (Z.quot y 10));
    destruct (Z.ltb_spec (Z.quot x 10) 0); destruct (Z.ltb_spec 27 (Z.quot x 10));
    cbn [orb negb app head];
    (split; [split; [intros Hne; try done; lia|intros Hxy; try done; lia]
            |intros c Hc; try done; by injection Hc as <-]).
Qed.


End WindowTheorems.

(** ** The scaled images, in binary64 arithmetic *)

Section Binary64Data.
Import Binary64 DataExamples.

Lemma scaled_bytes_ok : forallb scaled_byte_ok (map Z.of_nat (seq 0 256)) = true.
Proof. vm_compute. reflexivity. Qed.

Lemma scaled_byte_range (b : Z) : 0 <= b <= 255 → scaled_byte_ok b = true.
Proof.
  intros Hb. pose proof scaled_bytes_ok as Hall.
  rewrite forallb_forall in Hall. apply Hall.
  apply in_map_iff. exists (Z.to_nat b). split; [lia|]. apply in_seq. lia.
Qed.

(** X21. For [T = double], the input that [train] and [test] make of an
    image is a 784×1 column in which element [j] is byte [j] of the image
    divided by 256 without rounding error (multiplied by 256 it gives the
    byte back), a number from 0 up to but not including 1. *)
Theorem fill_input_range (bytes : list Z) :
  length bytes = Z.to_nat image_len →
  Forall (fun b => 0 <= b <= 255) bytes →
  ∃ input : Matrix PrimFloat.float,
    fill_input (Z.to_nat image_len) 0 bytes (Matrix_new image_len 1) = Ok input ∧
    is_column image_len input ∧
    Forall2 (fun b v => PrimFloat.leb (of_int 0) v = true ∧
                        PrimFloat.ltb v (of_int 1) = true ∧
                        PrimFloat.eqb (PrimFloat.mul v (of_int 256)) (of_int b) = true)
            bytes (matrix input).
Proof.
  intros Hlen Hbytes. exists (scaled_image bytes).
  split; [by apply fill_input_new|]. split; [done|].
  unfold scaled_image. cbn [matrix]. apply Forall2_fmap_r, Forall_Forall2_diag.
  eapply Forall_impl; [exact Hbytes|]. intros b Hb.
  pose proof (scaled_byte_range b Hb) as Hok. unfold scaled_byte_ok in Hok.
  cbv zeta in Hok. apply andb_prop in Hok as [Hok H3]. apply andb_prop in Hok as [H1 H2].
  done.
Qed.

End Binary64Data.

(** ** The further theorems on concrete inputs *)

Section MoreExamples.
Import RealScalars Binary64 DataExamples.

(** The order of the real numbers is irreflexive and transitive, and any
    real numbers are comparable. *)
Lemma R_sgtb_irreflexive : sgtb_irreflexive (T := R).
Proof. intros a. unfold sgtb, R_order. destruct (Rgt_dec a a); [lra|done]. Defined.
Lemma R_sgtb_transitive : sgtb_transitive (T := R).
Proof.
  intros a b c. unfold sgtb, R_order.
  destruct (Rgt_dec a b), (Rgt_dec b c), (Rgt_dec a c); try done. lra.
Defined.
Lemma R_outputs_comparable (y : Matrix R) (n : nat) : outputs_comparable y n.
Proof.
  intros i j k _ _ _. unfold sgtb, R_order.
  destruct (Rgt_dec (cell y i) (cell y j)), (Rgt_dec (cell y i) (cell y k)),
           (Rgt_dec (cell y k) (cell y j)); try done; auto. lra.
Defined.

(** A batch of one valid example for [net21]. *)
Lemma net21_batch : Forall (valid_example net21) (zip [x21] [y21]).
Proof. repeat constructor. Defined.

(** X1 on [net21]. *)
Lemma activations_are_columns_witness :
  network_okb net21 = true ∧ is_column (get_nb_nodes (input net21)) x21 ∧
  ∃ out, feedforward x21 net21 = Ok (out, net21) ∧ is_column (output_nb_nodes net21) out.
Proof.
  split; [reflexivity|]. split; [exact net21_input|].
  destruct (activations_are_columns net21 x21 eq_refl net21_input)
    as (activations & out & _ & Hrun & Hcol & _).
  exists out. split; [exact Hrun|exact Hcol].
Defined.

(** X2 on [net21] and the example ([x21], [y21]). *)
Lemma gradients_have_parameter_shapes_witness :
  network_okb net21 = true ∧ 1 <= nb_fully_connected_layers net21 ∧
  is_column (get_nb_nodes (input net21)) x21 ∧ is_column (output_nb_nodes net21) y21 ∧
  ∃ NablaW NablaB,
    backpropagation_cross_entropy x21 y21 net21 = Ok ((NablaW, NablaB), net21).
Proof.
  split; [reflexivity|]. split; [simpl; lia|].
  split; [exact net21_input|]. split; [exact net21_output|].
  destruct (gradients_have_parameter_shapes net21 x21 y21 eq_refl ltac:(simpl; lia)
              net21_input net21_output)
    as (NablaW & NablaB & Hrun & _).
  exists NablaW, NablaB. exact Hrun.
Defined.

(** X3 on [net21], which has two input nodes, and the 1×1 matrix [x1]. *)
Lemma wrong_input_height_is_fatal_witness :
  network_okb net21 = true ∧ 1 <= nb_fully_connected_layers net21 ∧
  get_I x1 ≠ get_nb_nodes (input net21) ∧
  feedforward x1 net21 = Fatal ShapeMismatch.
Proof.
  assert (Hne : get_I x1 ≠ get_nb_nodes (input net21)).
  { intros Heq. discriminate Heq. }
  split; [reflexivity|]. split; [simpl; lia|]. split; [exact Hne|].
  apply (wrong_input_height_is_fatal net21 x1 y21 eq_refl ltac:(simpl; lia) Hne).
Defined.

(** X4 on [net21], which has one output node, and the 2×1 matrix [x21] as
    expected output. *)
Lemma wrong_output_shape_is_fatal_witness :
  network_okb net21 = true ∧ 1 <= nb_fully_connected_layers net21 ∧
  is_column (get_nb_nodes (input net21)) x21 ∧ ¬ is_column (output_nb_nodes net21) x21 ∧
  backpropagation_cross_entropy x21 x21 net21 = Fatal ShapeMismatch.
Proof.
  assert (Hne : ¬ is_column (output_nb_nodes net21) x21).
  { intros [HI _]. discriminate HI. }
  split; [reflexivity|]. split; [simpl; lia|]. split; [exact net21_input|].
  split; [exact Hne|].
  apply (wrong_output_shape_is_fatal net21 x21 x21 eq_refl ltac:(simpl; lia)
           net21_input Hne).
Defined.

(** X5 on [net1]. *)
Lemma zero_layer_network_witness :
  nb_fully_connected_layers net1 = 0 ∧
  feedforward x1 net1 = Ok (x1, net1) ∧
  backpropagation_cross_entropy x1 x1 net1 = Fatal OutOfRange.
Proof.
  split; [reflexivity|].
  destruct (zero_layer_network net1 x1 x1 [x1] [x1] 1 1 1%R 0%R eq_refl)
    as (Hff & _ & Hbp & _).
  split; [exact Hff|exact Hbp].
Defined.

(** X6 on [net21] and a batch of one example. *)
Lemma SGD_batch_keeps_network_well_formed_witness :
  network_okb net21 = true ∧ 1 <= nb_fully_connected_layers net21 ∧
  length [x21] = length [y21] ∧ Forall (valid_example net21) (zip [x21] [y21]) ∧
  ∃ net', SGD_batch [x21] [y21] 1 (Z.of_nat (length [x21])) 1%R 0%R net21 = Ok (tt, net') ∧
          network_okb net' = true.
Proof.
  split; [reflexivity|]. split; [simpl; lia|]. split; [reflexivity|].
  split; [exact net21_batch|].
  destruct (SGD_batch_keeps_network_well_formed net21 [x21] [y21] 1 1%R 0%R eq_refl
              ltac:(simpl; lia) eq_refl net21_batch)
    as (net' & Hrun & Hok & _).
  exists net'. split; [exact Hrun|exact Hok].
Defined.

(** X7 on [net21] and two batches of one example. *)
Lemma SGD_batch_twice_then_feedforward_witness :
  network_okb net21 = true ∧ 1 <= nb_fully_connected_layers net21 ∧
  Forall (valid_example net21) (zip [x21] [y21]) ∧
  is_column (get_nb_nodes (input net21)) x21 ∧
  ∃ net1 net2 out,
    SGD_batch [x21] [y21] 1 (Z.of_nat (length [x21])) 1%R 0%R net21 = Ok (tt, net1) ∧
    SGD_batch [x21] [y21] 1 (Z.of_nat (length [x21])) 1%R 0%R net1 = Ok (tt, net2) ∧
    feedforward x21 net2 = Ok (out, net2).
Proof.
  split; [reflexivity|]. split; [simpl; lia|]. split; [exact net21_batch|].
  split; [exact net21_input|].
  destruct (SGD_batch_twice_then_feedforward net21 [x21] [y21] [x21] [y21] x21 1 1%R 0%R
              eq_refl ltac:(simpl; lia) eq_refl eq_refl net21_batch net21_batch net21_input)
    as (net1 & net2 & out & Hrun1 & Hrun2 & Hff & _).
  exists net1, net2, out. split; [exact Hrun1|]. split; [exact Hrun2|exact Hff].
Defined.

(** X9 on [net21]: a batch of one example with [batch_len = 2]. *)
Lemma SGD_batch_short_batch_is_fatal_witness :
  network_okb net21 = true ∧ 1 <= nb_fully_connected_layers net21 ∧
  length [x21] = length [y21] ∧ Forall (valid_example net21) (zip [x21] [y21]) ∧
  Z.of_nat (length [x21]) < 2 ∧
  SGD_batch [x21] [y21] 1 2 1%R 0%R net21 = Fatal OutOfRange.
Proof.
  split; [reflexivity|]. split; [simpl; lia|]. split; [reflexivity|].
  split; [exact net21_batch|]. split; [simpl; lia|].
  apply (SGD_batch_short_batch_is_fatal net21 [x21] [y21] 1 2 1%R 0%R eq_refl
           ltac:(simpl; lia) eq_refl net21_batch ltac:(simpl; lia)).
Defined.

(** X10 on the sizes [2; 1]. *)
Lemma FNN_new_then_feedforward_witness :
  Forall (fun n => 0 < n) [2; 1] ∧ head [2; 1] = Some 2 ∧ last [2; 1] = Some 1 ∧
  ∃ net : FNN R, FNN_new [2; 1] = Ok net ∧ network_okb net = true ∧
    ∃ out, feedforward x21 net = Ok (out, net) ∧ is_column 1 out.
Proof.
  assert (Hpos : Forall (fun n => 0 < n) [2; 1]) by (repeat constructor; lia).
  split; [exact Hpos|]. split; [reflexivity|]. split; [reflexivity|].
  destruct (FNN_new_then_feedforward (T := R) [2; 1] 2 1 Hpos eq_refl eq_refl)
    as (net & Hnew & Hok & _ & _ & Hff).
  exists net. split; [exact Hnew|]. split; [exact Hok|]. apply Hff. split; reflexivity.
Defined.

(** X11 on a label file that holds its header and two labels. *)
Lemma label_header_overruns_buffer_witness :
  failbit labels_file = false ∧ (2 ≤ length (pending labels_file))%nat ∧
  train_training_set (T := PrimFloat.float) (mkIfstream [] true) labels_file
                     (fun _ => 0) (fun _ => 0) 2 0
  = Fatal OutOfRange.
Proof.
  split; [reflexivity|]. split; [simpl; lia|].
  apply (label_header_overruns_buffer (T := PrimFloat.float) (fun y => Ok y)
           (mkIfstream [] true) labels_file (fun _ => 0) (fun _ => 0) 2 0 eq_refl
           ltac:(simpl; lia)).
Defined.

(** The two images of [two_images] have 784 bytes each, and their labels
    are digits. *)
Lemma two_images_lengths :
  Forall (fun bytes => length bytes = Z.to_nat image_len) [plain_image 3; plain_image 255].
Proof. repeat (constructor; [reflexivity|]). constructor. Defined.
Lemma two_images_labels : Forall (fun l => 0 <= l < 10) [7; 2].
Proof. repeat (constructor; [lia|]). constructor. Defined.

(** X12 on [two_images]. *)
Lemma create_training_set_examples_witness :
  Forall (fun bytes => length bytes = Z.to_nat image_len)
         [plain_image 3; plain_image 255] ∧
  Forall (fun l => 0 <= l < 10) [7; 2] ∧
  pending (file_images two_images) = concat [plain_image 3; plain_image 255] ++ [] ∧
  pending (file_labels two_images) = [7; 2] ++ [] ∧
  ∃ rd',
    create_training_set (T := PrimFloat.float)
      (length [plain_image 3; plain_image 255]) two_images [] []
    = Ok (map scaled_image [plain_image 3; plain_image 255], map one_hot [7; 2], rd').
Proof.
  assert (Hpi : pending (file_images two_images)
                = concat [plain_image 3; plain_image 255] ++ []).
  { unfold two_images. cbn [file_images pending concat]. by rewrite !app_nil_r. }
  split; [exact two_images_lengths|]. split; [exact two_images_labels|].
  split; [exact Hpi|]. split; [reflexivity|].
  destruct (create_training_set_examples (T := PrimFloat.float)
              [plain_image 3; plain_image 255] [7; 2] two_images [] [] eq_refl
              two_images_lengths two_images_labels eq_refl eq_refl Hpi eq_refl
              eq_refl eq_refl)
    as (rd' & Hrun & _).
  exists rd'. exact Hrun.
Defined.

(** X13 on [two_images] and one image more than the files hold. *)
Lemma create_training_set_past_end_of_file_witness :
  Forall (fun bytes => length bytes = Z.to_nat image_len)
         [plain_image 3; plain_image 255] ∧
  Forall (fun l => 0 <= l < 10) [7; 2] ∧
  pending (file_images two_images) = concat [plain_image 3; plain_image 255] ∧
  pending (file_labels two_images) = [7; 2] ∧
  ∃ rd',
    create_training_set (T := PrimFloat.float)
      (length [plain_image 3; plain_image 255] + 1) two_images [] []
    = Ok (map scaled_image [plain_image 3; plain_image 255]
            ++ replicate 1 (scaled_image (plain_image 255)),
          map one_hot [7; 2] ++ replicate 1 (one_hot 2), rd').
Proof.
  assert (Hpi : pending (file_images two_images)
                = concat [plain_image 3; plain_image 255]).
  { unfold two_images. cbn [file_images pending concat]. by rewrite !app_nil_r. }
  split; [exact two_images_lengths|]. split; [exact two_images_labels|].
  split; [exact Hpi|]. split; [reflexivity|].
  destruct (create_training_set_past_end_of_file (T := PrimFloat.float)
              [plain_image 3; plain_image 255] [7; 2] two_images
              (plain_image 255) 2 1 eq_refl two_images_lengths two_images_labels
              eq_refl eq_refl Hpi eq_refl eq_refl eq_refl eq_refl eq_refl)
    as (rd' & Hrun).
  exists rd'. exact Hrun.
Defined.

(** X14 on a label file whose first label is 12. *)
Lemma create_training_set_label_out_of_range_witness :
  pending (file_images bad_label) = plain_image 3 ++ [] ∧
  pending (file_labels bad_label) = [12] ∧
  10 <= 12 ∧
  create_training_set (T := PrimFloat.float) 1 bad_label [] [] = Fatal OutOfRange.
Proof.
  assert (Hpi : pending (file_images bad_label) = plain_image 3 ++ []).
  { unfold bad_label. cbn [file_images pending]. by rewrite app_nil_r. }
  split; [exact Hpi|]. split; [reflexivity|]. split; [lia|].
  apply (create_training_set_label_out_of_range (T := PrimFloat.float) 0 bad_label
           (plain_image 3) 12 [] [] [] [] eq_refl eq_refl Hpi eq_refl eq_refl eq_refl
           eq_refl ltac:(lia)).
Defined.

(** X15 on [y10]. *)
Lemma test_kmax_is_maximal_witness :
  sgtb_irreflexive (T := R) ∧ sgtb_transitive (T := R) ∧
  get_J y10 = 1 ∧ (10 ≤ length (matrix y10))%nat ∧
  ∃ kmax : nat, test_kmax y10 = Ok (Z.of_nat kmax) ∧ (kmax < 10)%nat.
Proof.
  split; [exact R_sgtb_irreflexive|]. split; [exact R_sgtb_transitive|].
  split; [reflexivity|]. split; [simpl; lia|].
  destruct (test_kmax_is_maximal y10 R_sgtb_irreflexive R_sgtb_transitive eq_refl
              ltac:(simpl; lia))
    as (kmax & Hrun & Hk & _).
  exists kmax. split; [exact Hrun|exact Hk].
Defined.

(** X16 on [y10]. *)
Lemma test_kmax_is_first_maximum_witness :
  sgtb_irreflexive (T := R) ∧ sgtb_transitive (T := R) ∧
  outputs_comparable y10 10 ∧
  get_J y10 = 1 ∧ (10 ≤ length (matrix y10))%nat ∧
  ∃ kmax : nat, test_kmax y10 = Ok (Z.of_nat kmax) ∧ (kmax < 10)%nat.
Proof.
  split; [exact R_sgtb_irreflexive|]. split; [exact R_sgtb_transitive|].
  split; [exact (R_outputs_comparable y10 10)|].
  split; [reflexivity|]. split; [simpl; lia|].
  destruct (test_kmax_is_first_maximum y10 R_sgtb_irreflexive R_sgtb_transitive
              (R_outputs_comparable y10 10) eq_refl ltac:(simpl; lia))
    as (kmax & Hrun & Hk & _).
  exists kmax. split; [exact Hrun|exact Hk].
Defined.

(** X17 on the single output [y21]. *)
Lemma test_kmax_needs_ten_outputs_witness :
  get_J y21 = 1 ∧ (length (matrix y21) < 10)%nat ∧ test_kmax y21 = Fatal OutOfRange.
Proof.
  split; [reflexivity|]. split; [simpl; lia|].
  apply (test_kmax_needs_ten_outputs y21 eq_refl ltac:(simpl; lia)).
Defined.

(** The first call of [motion] for the mouse at (15, 25) is for the cell in
    row 2 and column 1. *)
Lemma motion_15_25 :
  ∃ v rest, motion (T := PrimFloat.float) 15 25 = mkScan 2 1 v :: rest.
Proof. eexists. eexists. vm_compute. reflexivity. Defined.

(** X18 for the mouse at (15, 25). *)
Lemma motion_scans_inside_grid_witness :
  ∃ c : scan_call PrimFloat.float,
    c ∈ motion 15 25 ∧ 0 <= scan_i c <= 27 ∧ 0 <= scan_j c <= 27.
Proof.
  destruct motion_15_25 as (v & rest & Hm).
  assert (Hc : mkScan 2 1 v ∈ motion 15 25) by (rewrite Hm; apply list_elem_of_here).
  exists (mkScan 2 1 v). split; [exact Hc|].
  apply (motion_scans_inside_grid 15 25 (mkScan 2 1 v) Hc).
Defined.


(** X21 on an image of 784 bytes of value 255. *)
Lemma fill_input_range_witness :
  length (plain_image 255) = Z.to_nat image_len ∧
  Forall (fun b => 0 <= b <= 255) (plain_image 255) ∧
  ∃ input : Matrix PrimFloat.float,
    fill_input (Z.to_nat image_len) 0 (plain_image 255) (Matrix_new image_len 1)
    = Ok input ∧
    is_column image_len input.
Proof.
  assert (Hbytes : Forall (fun b => 0 <= b <= 255) (plain_image 255)).
  { apply Forall_replicate. lia. }
  split; [reflexivity|]. split; [exact Hbytes|].
  destruct (fill_input_range (plain_image 255) eq_refl Hbytes)
    as (input & Hrun & Hcol & _).
  exists input. split; [exact Hrun|exact Hcol].
Defined.

End MoreExamples.
